(** * Layered-image snapshotter: overlay orchestrator, overlaybd read-only
    driver, sparse-file quota provider and whiteout translation.

    A shallow embedding of the Go sources of the snapshotter
    ([snapshots/overlay], [snapshots/overlay/overlaybd],
    [snapshots/overlay/overlaybd/config], [snapshots/overlay/quota/sparsefile],
    [archive]) together with the properties of its specification.

    Conventions.  Go [string] is [string]; Go [map[string]string] is
    [gmap string string], a nil map being the empty map ([option] where the
    source tests for nil); Go [int] is [Z]; an [error] result is a value of
    an inductive error type, [None] standing for [nil].  System calls,
    child processes and the metadata store are not part of the sources:
    their outcomes are supplied by an explicit environment record and the
    calls made are recorded in a trace.  Where a property is about what one
    call leaves for the next, the directories made and the rows of the
    store are carried in an explicit world on which the trace is
    replayed. *)

From Stdlib Require Import ZArith List Bool Lia.
From Stdlib Require Import Strings.String Strings.Ascii.
From stdpp Require Import base option gmap strings pretty.

Import ListNotations.
Open Scope string_scope.
Open Scope list_scope.

(* ===================================================================== *)
(** ** Go's [strings] and [path/filepath] (Unix) *)
(* ===================================================================== *)

Module GoPath.

(** [strings.HasPrefix]. *)
Definition HasPrefix (s p : string) : bool := String.prefix p s.

(** [s[n:]]. *)
Fixpoint drop_str (n : nat) (s : string) : string :=
  match n, s with
  | O, _ => s
  | S n', String _ s' => drop_str n' s'
  | S _, EmptyString => EmptyString
  end.

(** [strings.TrimPrefix]. *)
Definition TrimPrefix (s p : string) : string :=
  if HasPrefix s p then drop_str (String.length p) s else s.

Definition slash : ascii := "/"%char.

(** [strings.Split(s, "/")]: the components between separators, empty
    components included. *)
Fixpoint split_slash_aux (cur : string) (s : string) : list string :=
  match s with
  | EmptyString => [cur]
  | String c s' =>
      if Ascii.eqb c slash then cur :: split_slash_aux EmptyString s'
      else split_slash_aux (cur ++ String c EmptyString) s'
  end.

Definition split_slash (s : string) : list string :=
  split_slash_aux EmptyString s.

(** [strings.Join(l, sep)]. *)
Fixpoint join_with (sep : string) (l : list string) : string :=
  match l with
  | [] => EmptyString
  | [x] => x
  | x :: rest => x ++ sep ++ join_with sep rest
  end.

Definition nonempty (s : string) : bool :=
  match s with EmptyString => false | _ => true end.

Definition is_dot (s : string) : bool := String.eqb s ".".
Definition is_dotdot (s : string) : bool := String.eqb s "..".

(** The component stack of [filepath.Clean]: [acc] holds the components
    kept so far, innermost first. *)
Fixpoint clean_components (rooted : bool) (acc : list string)
         (cs : list string) : list string :=
  match cs with
  | [] => rev acc
  | c :: rest =>
      if negb (nonempty c) || is_dot c then clean_components rooted acc rest
      else if is_dotdot c then
        match acc with
        | top :: acc' =>
            if is_dotdot top then clean_components rooted (c :: acc) rest
            else clean_components rooted acc' rest
        | [] =>
            if rooted then clean_components rooted [] rest
            else clean_components rooted [c] rest
        end
      else clean_components rooted (c :: acc) rest
  end.

Definition IsAbs (p : string) : bool := HasPrefix p "/".

(** [filepath.Clean]: the shortest path name equivalent to [p] by purely
    lexical processing. *)
Definition Clean (p : string) : string :=
  match p with
  | EmptyString => "."
  | _ =>
      let rooted := IsAbs p in
      let body := join_with "/" (clean_components rooted [] (split_slash p)) in
      if rooted then "/" ++ body
      else if nonempty body then body else "."
  end.

(** [filepath.Join]: empty elements are ignored, the rest joined by the
    separator and cleaned; all-empty gives the empty string. *)
Definition Join (elems : list string) : string :=
  match filter (fun e => nonempty e = true) elems with
  | [] => EmptyString
  | es => Clean (join_with "/" es)
  end.

(** [path.Join] has the same definition on Unix. *)
Definition PJoin := Join.

Fixpoint strip_trailing_slashes_rev (rs : list string) : list string :=
  match rs with
  | c :: rest => if nonempty c then rs else strip_trailing_slashes_rev rest
  | [] => []
  end.

(** [filepath.Base]: the last element of the path, trailing separators
    removed first; [.] for the empty path, [/] for a path of separators. *)
Definition Base (p : string) : string :=
  match p with
  | EmptyString => "."
  | _ =>
      match strip_trailing_slashes_rev (rev (split_slash p)) with
      | c :: _ => c
      | [] => "/"
      end
  end.

(** [filepath.Dir]: all but the last element, cleaned. *)
Definition Dir (p : string) : string :=
  match rev (split_slash p) with
  | _ :: (_ :: _) as front_rev => Clean (join_with "/" (rev front_rev) ++ "/")
  | _ => Clean EmptyString
  end.

End GoPath.

(* ===================================================================== *)
(** ** Errors *)
(* ===================================================================== *)

(** Go [error] values.  [ErrWrap msg e] is [fmt.Errorf(msg + ": %w", e)];
    [ErrMsg] is an error built from text alone ([fmt.Errorf] without [%w],
    [errors.Errorf]); [ErrSys] is an error handed back by the operating
    system or by a child process; the last three are the [errdefs]
    sentinels the snapshotter uses. *)
Inductive error : Type :=
| ErrSys (what : string)
| ErrMsg (msg : string)
| ErrWrap (msg : string) (cause : error)
| ErrAlreadyExists
| ErrNotFound
| ErrInvalidArgument.

(** [errors.Is(e, target)] for the sentinels: follows the [%w] chain. *)
Fixpoint IsNotFound (e : error) : bool :=
  match e with
  | ErrNotFound => true
  | ErrWrap _ c => IsNotFound c
  | _ => false
  end.

Fixpoint IsAlreadyExists (e : error) : bool :=
  match e with
  | ErrAlreadyExists => true
  | ErrWrap _ c => IsAlreadyExists c
  | _ => false
  end.

(** [err.Error()]: the text of an error; [%w] prints the cause after the
    message. *)
Fixpoint Error (e : error) : string :=
  match e with
  | ErrSys what => what
  | ErrMsg msg => msg
  | ErrWrap msg c => msg +:+ ": " +:+ Error c
  | ErrAlreadyExists => "already exists"
  | ErrNotFound => "not found"
  | ErrInvalidArgument => "invalid argument"
  end.

(** [strings.Contains]. *)
Fixpoint Contains (s sub : string) : bool :=
  String.prefix sub s
  || match s with
     | EmptyString => false
     | String _ s' => Contains s' sub
     end.

(** A Go map read with the one-value form: the zero value when absent. *)
Definition label_or_empty (labels : gmap string string) (k : string) : string :=
  default EmptyString (labels !! k).

(** The two-value form's [ok]. *)
Definition has_label (labels : gmap string string) (k : string) : bool :=
  bool_decide (is_Some (labels !! k)).

(* ===================================================================== *)
(** ** archive: whiteout translation *)
(* ===================================================================== *)

Module Archive.

Definition TarFileName : string := "layer.tar".

(** Modelled from the spec: the whiteout constants of the archive package
    ([whiteoutPrefix], [whiteoutMetaPrefix], [whiteoutOpaqueDir]) are
    declared outside the sources at hand; the specification names the
    markers [.wh.foo] and [.wh..wh..opq]. *)
Definition whiteoutPrefix : string := ".wh.".
Definition whiteoutMetaPrefix : string := whiteoutPrefix ++ whiteoutPrefix.
Definition whiteoutOpaqueDir : string := whiteoutMetaPrefix ++ ".opq".

(** [unix.S_IFCHR]. *)
Definition S_IFCHR : Z := 8192.

(** The fields of [tar.Header] the translation reads. *)
Record Header : Type := { Uid : Z; Gid : Z }.

(** The system calls the translation issues. *)
Inductive syscall : Type :=
| Setxattr (path attr value : string) (flags : Z)
| Mknod (path : string) (mode : Z) (dev : Z)
| Chown (path : string) (uid gid : Z).

(** Outcome of each system call, [None] for success. *)
Definition kernel := syscall -> option error.

Record outcome : Type :=
  { keep : bool; err : option error; calls : list syscall }.

(** [AufsConvertWhiteout]. *)
Definition AufsConvertWhiteout (_ : Header) (_ : string) : outcome :=
  {| keep := true; err := None; calls := [] |}.

(** [OverlayConvertWhiteout]. *)
Definition OverlayConvertWhiteout (k : kernel) (hdr : Header) (path : string)
  : outcome :=
  let base := GoPath.Base path in
  let dir := GoPath.Dir path in
  if String.eqb base whiteoutOpaqueDir then
    let c := Setxattr dir "trusted.overlay.opaque" "y" 0 in
    {| keep := false; err := k c; calls := [c] |}
  else if GoPath.HasPrefix base whiteoutPrefix then
    let originalBase := GoPath.drop_str (String.length whiteoutPrefix) base in
    let originalPath := GoPath.Join [dir; originalBase] in
    let mk := Mknod originalPath S_IFCHR 0 in
    match k mk with
    | Some e => {| keep := false; err := Some e; calls := [mk] |}
    | None =>
        let ch := Chown originalPath (Uid hdr) (Gid hdr) in
        {| keep := false; err := k ch; calls := [mk; ch] |}
    end
  else {| keep := true; err := None; calls := [] |}.

(** Linux device numbers: [dev = 0] is major 0, minor 0. *)
Definition dev_major (dev : Z) : Z :=
  Z.lor (Z.land (Z.shiftr dev 8) 4095) (Z.land (Z.shiftr dev 32) 4294963200).
Definition dev_minor (dev : Z) : Z :=
  Z.lor (Z.land dev 255) (Z.land (Z.shiftr dev 12) 4294967040).

End Archive.

(* ===================================================================== *)
(** ** Go's [strconv.Atoi] *)
(* ===================================================================== *)

Module Strconv.

Definition digit_of (c : ascii) : option Z :=
  let n := Z.of_nat (nat_of_ascii c) in
  if (48 <=? n)%Z && (n <=? 57)%Z then Some (n - 48)%Z else None.

Fixpoint digits (acc : Z) (s : string) : option Z :=
  match s with
  | EmptyString => Some acc
  | String c s' =>
      match digit_of c with
      | Some d => digits (acc * 10 + d)%Z s'
      | None => None
      end
  end.

Definition max_int : Z := 9223372036854775807.
Definition min_int : Z := -9223372036854775808.

(** The decimal value of an optionally signed digit string, unbounded;
    [None] is a syntax error. *)
Definition parse_decimal (s : string) : option Z :=
  match s with
  | EmptyString => None
  | String c rest =>
      if Ascii.eqb c "-"%char then
        match rest with
        | EmptyString => None
        | _ => v ← digits 0 rest; Some (- v)%Z
        end
      else if Ascii.eqb c "+"%char then
        match rest with
        | EmptyString => None
        | _ => digits 0 rest
        end
      else digits 0 s
  end.

Definition max_uint : Z := 18446744073709551615.

Inductive num_error : Type := ErrSyntax | ErrRange.

(** The digit loop of [ParseUint(s, 10, 64)], with [n] read so far.  The
    bytes are taken in order: one that is no digit ends the loop with a
    syntax error and 0, a digit that takes the value over 64 bits ends it
    with a range error and the largest value, whatever follows. *)
Fixpoint parse_uint (n : Z) (s : string) : Z * option num_error :=
  match s with
  | EmptyString => (n, None)
  | String c s' =>
      match digit_of c with
      | None => (0%Z, Some ErrSyntax)
      | Some d =>
          if (max_uint / 10 + 1 <=? n)%Z then (max_uint, Some ErrRange)
          else
            let n1 := (n * 10 + d)%Z in
            if (max_uint <? n1)%Z then (max_uint, Some ErrRange)
            else parse_uint n1 s'
      end
  end.

Definition ParseUint (s : string) : Z * option num_error :=
  match s with
  | EmptyString => (0%Z, Some ErrSyntax)
  | _ => parse_uint 0 s
  end.

(** [ParseInt(s, 10, 0)]: a range error of [ParseUint] is not returned at
    once, the value it comes with is clamped to the 64-bit [int]. *)
Definition ParseInt (s : string) : Z * option num_error :=
  match s with
  | EmptyString => (0%Z, Some ErrSyntax)
  | String c rest =>
      let neg := Ascii.eqb c "-"%char in
      let body := if Ascii.eqb c "+"%char || neg then rest else s in
      match ParseUint body with
      | (_, Some ErrSyntax) => (0%Z, Some ErrSyntax)
      | (un, _) =>
          let cutoff := (2 ^ 63)%Z in
          if negb neg && (cutoff <=? un)%Z then ((cutoff - 1)%Z, Some ErrRange)
          else if neg && (cutoff <? un)%Z then ((- cutoff)%Z, Some ErrRange)
          else ((if neg then - un else un)%Z, None)
      end
  end.

(** [Atoi]: the value and whether the error is nil.  Short strings take a
    fast path in the library that gives what [ParseInt] gives.  A syntax
    error gives 0; a value outside the 64-bit [int] gives the nearest
    bound, also when a byte that is no digit follows the overflowing
    digit; there is an error in both cases. *)
Definition Atoi (s : string) : Z * bool :=
  match ParseInt s with
  | (v, None) => (v, true)
  | (v, Some _) => (v, false)
  end.

(** The conversion [uint64(n)] of an [int]. *)
Definition to_uint64 (n : Z) : Z := (n mod 2 ^ 64)%Z.

End Strconv.

(* ===================================================================== *)
(** ** overlaybd/config: the layer-stack descriptor *)
(* ===================================================================== *)

Module Config.

Definition gzipIndexFile : string := "gzip.meta".
Definition ext4FSMetaFile : string := "ext4.fs.meta".
Definition configFile : string := "config.v1.json".
Definition dataFile : string := ".data_file".
Definition idxFile : string := ".data_index".
Definition labelTurboOCIDigest : string :=
  "containerd.io/snapshot/overlaybd/turbo-oci/target-digest".
Definition labelTurboOCIMediaType : string :=
  "containerd.io/snapshot/overlaybd/turbo-oci/target-media-type".
Definition overlaybdBaseLayerDir : string := "/opt/overlaybd/baselayers".
Definition overlaybdBaseLayer : string := "/opt/overlaybd/baselayers/.commit".
Definition labelImageRef : string := "containerd.io/snapshot/cri.image-ref".

(** The two gzip layer media types ([ocispec.MediaTypeImageLayerGzip],
    [images.MediaTypeDockerSchema2LayerGzip]). *)
Definition MediaTypeImageLayerGzip : string :=
  "application/vnd.oci.image.layer.v1.tar+gzip".
Definition MediaTypeDockerSchema2LayerGzip : string :=
  "application/vnd.docker.image.rootfs.diff.tar.gzip".

Record LowerConfig : Type :=
  { File : string; Digest : string; Size : Z; Dir : string;
    LRepoBlobURL : string; TargetDigest : string; TargetFile : string;
    GzipIndex : string }.

Record UpperConfig : Type := { Index : string; Data : string }.

Record Config : Type :=
  { ImageRef : string; RepoBlobURL : string; Lowers : list LowerConfig;
    Upper : UpperConfig; ResultFile : string; AccelerationLayer : bool;
    RecordTracePath : string; Proxy : string }.

Definition emptyLower : LowerConfig :=
  {| File := ""; Digest := ""; Size := 0; Dir := ""; LRepoBlobURL := "";
     TargetDigest := ""; TargetFile := ""; GzipIndex := "" |}.

Definition emptyUpper : UpperConfig := {| Index := ""; Data := "" |}.

(** The descriptors on disk: the paths that hold a readable descriptor.  A
    path that is missing, unreadable or not a JSON descriptor has no
    entry. *)
Abbreviation disk := (gmap string Config).

(** What the configuration code needs from outside: the image reference
    parser of the [reference] package, giving host name and locator, and
    the outcome of the atomic file write at a path. *)
Record world : Type :=
  { parse_ref : string -> option (string * string);
    atomic_write : string -> option error }.

(** [WriteConfig]: marshal and commit atomically. *)
Definition WriteConfig (w : world) (d : disk) (c : Config) (targetPath : string)
  : option error * disk :=
  match atomic_write w targetPath with
  | Some e =>
      (Some (ErrWrap ("failed to commit the overlaybd config on " ++ targetPath) e), d)
  | None => (None, <[targetPath := c]> d)
  end.

(** [ReadConfig]. *)
Definition ReadConfig (d : disk) (targetPath : string) : error + Config :=
  match d !! targetPath with
  | Some c => inr c
  | None =>
      inl (ErrWrap ("failed to read config file " ++ targetPath) (ErrSys "read"))
  end.

Definition OverlaybdInitDebuglogPath (dir : string) : string :=
  GoPath.Join [dir; "init-debug.log"].

Definition OverlaybdConfPath (dir : string) : string :=
  GoPath.Join [dir; configFile].

(** [constructImageBlobURL]. *)
Definition constructImageBlobURL (w : world) (ref : string) : error + string :=
  match parse_ref w ref with
  | None => inl (ErrWrap ("invalid repo url " ++ ref) (ErrSys "reference.Parse"))
  | Some (host, locator) =>
      let repo := GoPath.TrimPrefix locator (host ++ "/") in
      inr ("https://" +:+ GoPath.Join [host; "v2"; repo] +:+ "/blobs")
  end.

Definition isGzipLayer (mediaType : string) : bool :=
  String.eqb mediaType MediaTypeImageLayerGzip
  || String.eqb mediaType MediaTypeDockerSchema2LayerGzip.

Definition newConfig (snDir : string) : Config :=
  {| ImageRef := ""; RepoBlobURL := ""; Lowers := [];
     Upper := emptyUpper; ResultFile := OverlaybdInitDebuglogPath snDir;
     AccelerationLayer := false; RecordTracePath := ""; Proxy := "" |}.

Definition with_lowers (c : Config) (ls : list LowerConfig) : Config :=
  {| ImageRef := ImageRef c; RepoBlobURL := RepoBlobURL c; Lowers := ls;
     Upper := Upper c; ResultFile := ResultFile c;
     AccelerationLayer := AccelerationLayer c;
     RecordTracePath := RecordTracePath c; Proxy := Proxy c |}.

Definition with_repo (c : Config) (u : string) : Config :=
  {| ImageRef := ImageRef c; RepoBlobURL := u; Lowers := Lowers c;
     Upper := Upper c; ResultFile := ResultFile c;
     AccelerationLayer := AccelerationLayer c;
     RecordTracePath := RecordTracePath c; Proxy := Proxy c |}.

Definition with_ref (c : Config) (r : string) : Config :=
  {| ImageRef := r; RepoBlobURL := RepoBlobURL c; Lowers := Lowers c;
     Upper := Upper c; ResultFile := ResultFile c;
     AccelerationLayer := AccelerationLayer c;
     RecordTracePath := RecordTracePath c; Proxy := Proxy c |}.

Definition with_upper (c : Config) (u : UpperConfig) : Config :=
  {| ImageRef := ImageRef c; RepoBlobURL := RepoBlobURL c; Lowers := Lowers c;
     Upper := u; ResultFile := ResultFile c;
     AccelerationLayer := AccelerationLayer c;
     RecordTracePath := RecordTracePath c; Proxy := Proxy c |}.

(** The descriptor [ConstructTurboOCISpec] builds, before it is written. *)
Definition turboSpec (w : world) (d : disk) (parent : string)
           (labels : gmap string string) (snDir parentDir : string)
  : error + Config :=
  let configJSON := newConfig snDir in
  let inherited : error + Config :=
    if GoPath.nonempty parent then
      match ReadConfig d (GoPath.Join [parentDir; configFile]) with
      | inl e => inl e
      | inr p => inr (with_lowers (with_repo configJSON (RepoBlobURL p)) (Lowers p))
      end
    else
      match labels !! labelImageRef with
      | None => inl (ErrMsg "no image-ref label")
      | Some ref =>
          match constructImageBlobURL w ref with
          | inl e =>
              inl (ErrWrap "failed to construct image blob prefix url for snapshot" e)
          | inr blobPrefixURL => inr (with_repo (with_ref configJSON ref) blobPrefixURL)
          end
      end in
  match inherited with
  | inl e => inl e
  | inr c =>
      let lower :=
        {| File := GoPath.Join [snDir; ext4FSMetaFile]; Digest := ""; Size := 0;
           Dir := snDir; LRepoBlobURL := "";
           TargetDigest := label_or_empty labels labelTurboOCIDigest;
           TargetFile := "";
           GzipIndex :=
             if isGzipLayer (label_or_empty labels labelTurboOCIMediaType)
             then GoPath.Join [snDir; gzipIndexFile] else "" |} in
      inr (with_lowers c (Lowers c ++ [lower]))
  end.

(** [ConstructTurboOCISpec]. *)
Definition ConstructTurboOCISpec (w : world) (d : disk) (parent : string)
           (labels : gmap string string)
           (snDir parentDir blobDigest blobSize : string)
  : option error * disk :=
  match turboSpec w d parent labels snDir parentDir with
  | inl e => (Some e, d)
  | inr c => WriteConfig w d c (GoPath.Join [snDir; configFile])
  end.

(** The descriptor [ConstructOverlayBDSpec] builds, before it is written. *)
Definition plainSpec (w : world) (d : disk) (parent : string)
           (labels : gmap string string)
           (snDir parentDir blobDigest blobSize : string)
  : error + Config :=
  let configJSON := newConfig snDir in
  match labels !! labelImageRef with
  | None => inl (ErrMsg "no image-ref label")
  | Some ref =>
      match constructImageBlobURL w ref with
      | inl e =>
          inl (ErrWrap "failed to construct image blob prefix url for snapshot" e)
      | inr blobPrefixURL =>
          let configJSON := with_repo configJSON blobPrefixURL in
          let inherited : error + Config :=
            if negb (GoPath.nonempty parent) then
              inr (with_lowers configJSON
                     (Lowers configJSON
                      ++ [ {| File := ""; Digest := ""; Size := 0;
                              Dir := overlaybdBaseLayerDir; LRepoBlobURL := "";
                              TargetDigest := ""; TargetFile := "";
                              GzipIndex := "" |} ]))
            else
              match ReadConfig d (GoPath.Join [parentDir; configFile]) with
              | inl e => inl e
              | inr p =>
                  let c :=
                    if negb (GoPath.nonempty blobPrefixURL)
                    then with_repo configJSON (RepoBlobURL p) else configJSON in
                  inr (with_lowers c (Lowers p))
              end in
          match inherited with
          | inl e => inl e
          | inr c =>
              let c := with_ref c ref in
              let size := fst (Strconv.Atoi blobSize) in
              let layerConfig :=
                {| File := ""; Digest := blobDigest;
                   Size := Strconv.to_uint64 size; Dir := snDir;
                   LRepoBlobURL := ""; TargetDigest := ""; TargetFile := "";
                   GzipIndex := "" |} in
              inr (with_lowers c (Lowers c ++ [layerConfig]))
          end
      end
  end.

(** [ConstructOverlayBDSpec]. *)
Definition ConstructOverlayBDSpec (w : world) (d : disk) (parent : string)
           (labels : gmap string string)
           (snDir parentDir blobDigest blobSize : string)
  : option error * disk :=
  match plainSpec w d parent labels snDir parentDir blobDigest blobSize with
  | inl e => (Some e, d)
  | inr c => WriteConfig w d c (GoPath.Join [snDir; configFile])
  end.

(** [ConstructOverlayBDWritableSpec]. *)
Definition ConstructOverlayBDWritableSpec (w : world) (d : disk)
           (dir parent : string) : option error * disk :=
  let configJSON := newConfig dir in
  match ReadConfig d (GoPath.Join [parent; configFile]) with
  | inl e => (Some e, d)
  | inr p =>
      let c := with_lowers (with_repo configJSON (RepoBlobURL p)) (Lowers p) in
      let c := with_upper c {| Index := GoPath.PJoin [dir; idxFile];
                               Data := GoPath.PJoin [dir; dataFile] |} in
      WriteConfig w d c (GoPath.Join [dir; configFile])
  end.

End Config.

(* ===================================================================== *)
(** ** mount descriptors *)
(* ===================================================================== *)

Module Mount.

(** [mount.Mount]. *)
Record Mount : Type :=
  { Type_ : string; Source : string; Options : list string }.

End Mount.

(** The three ways a Go call ends: a value, a non-nil [error], a panic. *)
Inductive outcome (A : Type) : Type :=
| Ok (a : A)
| Err (e : error)
| Panic (msg : string).
Arguments Ok {A} a.
Arguments Err {A} e.
Arguments Panic {A} msg.

Definition is_err {A : Type} (r : outcome A) : bool :=
  match r with Err _ => true | _ => false end.

Definition is_ok {A : Type} (r : outcome A) : bool :=
  match r with Ok _ => true | _ => false end.

(* ===================================================================== *)
(** ** Function bodies with deferred calls *)
(* ===================================================================== *)

(** A function body that registers deferred calls, over a state [St].  The
    state is paired with the stack of deferred clean-ups, the latest on top.
    The deferred functions modelled this way are all guarded by a test that
    the function's error is non-nil, so the stack runs, top first, exactly
    when the body returns an error; after a value or a panic the guards are
    false and nothing is undone. *)
Module Defer.
Section WithState.

Context {St : Type}.

Definition cleanup : Type := St -> St.
Definition body (A : Type) : Type :=
  St * list cleanup -> outcome A * (St * list cleanup).

Definition ret {A : Type} (a : A) : body A := fun s => (Ok a, s).
Definition fail {A : Type} (e : error) : body A := fun s => (Err e, s).
Definition panic {A : Type} (msg : string) : body A := fun s => (Panic msg, s).

Definition bind {A B : Type} (m : body A) (k : A -> body B) : body B :=
  fun s =>
    match m s with
    | (Ok a, s') => k a s'
    | (Err e, s') => (Err e, s')
    | (Panic msg, s') => (Panic msg, s')
    end.

Definition defer (c : cleanup) : body unit :=
  fun s => (Ok tt, (fst s, c :: snd s)).

(** A fallible operation on the state; its error is wrapped and
    returned. *)
Definition try (f : St -> option error * St) (wrap : error -> error)
  : body unit :=
  fun s =>
    match f (fst s) with
    | (None, h') => (Ok tt, (h', snd s))
    | (Some e, h') => (Err (wrap e), (h', snd s))
    end.

(** An operation that yields a value or an error. *)
Definition call {A : Type} (f : St -> outcome A * St) : body A :=
  fun s => match f (fst s) with (r, h') => (r, (h', snd s)) end.

(** An infallible operation. *)
Definition lift (f : St -> St) : body unit :=
  fun s => (Ok tt, (f (fst s), snd s)).

Definition run_deferred (ds : list cleanup) (h : St) : St :=
  fold_left (fun h' d => d h') ds h.

Definition run {A : Type} (m : body A) (h : St) : outcome A * St :=
  match m (h, []) with
  | (Err e, (h', ds)) => (Err e, run_deferred ds h')
  | (r, (h', _)) => (r, h')
  end.

End WithState.
End Defer.

Notation "'let*' x ':=' c1 'in' c2" := (Defer.bind c1 (fun x => c2))
  (at level 10, x pattern, c1 at level 100, c2 at level 200).
Notation "c1 >>> c2" := (Defer.bind c1 (fun _ => c2))
  (at level 100, c2 at level 200, right associativity).

(* ===================================================================== *)
(** ** overlaybd: the read-only layer driver *)
(* ===================================================================== *)

Module Overlaybd.

(** *** Constants *)

Definition Root : string := "/opt/overlaybd".
Definition ServiceBinary : string := Root +:+ "/bin/overlaybd-service".
Definition ConverterRoot : string := Root +:+ "/convert".
Definition ConverterBinary : string := ConverterRoot +:+ "/bin/turboOCI-apply".
Definition ConverterMergeBinary : string :=
  ConverterRoot +:+ "/bin/overlaybd-convert-acs".
Definition BaseLayer : string := Root +:+ "/baselayers/.commit".

Definition obdLoopNaaPrefix : Z := 199.
Definition obdHbaNum : Z := 999999999.
Definition obdMaxDataAreaMB : Z := 4.
Definition timeout : Z := 20.
Definition maxAttachAttempts : nat := 400.

Definition lowerFile : string := "device".
Definition tmpTarIndex : string := "layer.tar.meta".
Definition dataFile : string := ".data_file".
Definition idxFile : string := ".data_index".
Definition labelSnapshotRef : string := "containerd.io/snapshot.ref".
Definition labelKeyOverlayBDBlobDigest : string :=
  "containerd.io/snapshot/overlaybd/blob-digest".
Definition labelKeyOverlayBDBlobSize : string :=
  "containerd.io/snapshot/overlaybd/blob-size".
Definition labelTurboOCIDigest : string :=
  "containerd.io/snapshot/overlaybd/turbo-oci/target-digest".
Definition labelTurboOCIMediaType : string :=
  "containerd.io/snapshot/overlaybd/turbo-oci/target-media-type".
Definition overlaybdCreateBinary : string := "/opt/overlaybd/bin/overlaybd-create".

Definition SIGINT : Z := 2.
Definition SIGUSR2 : Z := 12.
Definition MaxInt32 : Z := 2147483647.

(** *** Names derived from the layer id *)

(** [strings.Repeat], which panics on a negative count. *)
Definition Repeat (s : string) (count : Z) : option string :=
  if (count <? 0)%Z then None
  else Some (String.concat "" (repeat s (Z.to_nat count))).

Definition overlaybdLoopbackDeviceID (id : string) : option string :=
  paddings ← Repeat "0" (13 - Z.of_nat (String.length id));
  Some ("naa." +:+ pretty obdLoopNaaPrefix +:+ paddings +:+ id).

Definition overlaybdLoopbackDeviceLunPath (id : string) : string :=
  "/sys/kernel/config/target/loopback/" +:+ id +:+ "/tpgt_1/lun/lun_0".

Definition overlaybdLoopbackDevicePath (id : string) : string :=
  "/sys/kernel/config/target/loopback/" +:+ id.

Definition overlaybdTargetPath (id : string) : string :=
  "/sys/kernel/config/target/core/user_" +:+ pretty obdHbaNum +:+ "/dev_" +:+ id.

Definition scsiBlockDevicePath (deviceNumber : string) : string :=
  "/sys/class/scsi_device/" +:+ deviceNumber +:+ ":0/device/block".

(** *** The host the driver acts on *)

Inductive event : Type :=
| EvWrite (path data : string)
| EvExec (bin : string) (args : list string)
| EvSignal (snID : string) (sig : Z)
| EvSleepUs (us : Z).

(** [paths]: the directories, files and links that exist; [cfgs]: the
    readable descriptors; [procs]: the layer ids for which a service
    process (command line [overlaybd-service <id>]) is running;
    [journal]: what the driver did, oldest first. *)
Record host : Type :=
  { paths : gset string; cfgs : Config.disk; procs : gset string;
    journal : list event }.

Inductive write_outcome : Type := WOk | WAgain | WFail (e : error).

(** The outcomes the host hands back.  [mkdir] is one [mkdir(2)] of a
    missing directory; [write_enable n] the [n]-th write of the enable
    file; [read_debuglog n] the [n]-th read of the readiness file;
    [readdir n] the [n]-th listing of the SCSI block directory;
    [service_spawns]: whether a successful enable leaves a service
    process running; [exit_polls id]: the poll at which the service for
    [id] is gone after a signal, if ever. *)
Record env : Type :=
  { cfg_world : Config.world;
    mkdir : string -> option error;
    removeall : string -> option error;
    write_file : string -> string -> option error;
    write_enable : nat -> write_outcome;
    service_spawns : bool;
    read_debuglog : nat -> error + string;
    symlink : string -> string -> option error;
    read_address : error + string;
    readdir : nat -> error + list string;
    exec : string -> list string -> option error;
    exit_polls : string -> option nat }.

Definition set_paths (h : host) (ps : gset string) : host :=
  {| paths := ps; cfgs := cfgs h; procs := procs h; journal := journal h |}.
Definition set_cfgs (h : host) (d : Config.disk) : host :=
  {| paths := paths h; cfgs := d; procs := procs h; journal := journal h |}.
Definition set_procs (h : host) (ps : gset string) : host :=
  {| paths := paths h; cfgs := cfgs h; procs := ps; journal := journal h |}.
Definition record (ev : event) (h : host) : host :=
  {| paths := paths h; cfgs := cfgs h; procs := procs h;
     journal := journal h ++ [ev] |}.

Definition exists_path (h : host) (p : string) : bool :=
  bool_decide (p ∈ paths h).

(** The path and its ancestors below the root, outermost first. *)
Fixpoint prefixes (pre : string) (cs : list string) : list string :=
  match cs with
  | [] => []
  | c :: rest =>
      if GoPath.nonempty c
      then let p := pre +:+ "/" +:+ c in p :: prefixes p rest
      else prefixes pre rest
  end.

Definition ancestors (p : string) : list string :=
  prefixes "" (GoPath.split_slash (GoPath.Clean p)).

Fixpoint mkdir_chain (e : env) (ps : list string) (h : host)
  : option error * host :=
  match ps with
  | [] => (None, h)
  | p :: rest =>
      if exists_path h p then mkdir_chain e rest h
      else match mkdir e p with
           | Some err => (Some err, h)
           | None => mkdir_chain e rest (set_paths h ({[p]} ∪ paths h))
           end
  end.

(** [os.MkdirAll]: the missing ancestors are made from the outside in;
    the first failure stops it and what was made stays. *)
Definition MkdirAll (e : env) (p : string) (h : host) : option error * host :=
  mkdir_chain e (ancestors p) h.

(** [q] is [p] or lies below it. *)
Definition under (p q : string) : bool :=
  String.eqb q p || GoPath.HasPrefix q (p +:+ "/").

(** [os.RemoveAll]: the path and all below it go; a missing path is not
    an error. *)
Definition RemoveAll (e : env) (p : string) (h : host) : option error * host :=
  match removeall e p with
  | Some err => (Some err, h)
  | None => (None, set_paths h (filter (fun q => under p q = false) (paths h)))
  end.

(** [ioutil.WriteFile]. *)
Definition WriteFile (e : env) (p data : string) (h : host)
  : option error * host :=
  match write_file e p data with
  | Some err => (Some err, h)
  | None => (None, record (EvWrite p data) (set_paths h ({[p]} ∪ paths h)))
  end.

(** [os.Symlink]. *)
Definition Symlink (e : env) (target link : string) (h : host)
  : option error * host :=
  match symlink e target link with
  | Some err => (Some err, h)
  | None => (None, set_paths h ({[link]} ∪ paths h))
  end.

Definition sleep_us (us : Z) (h : host) : host := record (EvSleepUs us) h.

(** *** killProcess *)

(** The three pipelines [killProcess] hands to [/bin/bash -c]: the lookup
    of the service's pid, the kill, and the count of matching processes. *)
Definition psService (id : string) : string :=
  "ps -ef | grep -v grep | grep -w 'overlaybd-service " +:+ id +:+ "' ".

Definition lookupCmd (id : string) : string :=
  psService id +:+ " | awk '{print $2}' ".

Definition killCmd (id : string) (signal : Z) : string :=
  psService id +:+ " | awk '{print $2}' | xargs kill -s " +:+ pretty signal.

Definition countCmd (id : string) : string :=
  psService id +:+ "|  wc -l".

(** [exec.Command("/bin/bash", "-c", cmdLine).CombinedOutput()]. *)
Definition bash (cmdLine : string) (h : host) : host :=
  record (EvExec "/bin/bash" ["-c"; cmdLine]) h.

(** One round of the wait that finds the service still there: the count,
    then 20 µs of sleep. *)
Definition poll_service (id : string) (h : host) : host :=
  sleep_us 20 (bash (countCmd id) h).

(** The process table is searched for [overlaybd-service <id>]; when
    nothing matches nothing is sent.  Otherwise the kill pipeline runs,
    which sends the signal, and, unless it is SIGUSR2, the table is polled
    up to 500 times at 20 µs until no match is left. *)
Definition killProcess (e : env) (id : string) (signal : Z) (h : host)
  : option error * host :=
  let h := bash (lookupCmd id) h in
  if negb (bool_decide (id ∈ procs h)) then (None, h)
  else
    let h := record (EvSignal id signal) (bash (killCmd id signal) h) in
    if (signal =? SIGUSR2)%Z then (None, h)
    else
      match exit_polls e id with
      | Some n =>
          if (n <? 500)%nat
          then (None, set_procs (bash (countCmd id) (Nat.iter n (poll_service id) h))
                        (procs h ∖ {[id]}))
          else (Some (ErrMsg ("timeout killing overlaybd process for snID: " +:+ id)),
                Nat.iter 500 (poll_service id) h)
      | None =>
          (Some (ErrMsg ("timeout killing overlaybd process for snID: " +:+ id)),
           Nat.iter 500 (poll_service id) h)
      end.

Import Defer.

(** *** The polling loops of the attach *)

(** The enable loop: up to [fuel] writes of [1] to the enable file, 50 ms
    apart while the answer is EAGAIN.  [inl e] is the immediate return on
    any other failure; [inr err] is the value of [err] when the loop is
    left ([None] after a successful write, the last EAGAIN otherwise). *)
Fixpoint enableLoop (e : env) (snID targetPath : string) (fuel retry : nat)
         (err : option error) (h : host) : (error + option error) * host :=
  match fuel with
  | O => (inr err, h)
  | S fuel' =>
      match write_enable e retry with
      | WOk =>
          let h := record (EvWrite (GoPath.PJoin [targetPath; "enable"]) "1") h in
          let h := if service_spawns e
                   then set_procs h ({[snID]} ∪ procs h) else h in
          (inr None, h)
      | WAgain =>
          enableLoop e snID targetPath fuel' (S retry)
            (Some (ErrSys "EAGAIN")) (sleep_us 50000 h)
      | WFail werr =>
          (inl (ErrWrap ("failed to write enable for " +:+ targetPath) werr), h)
      end
  end.

Definition retryTimes : nat := Z.to_nat (timeout * 1000 / 20).

(** The readiness loop: the debug-log file is read up to [fuel] times.  An
    unreadable file costs a 20 ms sleep and another round; the content
    [success] ends the wait; any other content that could be read is
    returned at once as the error text.  [None] means ready. *)
Fixpoint waitReady (e : env) (targetPath : string) (fuel retry : nat)
         (err : error) (h : host) : option error * host :=
  match fuel with
  | O => (Some (ErrWrap ("failed to enable target for " +:+ targetPath) err), h)
  | S fuel' =>
      match read_debuglog e retry with
      | inl derr =>
          waitReady e targetPath fuel' (S retry) derr (sleep_us 20000 h)
      | inr data =>
          if String.eqb data "success" then (None, h)
          else (Some (ErrMsg ("failed to enable target for " +:+ targetPath
                                +:+ ": " +:+ data)), h)
      end
  end.

(** The verdict of the readiness wait on a content that could be read. *)
Definition verdict (targetPath data : string) : option error :=
  if String.eqb data "success" then None
  else Some (ErrMsg ("failed to enable target for " +:+ targetPath
                       +:+ ": " +:+ data)).

(** The device probe: the SCSI block directory is listed up to [fuel]
    times, 5 ms apart, until it has an entry. *)
Fixpoint probeLoop (e : env) (fuel retry : nat) (lastErr : option error)
         (h : host) : outcome string * host :=
  match fuel with
  | O => match lastErr with
         | Some err => (Err err, h)
         | None => (Ok EmptyString, h)
         end
  | S fuel' =>
      match readdir e retry with
      | inl err => probeLoop e fuel' (S retry) (Some err) (sleep_us 5000 h)
      | inr [] =>
          probeLoop e fuel' (S retry) (Some (ErrMsg "empty device found"))
            (sleep_us 5000 h)
      | inr (dev :: _) => (Ok ("/dev/" +:+ dev), h)
      end
  end.

(** [strings.TrimSuffix]. *)
Definition TrimSuffix (s suffix : string) : string :=
  let rs := rev (list_ascii_of_string s) in
  let rsuf := list_ascii_of_string
                (string_of_list_ascii (rev (list_ascii_of_string suffix))) in
  if GoPath.HasPrefix (string_of_list_ascii rs) (string_of_list_ascii rsuf)
  then string_of_list_ascii (rev (drop (length rsuf) rs))
  else s.

Definition newline : string := String (ascii_of_nat 10) EmptyString.

(** *** doOverlayBD: the attach *)

Definition doOverlayBD_body (e : env) (snDir snID : string)
  : body (St := host) string :=
  let targetPath := overlaybdTargetPath snID in
  try (MkdirAll e targetPath)
      (ErrWrap ("failed to create target dir for " +:+ targetPath)) >>>
  defer (fun h => snd (RemoveAll e targetPath h)) >>>
  try (WriteFile e (GoPath.PJoin [targetPath; "control"])
         ("dev_config=overlaybd/" +:+ Config.OverlaybdConfPath snDir
            +:+ ";" +:+ snID))
      (ErrWrap ("failed to write target dev_config for " +:+ targetPath)) >>>
  try (WriteFile e (GoPath.PJoin [targetPath; "control"])
         ("max_data_area_mb=" +:+ pretty obdMaxDataAreaMB))
      (ErrWrap ("failed to write target max_data_area_mb for " +:+ targetPath)) >>>
  let debugLogPath := Config.OverlaybdInitDebuglogPath snDir in
  try (RemoveAll e debugLogPath)
      (ErrWrap ("failed to remote result file for " +:+ targetPath)) >>>
  let* enabled :=
    (fun s => match enableLoop e snID targetPath 100 0 None (fst s) with
              | (inl err, h') => (Err err, (h', snd s))
              | (inr err, h') => (Ok err, (h', snd s))
              end) in
  defer (fun h => snd (killProcess e snID SIGINT h)) >>>
  match enabled with
  | Some err => fail (ErrWrap ("failed to write enable for " +:+ targetPath) err)
  | None => ret tt
  end >>>
  try (WriteFile e (GoPath.PJoin [targetPath; "attrib"; "cmd_time_out"])
         (pretty (MaxInt32 / 1000)%Z))
      (ErrWrap "failed to update cmd_time_out") >>>
  try (waitReady e targetPath retryTimes 0 (ErrMsg "timeout")) (fun err => err) >>>
  match overlaybdLoopbackDeviceID snID with
  | None => panic "strings: negative Repeat count"
  | Some loopDevID =>
      let loopDevPath := overlaybdLoopbackDevicePath loopDevID in
      try (MkdirAll e loopDevPath)
          (ErrWrap ("failed to create loopback dir " +:+ loopDevPath)) >>>
      let tpgtPath := GoPath.PJoin [loopDevPath; "tpgt_1"] in
      let lunPath := overlaybdLoopbackDeviceLunPath loopDevID in
      try (MkdirAll e lunPath)
          (ErrWrap ("failed to create loopback lun dir " +:+ lunPath)) >>>
      defer (fun h =>
               let h := snd (RemoveAll e lunPath h) in
               let h := snd (RemoveAll e tpgtPath h) in
               snd (RemoveAll e loopDevPath h)) >>>
      let nexusPath := GoPath.PJoin [tpgtPath; "nexus"] in
      try (WriteFile e nexusPath loopDevID)
          (ErrWrap ("failed to write loopback nexus " +:+ nexusPath)) >>>
      let linkPath := GoPath.PJoin [lunPath; "dev_" +:+ snID] in
      try (Symlink e targetPath linkPath)
          (ErrWrap ("failed to create loopback link " +:+ linkPath)) >>>
      defer (fun h => snd (RemoveAll e linkPath h)) >>>
      let devAddressPath := GoPath.PJoin [tpgtPath; "address"] in
      match read_address e with
      | inl err =>
          fail (ErrWrap ("failed to read loopback address for " +:+ devAddressPath) err)
      | inr bytes =>
          let deviceNumber := TrimSuffix bytes newline in
          fun s => match probeLoop e maxAttachAttempts 0 None (fst s) with
                   | (r, h') => (r, (h', snd s))
                   end
      end
  end.

Definition doOverlayBD (e : env) (snDir snID : string) (h : host)
  : outcome string * host :=
  run (doOverlayBD_body e snDir snID) h.

(** *** PreProcess *)

(** [PreProcess]: the pair is [(skipFetch, err)]. *)
Definition PreProcess (e : env) (keyDir parentDir parent : string)
           (labels : gmap string string) (h : host)
  : (bool * option error) * host :=
  match labels !! labelKeyOverlayBDBlobSize,
        labels !! labelKeyOverlayBDBlobDigest with
  | Some blobSize, Some blobDigest =>
      if has_label labels labelTurboOCIDigest then
        match Config.ConstructTurboOCISpec (cfg_world e) (cfgs h) parent labels
                keyDir parentDir blobDigest blobSize with
        | (Some err, d) => ((false, Some err), set_cfgs h d)
        | (None, d) => ((false, None), set_cfgs h d)
        end
      else
        match Config.ConstructOverlayBDSpec (cfg_world e) (cfgs h) parent labels
                keyDir parentDir blobDigest blobSize with
        | (Some err, d) => ((false, Some err), set_cfgs h d)
        | (None, d) => ((true, None), set_cfgs h d)
        end
  | _, _ => ((false, None), h)
  end.

(** *** ActiveMount *)

(** The first loop of [ActiveMount]: each parent path is replaced, in
    place, by the path of its [layer.tar.meta]; the loop stops at the
    first one that cannot be stat'ed.  The result is [localConverted] and
    the slice as the loop leaves it. *)
Fixpoint statParents (h : host) (parentPaths : list string)
  : bool * list string :=
  match parentPaths with
  | [] => (true, [])
  | p :: rest =>
      let p' := GoPath.Join [p; tmpTarIndex] in
      if exists_path h p'
      then let r := statParents h rest in (fst r, p' :: snd r)
      else (false, p' :: rest)
  end.

(** The argument list of the merge converter: [--workdir] first, then
    each parent's pair put in front of what is there. *)
Definition mergeArgs (snDir : string) (parentPaths : list string)
  : list string :=
  fold_left (fun args parentPath => ["--meta"; parentPath] ++ args)
            parentPaths ["--workdir"; GoPath.Join [snDir; "tmp"]].

(** [exec.Command(bin, args...)] run to completion. *)
Definition Exec (e : env) (bin : string) (args : list string) (h : host)
  : option error * host :=
  (exec e bin args, record (EvExec bin args) h).

Definition overlaybdCreate (e : env) (snDir : string) (h : host)
  : option error * host :=
  let str := overlaybdCreateBinary +:+ " -s "
               +:+ GoPath.Join [snDir; dataFile] +:+ " "
               +:+ GoPath.Join [snDir; idxFile] +:+ " 256 " in
  match Exec e "/bin/bash" ["-c"; str] h with
  | (Some err, h') => (Some (ErrWrap "overlaybd-create failed. output" err), h')
  | (None, h') => (None, h')
  end.

(** Steps 1 to 5 of [ActiveMount]: create the sparse upper, write the
    writable descriptor, attach, record the device, return its mount. *)
Definition attachSteps (e : env) (snDir id parentDir : string) (h : host)
  : outcome (list Mount.Mount) * host :=
  match overlaybdCreate e snDir h with
  | (Some err, h) => (Err (ErrWrap "overlaybd-create failed" err), h)
  | (None, h) =>
      match Config.ConstructOverlayBDWritableSpec (cfg_world e) (cfgs h)
              snDir parentDir with
      | (Some err, d) =>
          (Err (ErrWrap "construct overlaybd writable spec failed" err),
           set_cfgs h d)
      | (None, d) =>
          match doOverlayBD e snDir id (set_cfgs h d) with
          | (Err err, h) =>
              (Err (ErrWrap "construct overlaybd debug log path failed" err), h)
          | (Panic msg, h) => (Panic msg, h)
          | (Ok dev, h) =>
              match WriteFile e (GoPath.Join [snDir; lowerFile]) dev h with
              | (Some err, h) => (Err err, h)
              | (None, h) =>
                  (Ok [ {| Mount.Type_ := "ext4"; Mount.Source := dev;
                           Mount.Options := ["ro"] |} ], h)
              end
          end
      end
  end.

(** [ActiveMount]: step 0, the merge of the parents' [layer.tar.meta]
    when every parent has one, then the steps above. *)
Definition ActiveMount (e : env) (snDir id parentDir : string)
           (parentPaths : list string) (h : host)
  : outcome (list Mount.Mount) * host :=
  let sp := statParents h parentPaths in
  let merged : option error * host :=
    if fst sp then
      match Exec e ConverterMergeBinary (mergeArgs snDir (snd sp)) h with
      | (Some err, h') => (Some (ErrWrap "failed to merge image file" err), h')
      | (None, h') => (None, h')
      end
    else (None, h) in
  match merged with
  | (Some err, h) => (Err err, h)
  | (None, h) => attachSteps e snDir id parentDir h
  end.

(** *** PrepareMount, Commit, Cleanup *)

Definition PrepareMount (keyDir : string) (h : host)
  : outcome (list Mount.Mount) :=
  if exists_path h keyDir
  then Ok [ {| Mount.Type_ := "bind"; Mount.Source := keyDir;
               Mount.Options := ["rbind"; "rw"] |} ]
  else Err (ErrWrap "error stating keyDir" (ErrSys "ENOENT")).

Definition Commit (e : env) (keyDir : string) (h : host)
  : option error * host :=
  let tarFile := GoPath.Join [keyDir; Archive.TarFileName] in
  let tmpTarFile := GoPath.Join [keyDir; tmpTarIndex] in
  if negb (exists_path h tarFile) then (None, h)
  else
    match Exec e ConverterBinary [tarFile; tmpTarFile; "--export"] h with
    | (Some err, h') =>
        (Some (ErrWrap "failed to convert tar file to overlaybd device" err), h')
    | (None, h') => (None, h')
    end.

(** [Cleanup]: the detach. *)
Definition Cleanup (e : env) (id : string) (h : host) : outcome unit * host :=
  match overlaybdLoopbackDeviceID id with
  | None => (Panic "strings: negative Repeat count", h)
  | Some loopDevID =>
      let lunPath := overlaybdLoopbackDeviceLunPath loopDevID in
      let linkPath := GoPath.PJoin [lunPath; "dev_" +:+ id] in
      match RemoveAll e linkPath h with
      | (Some err, h) =>
          (Err (ErrMsg ("failed to remove loopback link " +:+ linkPath)), h)
      | (None, h) =>
      match RemoveAll e lunPath h with
      | (Some err, h) =>
          (Err (ErrMsg ("failed to remove loopback lun " +:+ lunPath)), h)
      | (None, h) =>
      let loopDevPath := overlaybdLoopbackDevicePath loopDevID in
      let tpgtPath := GoPath.PJoin [loopDevPath; "tpgt_1"] in
      match RemoveAll e tpgtPath h with
      | (Some err, h) =>
          (Err (ErrWrap ("failed to remove loopback tgpt " +:+ tpgtPath) err), h)
      | (None, h) =>
      match RemoveAll e loopDevPath h with
      | (Some err, h) =>
          (Err (ErrWrap ("failed to remove loopback dir " +:+ loopDevPath) err), h)
      | (None, h) =>
      match killProcess e id SIGINT h with
      | (Some err, h) =>
          (Err (ErrWrap ("failed to kill overlaybd process, sn: " +:+ id) err), h)
      | (None, h) =>
      let targetPath := overlaybdTargetPath id in
      match RemoveAll e targetPath h with
      | (Some err, h) =>
          (Err (ErrWrap ("failed to remove target dir " +:+ targetPath) err), h)
      | (None, h) => (Ok tt, h)
      end end end end end end
  end.

End Overlaybd.

(* ===================================================================== *)
(** ** quota/sparsefile: the sparse-file quota provider *)
(* ===================================================================== *)

Module Sparsefile.

Import Defer.

Definition QuotaName : string := "sparsefile".
Definition defaultFsType : string := "ext4".
Definition defaultSparsefileQuota : Z := 10 * 1024 * 1024 * 1024.
Definition sparseFileName : string := "rw.img".

Record sparseFileQuota : Type := { fsType : string; defaultQuota : Z }.

(** [New]. *)
Definition New (config : gmap string string) : sparseFileQuota :=
  let fs := label_or_empty config "fs_type" in
  let fs := if GoPath.nonempty fs then fs else defaultFsType in
  let parsed := Strconv.Atoi (label_or_empty config "default_quota") in
  let dq := if negb (snd parsed) || (fst parsed <=? 0)%Z
            then defaultSparsefileQuota else fst parsed in
  {| fsType := fs; defaultQuota := dq |}.

Inductive event : Type :=
| EvTempFile (name : string)
| EvTruncate (name : string) (size : Z)
| EvRename (oldname newname : string)
| EvRemove (name : string)
| EvMkfs (args : list string)
| EvMount (source target fstype : string) (options : list string).

(** [files]: the regular files and their sizes in bytes; [mountpoints]:
    the directories something is mounted on; [journal]: what was done,
    oldest first. *)
Record host : Type :=
  { files : gmap string Z; mountpoints : gset string; journal : list event }.

(** Outcomes handed back by the host.  [tempfile dir] is the name of the
    file [ioutil.TempFile(dir, "new-")] creates. *)
Record env : Type :=
  { tempfile : string -> error + string;
    truncate : string -> Z -> option error;
    rename : string -> string -> option error;
    remove : string -> option error;
    mkfs : list string -> option error;
    mount_loop : string -> string -> option error }.

Definition record (ev : event) (h : host) : host :=
  {| files := files h; mountpoints := mountpoints h;
     journal := journal h ++ [ev] |}.
Definition set_files (h : host) (f : gmap string Z) : host :=
  {| files := f; mountpoints := mountpoints h; journal := journal h |}.
Definition set_mountpoints (h : host) (m : gset string) : host :=
  {| files := files h; mountpoints := m; journal := journal h |}.

Definition TempFile (e : env) (dir : string) (h : host)
  : outcome string * host :=
  match tempfile e dir with
  | inl err => (Err err, h)
  | inr name => (Ok name, record (EvTempFile name) (set_files h (<[name := 0%Z]> (files h))))
  end.

Definition Truncate (e : env) (name : string) (size : Z) (h : host)
  : option error * host :=
  match truncate e name size with
  | Some err => (Some err, h)
  | None => (None, record (EvTruncate name size)
                     (set_files h (<[name := size]> (files h))))
  end.

Definition Rename (e : env) (oldname newname : string) (h : host)
  : option error * host :=
  match rename e oldname newname with
  | Some err => (Some err, h)
  | None =>
      match files h !! oldname with
      | None => (Some (ErrSys "ENOENT"), h)
      | Some sz =>
          (None, record (EvRename oldname newname)
                   (set_files h (<[newname := sz]> (delete oldname (files h)))))
      end
  end.

Definition Remove (e : env) (name : string) (h : host) : option error * host :=
  match remove e name with
  | Some err => (Some err, h)
  | None => (None, record (EvRemove name) (set_files h (delete name (files h))))
  end.

(** [createImageFile]. *)
Definition createImageFile_body (e : env) (img : string) (size : Z)
  : body (St := host) unit :=
  let* tmpFileName := call (TempFile e (GoPath.Dir img)) in
  defer (fun h => snd (Remove e tmpFileName h)) >>>
  try (Truncate e tmpFileName size) (fun err => err) >>>
  try (Rename e tmpFileName img) (fun err => err) >>>
  ret tt.

Definition createImageFile (e : env) (img : string) (size : Z) (h : host)
  : outcome unit * host :=
  run (createImageFile_body e img size) h.

(** [formatImageFile]. *)
Definition formatImageFile (e : env) (q : sparseFileQuota) (img : string)
           (h : host) : option error * host :=
  if negb (String.eqb (fsType q) "ext4")
  then (Some (ErrMsg ("unsupport " +:+ fsType q
                        +:+ ", only support ext4 file system now")), h)
  else
    let args := [img; "-F"; "-E"; "nodiscard,lazy_itable_init=0"; "-O";
                 "^has_journal"] in
    match mkfs e args with
    | Some err => (Some (ErrWrap "failed to write fs" err), h)
    | None => (None, record (EvMkfs args) h)
    end.

(** [mount]. *)
Definition mount (e : env) (img target rwFlag : string) (h : host)
  : option error * host :=
  match mount_loop e img target with
  | Some err => (Some err, h)
  | None =>
      (None, record (EvMount img target defaultFsType ["loop"; rwFlag])
               (set_mountpoints h ({[target]} ∪ mountpoints h)))
  end.

(** [Setup]. *)
Definition Setup (e : env) (q : sparseFileQuota) (target : string) (size : Z)
           (opts : gmap string string) (h : host) : outcome unit * host :=
  let location := label_or_empty opts "base" in
  let location := if GoPath.nonempty location then location
                  else GoPath.Base target in
  let rwFlag := label_or_empty opts "rwFlag" in
  let rwFlag := if GoPath.nonempty rwFlag then rwFlag else "rw" in
  let size := if (size <=? 0)%Z then defaultQuota q else size in
  if bool_decide (target ∈ mountpoints h) then (Ok tt, h)
  else
    let sparseFile := GoPath.Join [location; sparseFileName] in
    let prepared : outcome unit * host :=
      match files h !! sparseFile with
      | Some _ => (Ok tt, h)
      | None =>
          match createImageFile e sparseFile size h with
          | (Err err, h') =>
              (Err (ErrWrap ("failed to create image file: " +:+ sparseFile) err), h')
          | (Panic msg, h') => (Panic msg, h')
          | (Ok _, h') =>
              match formatImageFile e q sparseFile h' with
              | (Some err, h'') =>
                  (Err (ErrWrap ("failed to format image file: " +:+ sparseFile) err),
                   h'')
              | (None, h'') => (Ok tt, h'')
              end
          end
      end in
    match prepared with
    | (Ok _, h') =>
        match mount e sparseFile target rwFlag h' with
        | (Some err, h'') =>
            (Err (ErrWrap ("failed to mount image file: " +:+ sparseFile
                             +:+ " to " +:+ target) err), h'')
        | (None, h'') => (Ok tt, h'')
        end
    | r => r
    end.

End Sparsefile.

(* ===================================================================== *)
(** ** overlay: the snapshotter orchestrator *)
(* ===================================================================== *)

Module Overlay.

Import Defer.

Definition upperdirKey : string := "containerd.io/snapshot/overlay.upperdir".
Definition volatileOpt : string := "containerd.io/snapshot/overlay.volatile".
Definition activePath : string := "containerd.io/snapshot/overlay.active.path".
Definition SnapshotterLabelOverlayActivePath : string :=
  "containerd.io/snapshot.overlay.active-path".
Definition SnapshotterLabelOverlayActiveQuota : string :=
  "containerd.io/snapshot.overlay.active-quota".
Definition MaxActiveQuota : Z := 64 * 1024 * 1024 * 1024 * 1024.
Definition MinActiveQuota : Z := 1024 * 1024 * 1024.
Definition labelSnapshotRef : string := "containerd.io/snapshot.ref".

Inductive Kind : Type := KindUnknown | KindView | KindActive | KindCommitted.

(** [snapshots.Info]; [Labels] is [None] for a nil map; [Created] is the
    text [Created.String()] gives. *)
Record Info : Type :=
  { IKind : Kind; Name : string; Parent : string;
    Labels : option (gmap string string); Created : string }.

(** The zero [Info]; the zero time prints as below. *)
Definition zeroInfo : Info :=
  {| IKind := KindUnknown; Name := ""; Parent := ""; Labels := None;
     Created := "0001-01-01 00:00:00 +0000 UTC" |}.

Definition labels_of (info : Info) : gmap string string :=
  default ∅ (Labels info).

(** [snapshots.Opt]. *)
Definition Opt : Type := Info -> error + Info.

(** Modelled from the spec: [snapshots.WithLabels] is declared outside the
    sources at hand.  The specification calls [rwlayer] a marker put on
    Active and View layers beside the caller's labels, so the option adds
    its labels to those already set. *)
Definition WithLabels (labels : gmap string string) : Opt :=
  fun info =>
    inr {| IKind := IKind info; Name := Name info; Parent := Parent info;
           Labels := Some (labels ∪ labels_of info);
           Created := Created info |}.

(** [for _, opt := range opts { if err := opt(&base); ... }]. *)
Fixpoint apply_opts (opts : list Opt) (base : Info) : error + Info :=
  match opts with
  | [] => inr base
  | opt :: rest =>
      match opt base with
      | inl err => inl err
      | inr base' => apply_opts rest base'
      end
  end.

(** [storage.Snapshot] and [snapshots.Usage]. *)
Record Snapshot : Type := { ID : string; SKind : Kind; ParentIDs : list string }.
Record Usage : Type := { USize : Z; Inodes : Z }.

(** The fields of [snapshotter] that do not hold a collaborator;
    [quotaDriver] tells whether the quota driver is non-nil. *)
Record snapshotter : Type :=
  { root : string; defaultUpperDir : string; asyncRemove : bool;
    upperdirLabel : bool; indexOff : bool; userxattr : bool;
    quotaDriver : bool }.

(** The calls the orchestrator makes to its collaborators: the metadata
    store and its transaction, the read-only driver, the quota driver and
    the file system. *)
Inductive call : Type :=
| CBegin (writable : bool)
| CCommitTx
| CRollback
| CPrepareLower (kind : Kind) (key parent : string) (isActive : bool)
| CPreProcess (snapshotDir parentDir parent : string)
              (labels : gmap string string)
| CGetInfo (key : string)
| CGetSnapshot (key : string)
| CDiskUsage (path : string)
| CDriverCommit (dir : string)
| CCommitActive (key name : string)
| CDriverCleanup (id : string)
| CDriverGetMount (dir : string)
| CMkdirAll (path : string)
| CMountAll (mounts : list Mount.Mount) (target : string)
| CQuotaSetup (target : string) (size : Z) (opts : gmap string string)
| CQuotaRemove (target : string)
| CUnmount (path : string)
| CStorageRemove (key : string)
| CReadDir (path : string)
| CStat (path : string)
| CIDMap
| COpen (dir : string)
| CReaddirnames (dir : string)
| CRemoveAll (path : string).

(** What the collaborators answer.  [prepare_lower] stands for the
    snapshotter's own [prepareLower], taken here by its result: the new
    row, the parent directory and the mount list.  [parse_quantity] is
    [resource.ParseQuantity] followed by [Value()]; [None] is a syntax
    error, on which [resource.MustParse] panics. *)
Record deps : Type :=
  { begin_tx : bool -> option error;
    commit_tx : option error;
    prepare_lower :
      Kind -> string -> string -> bool -> Info ->
      error + (Snapshot * string * list Mount.Mount);
    pre_process :
      string -> string -> string -> gmap string string -> bool * option error;
    get_info : string -> error + (string * Info * Usage);
    get_snapshot : string -> error + Snapshot;
    disk_usage : string -> error + Usage;
    driver_commit : string -> option error;
    commit_active : string -> string -> option error;
    driver_get_mount : string -> error + list Mount.Mount;
    mkdir_all : string -> option error;
    mount_all : list Mount.Mount -> string -> option error;
    stat : string -> bool;
    unmount : string -> option error;
    driver_cleanup : string -> option error;
    quota_remove : string -> option error;
    storage_remove : string -> option error;
    remove_all : string -> option error;
    dir_is_empty : string -> bool;
    id_map : error + gmap string string;
    open_dir : string -> option error;
    readdirnames : string -> error + list string;
    parse_quantity : string -> option Z }.

(** *** Path resolution *)

(** [getActivePath]. *)
Definition getActivePath (info : Info) (key : string) : error + string :=
  match Labels info with
  | Some labels =>
      match labels !! activePath with
      | Some home =>
          if negb (GoPath.IsAbs home) then
            inl (ErrWrap "path for active layer must be an absolute path"
                   ErrInvalidArgument)
          else if negb (GoPath.nonempty key) then
            inr (GoPath.Join [home; ".rwlayer"; Created info])
          else inr (GoPath.Join [home; ".rwlayer"; key])
      | None =>
          inl (ErrWrap "active snapshot path is not specified" ErrNotFound)
      end
  | None => inl (ErrWrap "active snapshot path is not specified" ErrNotFound)
  end.

(** The common shape of [fsPath], [upperPath] and [lowerPath]: [sub] is
    the list of trailing path elements. *)
Definition layerPath (o : snapshotter) (sub : list string)
           (info : option Info) (id key : string) : string :=
  match info with
  | Some i =>
      match getActivePath i key with
      | inr home => GoPath.Join (home :: id :: sub)
      | inl _ =>
          if has_label (labels_of i) "rwlayer"
          then GoPath.Join (defaultUpperDir o :: "snapshots" :: id :: sub)
          else GoPath.Join (root o :: "snapshots" :: id :: sub)
      end
  | None => GoPath.Join (root o :: "snapshots" :: id :: sub)
  end.

Definition fsPath (o : snapshotter) := layerPath o [].
Definition upperPath (o : snapshotter) := layerPath o ["upper"].
Definition lowerPath (o : snapshotter) := layerPath o ["lower"].

(** *** The active quota *)

(** [getActiveQuota]: the pair is [(size, err)]; a label that does not
    parse makes [resource.MustParse] panic. *)
Definition getActiveQuota (d : deps) (info : Info)
  : outcome (Z * option error) :=
  match Labels info with
  | None => Ok ((-1)%Z, Some (ErrWrap "snapshot label is nil" ErrNotFound))
  | Some labels =>
      match labels !! SnapshotterLabelOverlayActiveQuota with
      | None =>
          Ok ((-1)%Z,
              Some (ErrWrap "active snapshot quota is not specified" ErrNotFound))
      | Some quota =>
          match parse_quantity d quota with
          | None => Panic ("cannot parse '" +:+ quota +:+ "'")
          | Some s =>
              if (s <? MinActiveQuota)%Z || (MaxActiveQuota <? s)%Z then
                Ok ((-1)%Z,
                    Some (ErrMsg ("active snapshot quota is invalid["
                                    +:+ pretty MinActiveQuota +:+ ", "
                                    +:+ pretty MaxActiveQuota +:+ "]: "
                                    +:+ pretty s)))
              else Ok (s, None)
          end
      end
  end.

(** *** Calls with a trace *)

Definition log (c : call) : body (St := list call) unit :=
  lift (fun tr => tr ++ [c]).

(** A collaborator call whose answer is an optional error. *)
Definition ask (c : call) (answer : option error) (wrap : error -> error)
  : body (St := list call) unit :=
  try (fun tr => (answer, tr ++ [c])) wrap.

(** A collaborator call whose answer is a value or an error. *)
Definition query {A : Type} (c : call) (answer : error + A)
           (wrap : error -> error) : body (St := list call) A :=
  Defer.call (fun tr => (match answer with
                   | inl err => Err (wrap err)
                   | inr a => Ok a
                   end, tr ++ [c])).

Definition same : error -> error := fun err => err.

Definition log_all (cs : list call) : body (St := list call) unit :=
  lift (fun tr => tr ++ cs).

(** A body run for its outcome, which the caller inspects. *)
Definition attempt {A : Type} (m : body (St := list call) A)
  : body (St := list call) (outcome A) :=
  fun s => match m s with (r, s') => (Ok r, s') end.

(** *** Commit *)

(** [Commit].  The deferred rollback tests the function's variable [err]:
    it is set by the store calls, not by the driver's commit (whose error
    lives in the [if] statement's own scope) nor by the final
    [t.Commit()]. *)
Definition Commit (d : deps) (o : snapshotter) (name key : string)
           (tr : list call) : option error * list call :=
  let tr := tr ++ [CBegin true] in
  match begin_tx d true with
  | Some err => (Some err, tr)
  | None =>
      let tr := tr ++ [CGetInfo key] in
      match get_info d key with
      | inl err => (Some err, tr ++ [CRollback])
      | inr (id, info, _) =>
          let dir := fsPath o (Some info) id key in
          let tr := tr ++ [CDiskUsage dir] in
          match disk_usage d dir with
          | inl err => (Some err, tr ++ [CRollback])
          | inr usage =>
              let tr := tr ++ [CDriverCommit dir] in
              match driver_commit d dir with
              | Some err =>
                  (Some (ErrWrap "failed to commit active mount" err), tr)
              | None =>
                  let tr := tr ++ [CCommitActive key name] in
                  match commit_active d key name with
                  | Some err =>
                      (Some (ErrWrap "failed to commit snapshot" err),
                       tr ++ [CRollback])
                  | None => (commit_tx d, tr ++ [CCommitTx])
                  end
              end
          end
      end
  end.

(** *** Prepare *)

Definition Prepare_body (d : deps) (o : snapshotter) (key parent : string)
           (opts : list Opt) : body (St := list call) (list Mount.Mount) :=
  ask (CBegin true) (begin_tx d true) same >>>
  let* base := match apply_opts opts zeroInfo with
               | inl err => fail err
               | inr b => ret b
               end in
  let* r := query (CPrepareLower KindActive key parent false)
              (prepare_lower d KindActive key parent false base)
              (ErrWrap "failed to prepare") in
  let s := fst (fst r) in
  let parentDir := snd (fst r) in
  let mounts := snd r in
  let snapshotDir := fsPath o (Some base) (ID s) key in
  let pp := pre_process d snapshotDir parentDir parent (labels_of base) in
  log (CPreProcess snapshotDir parentDir parent (labels_of base)) >>>
  match snd pp with
  | Some err =>
      log CRollback >>>
      fail (ErrWrap ("roDriver failed preparing layer " +:+ key) err)
  | None =>
      defer (fun tr => tr ++ [CRollback]) >>>
      if fst pp then
        let name := label_or_empty (labels_of base) labelSnapshotRef in
        try (Commit d o name key) (ErrWrap ("failed to commit layer " +:+ key)) >>>
        fail ErrAlreadyExists
      else
        ask CCommitTx (commit_tx d) (ErrWrap "failed to commit layer") >>>
        ret mounts
  end.

Definition Prepare (d : deps) (o : snapshotter) (key parent : string)
           (opts : list Opt) : outcome (list Mount.Mount) * list call :=
  run (Prepare_body d o key parent opts) [].

(** *** Active *)

(** The option list both [Active] and [Mounts] build. *)
Definition overlayOptions (o : snapshotter) (lowerDir fsDir workDir : string)
  : list string :=
  let options := ["lowerdir=" +:+ lowerDir; "upperdir=" +:+ fsDir;
                  "workdir=" +:+ workDir] in
  let options := if indexOff o then options ++ ["index=off"] else options in
  if userxattr o then options ++ ["userxattr"] else options.

Definition overlayMount (o : snapshotter) (lowerDir fsDir workDir : string)
  : list Mount.Mount :=
  [ {| Mount.Type_ := "overlay"; Mount.Source := "overlay";
       Mount.Options := overlayOptions o lowerDir fsDir workDir |} ].

(** [prepareUpperDir]. *)
Definition prepareUpperDir_body (d : deps) (o : snapshotter)
           (target fsDir workDir : string) (base : Info)
  : body (St := list call) unit :=
  ask (CMkdirAll target) (mkdir_all d target)
      (ErrWrap "failed to create upper dir") >>>
  ask (CMkdirAll fsDir) (mkdir_all d fsDir) (ErrWrap "failed to create fs dir") >>>
  ask (CMkdirAll workDir) (mkdir_all d workDir)
      (ErrWrap "failed to create work dir") >>>
  let* aq := (fun s => (getActiveQuota d base, s)) in
  let activeQuota := fst aq in
  (if quotaDriver o && (0 <? activeQuota)%Z then
     log (CQuotaSetup target activeQuota
            (<["base" := target]> (<["rwFlag" := "rw"]> ∅)))
   else ret tt) >>>
  ask (CMkdirAll fsDir) (mkdir_all d fsDir) (ErrWrap "failed to create fs dir") >>>
  ask (CMkdirAll workDir) (mkdir_all d workDir)
      (ErrWrap "failed to create work dir") >>>
  ret tt.

Definition prepareUpperDir (d : deps) (o : snapshotter)
           (target fsDir workDir : string) (base : Info)
  : outcome unit * list call :=
  run (prepareUpperDir_body d o target fsDir workDir base) [].

Definition Active_body (d : deps) (o : snapshotter) (key parent : string)
           (opts : list Opt) : body (St := list call) (list Mount.Mount) :=
  ask (CBegin true) (begin_tx d true) same >>>
  (if negb (GoPath.nonempty parent)
   then fail (ErrMsg "active layer parent cannot be nil") else ret tt) >>>
  let opts := opts ++ [WithLabels (<["rwlayer" := "true"]> ∅)] in
  let* base := match apply_opts opts zeroInfo with
               | inl err => fail (ErrWrap "failed to apply options" err)
               | inr b => ret b
               end in
  log (CPrepareLower KindActive key parent true) >>>
  match prepare_lower d KindActive key parent true base with
  | inl err => log CRollback >>> fail err
  | inr (s, _, lowerMount) =>
      defer (fun tr => tr ++ [CRollback]) >>>
      let upperDir := upperPath o (Some base) (ID s) key in
      let lowerDir := lowerPath o (Some base) (ID s) key in
      let fsDir := GoPath.Join [upperDir; "fs"] in
      let workDir := GoPath.Join [upperDir; "work"] in
      let* prepared :=
        attempt (prepareUpperDir_body d o upperDir fsDir workDir base) in
      match prepared with
      | Panic msg => panic msg
      | Err err =>
          log (CDriverCleanup (ID s)) >>>
          fail (ErrWrap "failed to prepare upper dir" err)
      | Ok _ =>
          ask (CMkdirAll lowerDir) (mkdir_all d lowerDir)
              (ErrWrap "failed to prepare lower dir") >>>
          log (CMountAll lowerMount lowerDir) >>>
          match mount_all d lowerMount lowerDir with
          | Some err =>
              log (CDriverCleanup (ID s)) >>>
              fail (ErrWrap "failed to mount lower dir" err)
          | None =>
              ask CCommitTx (commit_tx d) (ErrWrap "failed to commit layer") >>>
              ret (overlayMount o lowerDir fsDir workDir)
          end
      end
  end.

Definition Active (d : deps) (o : snapshotter) (key parent : string)
           (opts : list Opt) : outcome (list Mount.Mount) * list call :=
  run (Active_body d o key parent opts) [].

(** *** Mounts *)



(** *** Cleanup *)

(** One of the two loops of [getCleanupDirectories]: the names that are
    keys of the id map are skipped, the others appended, joined to the
    directory. *)
Fixpoint collect (ids : gmap string string) (dir : string)
         (names : list string) (cleanup : list string) : list string :=
  match names with
  | [] => cleanup
  | n :: rest =>
      if has_label ids n then collect ids dir rest cleanup
      else collect ids dir rest (cleanup ++ [GoPath.Join [dir; n]])
  end.

Definition getCleanupDirectories_body (d : deps) (o : snapshotter)
  : body (St := list call) (list string) :=
  let* ids := query CIDMap (id_map d) same in
  let snapshotDir := GoPath.Join [root o; "snapshots"] in
  ask (COpen snapshotDir) (open_dir d snapshotDir) same >>>
  let upperDir := GoPath.Join [defaultUpperDir o; "snapshots"] in
  ask (COpen upperDir) (open_dir d upperDir) same >>>
  let* udirs := query (CReaddirnames upperDir) (readdirnames d upperDir) same in
  let* dirs := query (CReaddirnames snapshotDir) (readdirnames d snapshotDir) same in
  ret (collect ids upperDir udirs (collect ids snapshotDir dirs [])).

(** [cleanupDirectories]: the rollback is deferred without a guard. *)
Definition cleanupDirectories (d : deps) (o : snapshotter)
  : outcome (list string) * list call :=
  match begin_tx d true with
  | Some err => (Err err, [CBegin true])
  | None =>
      match run (getCleanupDirectories_body d o) [CBegin true] with
      | (r, tr) => (r, tr ++ [CRollback])
      end
  end.

(** [Cleanup]: a failed removal is logged and the loop goes on. *)
Definition Cleanup (d : deps) (o : snapshotter) : option error * list call :=
  match cleanupDirectories d o with
  | (Ok cleanup, tr) =>
      (None, fold_left (fun tr dir => tr ++ [CRemoveAll dir]) cleanup tr)
  | (Err err, tr) => (Some err, tr)
  | (Panic _, tr) => (None, tr)
  end.

(** *** Remove *)

(** The loop of [removeActivePath] over the prefixes [keyList[0:i]], from
    the longest down to [keyList[0:1]]: a prefix directory that lists
    empty is removed. *)
Fixpoint pruneEmpty (d : deps) (home : string) (keyList : list string)
         (i : nat) (tr : list call) : list call :=
  match i with
  | O => tr
  | S i' =>
      let dirPath := GoPath.join_with "/" (take i keyList) in
      let p := GoPath.Join [home; dirPath] in
      let tr := tr ++ [CReadDir p] in
      let tr := if dir_is_empty d p then tr ++ [CRemoveAll p] else tr in
      pruneEmpty d home keyList i' tr
  end.

(** [removeActivePath]. *)
Definition removeActivePath (d : deps) (info : Info) (key : string)
           (tr : list call) : option error * list call :=
  match Labels info with
  | None => (None, tr)
  | Some labels =>
      match labels !! activePath with
      | None => (None, tr)
      | Some home =>
          if negb (GoPath.nonempty key) then
            let removePath := GoPath.Join [home; ".rwlayer"; Created info] in
            (remove_all d removePath, tr ++ [CRemoveAll removePath])
          else
            let keyList := ".rwlayer" :: GoPath.split_slash key in
            let p := GoPath.Join [home; ".rwlayer"; key] in
            match remove_all d p with
            | Some err => (Some err, tr ++ [CRemoveAll p])
            | None =>
                (None, pruneEmpty d home keyList (length keyList - 1)
                         (tr ++ [CRemoveAll p]))
            end
      end
  end.

Definition Remove_body (d : deps) (o : snapshotter) (key : string)
  : body (St := list call) unit :=
  ask (CBegin true) (begin_tx d true) same >>>
  defer (fun tr => tr ++ [CRollback]) >>>
  let* gi := query (CGetInfo key) (get_info d key)
               (ErrWrap "failed to get snapshot info") in
  let id := fst (fst gi) in
  let info := snd (fst gi) in
  let upperDir := upperPath o (Some info) id key in
  let lowerDir := lowerPath o (Some info) id key in
  log (CStat lowerDir) >>>
  (if stat d lowerDir
   then ask (CUnmount lowerDir) (unmount d lowerDir)
            (ErrWrap "failed to umount lower dir")
   else ret tt) >>>
  ask (CDriverCleanup id) (driver_cleanup d id)
      (ErrWrap "failed to cleanup roDriver mount") >>>
  let* aq := (fun s => (getActiveQuota d info, s)) in
  let activeQuota := fst aq in
  (if quotaDriver o && (0 <? activeQuota)%Z
   then ask (CQuotaRemove upperDir) (quota_remove d upperDir)
            (ErrWrap "failed to remove active quota")
   else ret tt) >>>
  (match getActivePath info key with
   | inr home =>
       try (removeActivePath d info key)
           (ErrWrap ("failed to remove directory " +:+ home))
   | inl _ => ret tt
   end) >>>
  ask (CStorageRemove key) (storage_remove d key) (ErrWrap "failed to remove") >>>
  let* removals :=
    (if asyncRemove o then ret []
     else fun s =>
            match getCleanupDirectories_body d o s with
            | (Err err, s') =>
                (Err (ErrWrap "unable to get directories for removal" err), s')
            | r => r
            end) in
  ask CCommitTx (commit_tx d) same >>>
  log_all (map CRemoveAll removals).

(** [Remove].  A key the store does not know is not an error: the
    transaction is rolled back and nil returned. *)
Definition Remove (d : deps) (o : snapshotter) (key : string)
  : outcome unit * list call :=
  match begin_tx d true, get_info d key with
  | None, inl err =>
      if Contains (Error err) "snapshot does not exist"
      then (Ok tt, [CBegin true; CGetInfo key; CRollback])
      else run (Remove_body d o key) []
  | _, _ => run (Remove_body d o key) []
  end.

(** The paths [Cleanup] hands to [os.RemoveAll]. *)
Definition removed (tr : list call) : list string :=
  flat_map (fun c => match c with CRemoveAll p => [p] | _ => [] end) tr.

End Overlay.

(* ===================================================================== *)
(** ** Concrete hosts and environments *)
(* ===================================================================== *)

(** Small, explicit instances of the environments above, on which the
    functions are run. *)
Module Fixtures.

(** A reference parser that knows one image. *)
Definition parse_one (ref : string) : option (string * string) :=
  if String.eqb ref "registry.example/team/app:v1"
  then Some ("registry.example", "registry.example/team/app")
  else None.

Definition world_ok : Config.world :=
  {| Config.parse_ref := parse_one; Config.atomic_write := fun _ => None |}.

(** A host on which every operation succeeds: the enable write goes
    through at once and starts the service, the debug log reads [success]
    on the third poll, the block device shows up on the second listing. *)
Definition env_ok : Overlaybd.env :=
  {| Overlaybd.cfg_world := world_ok;
     Overlaybd.mkdir := fun _ => None;
     Overlaybd.removeall := fun _ => None;
     Overlaybd.write_file := fun _ _ => None;
     Overlaybd.write_enable := fun _ => Overlaybd.WOk;
     Overlaybd.service_spawns := true;
     Overlaybd.read_debuglog :=
       fun n => if (n <? 2)%nat then inl (ErrSys "ENOENT") else inr "success";
     Overlaybd.symlink := fun _ _ => None;
     Overlaybd.read_address := inr ("7" +:+ Overlaybd.newline);
     Overlaybd.readdir := fun n => if (n <? 1)%nat then inr [] else inr ["sdc"];
     Overlaybd.exec := fun _ _ => None;
     Overlaybd.exit_polls := fun _ => Some 3%nat |}.

Definition with_mkdir (e : Overlaybd.env) (f : string -> option error)
  : Overlaybd.env :=
  {| Overlaybd.cfg_world := Overlaybd.cfg_world e;
     Overlaybd.mkdir := f;
     Overlaybd.removeall := Overlaybd.removeall e;
     Overlaybd.write_file := Overlaybd.write_file e;
     Overlaybd.write_enable := Overlaybd.write_enable e;
     Overlaybd.service_spawns := Overlaybd.service_spawns e;
     Overlaybd.read_debuglog := Overlaybd.read_debuglog e;
     Overlaybd.symlink := Overlaybd.symlink e;
     Overlaybd.read_address := Overlaybd.read_address e;
     Overlaybd.readdir := Overlaybd.readdir e;
     Overlaybd.exec := Overlaybd.exec e;
     Overlaybd.exit_polls := Overlaybd.exit_polls e |}.

Definition with_debuglog (e : Overlaybd.env) (f : nat -> error + string)
  : Overlaybd.env :=
  {| Overlaybd.cfg_world := Overlaybd.cfg_world e;
     Overlaybd.mkdir := Overlaybd.mkdir e;
     Overlaybd.removeall := Overlaybd.removeall e;
     Overlaybd.write_file := Overlaybd.write_file e;
     Overlaybd.write_enable := Overlaybd.write_enable e;
     Overlaybd.service_spawns := Overlaybd.service_spawns e;
     Overlaybd.read_debuglog := f;
     Overlaybd.symlink := Overlaybd.symlink e;
     Overlaybd.read_address := Overlaybd.read_address e;
     Overlaybd.readdir := Overlaybd.readdir e;
     Overlaybd.exec := Overlaybd.exec e;
     Overlaybd.exit_polls := Overlaybd.exit_polls e |}.

(** The configfs roots exist, nothing else. *)
Definition host_empty : Overlaybd.host :=
  {| Overlaybd.paths :=
       {[ "/sys"; "/sys/kernel"; "/sys/kernel/config";
          "/sys/kernel/config/target"; "/sys/kernel/config/target/core";
          "/sys/kernel/config/target/loopback" ]};
     Overlaybd.cfgs := ∅; Overlaybd.procs := ∅; Overlaybd.journal := [] |}.

(** Labels of a remote block image, of its turbo variant, and of the
    block image without the image reference. *)
Definition labels_no_ref : gmap string string :=
  <[Overlaybd.labelKeyOverlayBDBlobDigest := "sha256:0a"]>
    (<[Overlaybd.labelKeyOverlayBDBlobSize := "1048576"]> ∅).

Definition labels_block : gmap string string :=
  <[Config.labelImageRef := "registry.example/team/app:v1"]> labels_no_ref.

Definition labels_turbo : gmap string string :=
  <[Overlaybd.labelTurboOCIDigest := "sha256:0b"]>
    (<[Overlaybd.labelTurboOCIMediaType := Config.MediaTypeImageLayerGzip]>
       labels_block).

Definition labels_plain_oci : gmap string string :=
  <[Config.labelImageRef := "registry.example/team/app:v1"]> ∅.

End Fixtures.

(* ===================================================================== *)
(** ** Reading the driver's journal *)
(* ===================================================================== *)

Module Journal.

Import Overlaybd.

(** Total time slept, in microseconds. *)
Definition slept (evs : list event) : Z :=
  fold_right (fun ev acc => match ev with
                            | EvSleepUs us => (us + acc)%Z
                            | _ => acc
                            end) 0%Z evs.

(** The signals sent, oldest first. *)
Definition signals (evs : list event) : list (string * Z) :=
  flat_map (fun ev => match ev with
                      | EvSignal id sig => [(id, sig)]
                      | _ => []
                      end) evs.

(** The child processes run, oldest first. *)
Definition commands (evs : list event) : list (string * list string) :=
  flat_map (fun ev => match ev with
                      | EvExec bin args => [(bin, args)]
                      | _ => []
                      end) evs.

End Journal.

Module Scenarios.

(** The readiness file exists but is still empty at the first poll and
    holds [success] from the second poll on. *)
Definition env_empty_then_success : Overlaybd.env :=
  Fixtures.with_debuglog Fixtures.env_ok
    (fun n => match n with O => inr "" | S _ => inr "success" end).

(** The loopback node can be made but its [tpgt_1] directory cannot. *)
Definition env_tpgt_fails : Overlaybd.env :=
  Fixtures.with_mkdir Fixtures.env_ok
    (fun p =>
       if String.eqb p
            "/sys/kernel/config/target/loopback/naa.1990000000000128/tpgt_1"
       then Some (ErrSys "ENOMEM") else None).

Definition target_128 : string :=
  "/sys/kernel/config/target/core/user_999999999/dev_128".

Definition loopback_128 : string :=
  "/sys/kernel/config/target/loopback/naa.1990000000000128".

End Scenarios.

Module Chain.

(** A layer with two ancestors, the nearest first, each holding a
    [layer.tar.meta]; the nearest parent's descriptor is readable. *)
Definition parents : list string := ["/r/snapshots/2"; "/r/snapshots/1"].

Definition parent_config : Config.Config :=
  Config.with_repo (Config.newConfig "/r/snapshots/2")
    "https://registry.example/v2/team/app/blobs".

Definition host_two_parents : Overlaybd.host :=
  {| Overlaybd.paths :=
       {[ "/r/snapshots/2/layer.tar.meta"; "/r/snapshots/1/layer.tar.meta" ]}
       ∪ Overlaybd.paths Fixtures.host_empty;
     Overlaybd.cfgs := <["/r/snapshots/2/config.v1.json" := parent_config]> ∅;
     Overlaybd.procs := ∅; Overlaybd.journal := [] |}.

(** One [--meta] pair per parent, in the order given. *)
Definition meta_args (parents : list string) : list string :=
  flat_map (fun p => ["--meta"; GoPath.Join [p; Overlaybd.tmpTarIndex]]) parents.

End Chain.

Module Residue.

(** What an attach of layer [snID] leaves behind on a host: the
    target-core directory, the loopback node with anything below it, and
    a running service process. *)
Definition target_present (snID : string) (h : Overlaybd.host) : bool :=
  Overlaybd.exists_path h (Overlaybd.overlaybdTargetPath snID).

Definition loopback_present (snID : string) (h : Overlaybd.host) : bool :=
  match Overlaybd.overlaybdLoopbackDeviceID snID with
  | Some wwn =>
      bool_decide
        (filter (fun q => Overlaybd.under (Overlaybd.overlaybdLoopbackDevicePath wwn) q = true)
                (Overlaybd.paths h) ≠ ∅)
  | None => false
  end.

Definition service_present (snID : string) (h : Overlaybd.host) : bool :=
  bool_decide (snID ∈ Overlaybd.procs h).

(** The Absent state of the attach state machine. *)
Definition absent (snID : string) (h : Overlaybd.host) : bool :=
  negb (target_present snID h) && negb (loopback_present snID h)
  && negb (service_present snID h).

(** The symlink cannot be made. *)
Definition env_symlink_fails : Overlaybd.env :=
  {| Overlaybd.cfg_world := Fixtures.world_ok;
     Overlaybd.mkdir := fun _ => None;
     Overlaybd.removeall := fun _ => None;
     Overlaybd.write_file := fun _ _ => None;
     Overlaybd.write_enable := fun _ => Overlaybd.WOk;
     Overlaybd.service_spawns := true;
     Overlaybd.read_debuglog := fun _ => inr "success";
     Overlaybd.symlink := fun _ _ => Some (ErrSys "EIO");
     Overlaybd.read_address := inr "7";
     Overlaybd.readdir := fun _ => inr ["sdc"];
     Overlaybd.exec := fun _ _ => None;
     Overlaybd.exit_polls := fun _ => Some 3%nat |}.

End Residue.

Module QuotaFixtures.

(** A host on which every operation of the provider succeeds; the temp
    file of a directory is [new-123] in it. *)
Definition env_ok : Sparsefile.env :=
  {| Sparsefile.tempfile := fun dir => inr (GoPath.Join [dir; "new-123"]);
     Sparsefile.truncate := fun _ _ => None;
     Sparsefile.rename := fun _ _ => None;
     Sparsefile.remove := fun _ => None;
     Sparsefile.mkfs := fun _ => None;
     Sparsefile.mount_loop := fun _ _ => None |}.

(** The same host with a failing rename. *)
Definition env_rename_fails : Sparsefile.env :=
  {| Sparsefile.tempfile := fun dir => inr (GoPath.Join [dir; "new-123"]);
     Sparsefile.truncate := fun _ _ => None;
     Sparsefile.rename := fun _ _ => Some (ErrSys "EXDEV");
     Sparsefile.remove := fun _ => None;
     Sparsefile.mkfs := fun _ => None;
     Sparsefile.mount_loop := fun _ _ => None |}.

Definition host_empty : Sparsefile.host :=
  {| Sparsefile.files := ∅; Sparsefile.mountpoints := ∅;
     Sparsefile.journal := [] |}.

Definition provider : Sparsefile.sparseFileQuota := Sparsefile.New ∅.

(** The options the orchestrator passes for the upper directory
    [target]. *)
Definition opts_for (target : string) : gmap string string :=
  <["base" := target]> (<["rwFlag" := "rw"]> ∅).

End QuotaFixtures.

(* ===================================================================== *)
(** ** Directory entries and orphans *)
(* ===================================================================== *)

Module Dirent.

Fixpoint no_slash (s : string) : bool :=
  match s with
  | EmptyString => true
  | String c s' => negb (Ascii.eqb c GoPath.slash) && no_slash s'
  end.

(** The names [Readdirnames] can return: non-empty, without a separator,
    and neither [.] nor [..]. *)
Definition entry_name (n : string) : bool :=
  GoPath.nonempty n && no_slash n
  && negb (GoPath.is_dot n) && negb (GoPath.is_dotdot n).

(** The entries of [dir] whose names are not keys of the live id map, as
    paths. *)
Definition orphans (ids : gmap string string) (dir : string)
           (names : list string) : list string :=
  map (fun n => GoPath.Join [dir; n])
      (List.filter (fun n => negb (has_label ids n)) names).

End Dirent.

Module OverlayFixtures.

Import Overlay.

(** A snapshotter rooted at [/r] with its upper directories under [/u],
    on a kernel with [index=off] and without [userxattr]. *)
Definition sn : snapshotter :=
  {| root := "/r"; defaultUpperDir := "/u"; asyncRemove := true;
     upperdirLabel := false; indexOff := true; userxattr := false;
     quotaDriver := true |}.

(** A quantity parser for the suffixes [Mi], [Gi] and [Ti] on a decimal
    number, and plain decimal numbers. *)
Definition suffix_value (s : string) : option (string * Z) :=
  let rs := rev (list_ascii_of_string s) in
  match rs with
  | "i"%char :: u :: digits =>
      let body := string_of_list_ascii (rev digits) in
      if Ascii.eqb u "M"%char then Some (body, 1048576%Z)
      else if Ascii.eqb u "G"%char then Some (body, 1073741824%Z)
      else if Ascii.eqb u "T"%char then Some (body, 1099511627776%Z)
      else None
  | _ => None
  end.

Definition quantity (s : string) : option Z :=
  match suffix_value s with
  | Some (body, unit) =>
      match body with
      | EmptyString => None
      | _ => v ← Strconv.digits 0 body; Some (v * unit)%Z
      end
  | None =>
      match s with
      | EmptyString => None
      | _ => Strconv.digits 0 s
      end
  end.

Definition lower_mount : list Mount.Mount :=
  [ {| Mount.Type_ := "ext4"; Mount.Source := "/dev/sdc";
       Mount.Options := ["ro"] |} ].

Definition scratch_mount (dir : string) : list Mount.Mount :=
  [ {| Mount.Type_ := "bind"; Mount.Source := dir;
       Mount.Options := ["rbind"; "rw"] |} ].

(** The row the store returns for a key: id 3, the given labels. *)
Definition stored (labels : option (gmap string string)) : Info :=
  {| IKind := KindActive; Name := "run"; Parent := "base";
     Labels := labels; Created := "2024-05-01 10:00:00 +0000 UTC" |}.

(** Collaborators that all succeed.  [pp] is the driver's pre-process
    answer, [labels] the labels of the stored row. *)
Definition deps_ok (pp : bool * option error)
           (labels : option (gmap string string)) : deps :=
  {| begin_tx := fun _ => None;
     commit_tx := None;
     prepare_lower :=
       fun _ _ _ isActive _ =>
         inr ({| ID := "3"; SKind := KindActive; ParentIDs := ["2"; "1"] |},
              "/r/snapshots/2",
              if isActive then lower_mount else scratch_mount "/r/snapshots/3");
     pre_process := fun _ _ _ _ => pp;
     get_info :=
       fun _ => inr ("3", stored labels, {| USize := 0; Inodes := 0 |});
     get_snapshot :=
       fun _ => inr {| ID := "3"; SKind := KindActive; ParentIDs := ["2"; "1"] |};
     disk_usage := fun _ => inr {| USize := 4096; Inodes := 1 |};
     driver_commit := fun _ => None;
     commit_active := fun _ _ => None;
     driver_get_mount := fun dir => inr (scratch_mount dir);
     mkdir_all := fun _ => None;
     mount_all := fun _ _ => None;
     stat := fun _ => true;
     unmount := fun _ => None;
     driver_cleanup := fun _ => None;
     quota_remove := fun _ => None;
     storage_remove := fun _ => None;
     remove_all := fun _ => None;
     dir_is_empty := fun _ => true;
     id_map := inr (<["1" := "base"]> (<["2" := "img"]> (<["3" := "run"]> ∅)));
     open_dir := fun _ => None;
     readdirnames :=
       fun dir => if String.eqb dir "/r/snapshots"
                  then inr ["1"; "2"; "9"; "new-4711"]
                  else inr ["3"; "8"];
     parse_quantity := quantity |}.

(** Caller options: labels of a remote block image with its commit
    name; labels with a quota; labels with a quota that does not parse. *)
Definition remote_labels : gmap string string :=
  <[labelSnapshotRef := "img"]> Fixtures.labels_block.

Definition quota_labels (q : string) : gmap string string :=
  <[SnapshotterLabelOverlayActiveQuota := q]> ∅.

End OverlayFixtures.

Module ActiveFixtures.

Import Overlay.

(** An [Active] call with a 2 GiB quota label, and the labels the
    snapshotter computes for it. *)
Definition opts : list Opt := [WithLabels (OverlayFixtures.quota_labels "2Gi")].

Definition labels : gmap string string :=
  <["rwlayer" := "true"]> ∅ ∪ (OverlayFixtures.quota_labels "2Gi" ∪ ∅).

Definition base : Info :=
  {| IKind := KindUnknown; Name := ""; Parent := ""; Labels := Some labels;
     Created := Created zeroInfo |}.

(** The labels with a quota that is not a quantity. *)
Definition bad_info : Info :=
  OverlayFixtures.stored
    (Some (<["rwlayer" := "true"]> (OverlayFixtures.quota_labels "lots"))).

Definition row : Snapshot :=
  {| ID := "3"; SKind := KindActive; ParentIDs := ["2"; "1"] |}.

End ActiveFixtures.

(* ===================================================================== *)
(** ** overlay: what a call leaves for the next *)
(* ===================================================================== *)

Module World.

Import Overlay.

(** A row of the metadata store. *)
Definition row : Type := (Snapshot * Info)%type.










End World.


(* ===================================================================== *)
(** ** overlaybd: reading the device file back *)
(* ===================================================================== *)

Module Driver.

Import Overlaybd.

(** The data of the latest write to [p] in a journal: what the file holds
    when nothing else writes to it. *)
Fixpoint written (evs : list event) (p : string) : option string :=
  match evs with
  | [] => None
  | ev :: rest =>
      match written rest p with
      | Some data => Some data
      | None =>
          match ev with
          | EvWrite q data => if String.eqb q p then Some data else None
          | _ => None
          end
      end
  end.

(** [GetMount]; [read] is the outcome of [ioutil.ReadFile]. *)
Definition GetMount (read : string -> error + string) (keyDir : string)
           (h : host) : outcome (list Mount.Mount) :=
  let devPath := GoPath.Join [keyDir; lowerFile] in
  if exists_path h devPath then
    match read devPath with
    | inl rerr => Err (ErrWrap ("failed to read device file " +:+ devPath) rerr)
    | inr bytes =>
        Ok [ {| Mount.Type_ := "ext4"; Mount.Source := bytes;
                Mount.Options := ["ro"] |} ]
    end
  else
    Ok [ {| Mount.Type_ := "bind"; Mount.Source := keyDir;
            Mount.Options := ["rw"; "rbind"] |} ].

(** [SupportsOverlaybd]: the four files the driver needs, in the order
    they are stat'ed. *)
Definition SupportsOverlaybd (h : host) : option error :=
  if negb (exists_path h ServiceBinary) then
    Some (ErrWrap ("error stating overlaybd service binary " +:+ ServiceBinary)
            (ErrSys "ENOENT"))
  else if negb (exists_path h ConverterBinary) then
    Some (ErrWrap ("error stating overlaybd converter binary " +:+ ConverterBinary)
            (ErrSys "ENOENT"))
  else if negb (exists_path h ConverterMergeBinary) then
    Some (ErrWrap ("error stating overlaybd merger binary " +:+ ConverterMergeBinary)
            (ErrSys "ENOENT"))
  else if negb (exists_path h BaseLayer) then
    Some (ErrWrap ("error stating overlaybd base layer " +:+ BaseLayer)
            (ErrSys "ENOENT"))
  else None.


(** The enable file answers EAGAIN three times, then accepts the write. *)
Definition env_enable_busy : env :=
  {| cfg_world := Fixtures.world_ok;
     mkdir := fun _ => None;
     removeall := fun _ => None;
     write_file := fun _ _ => None;
     write_enable := fun n => if (n <? 3)%nat then WAgain else WOk;
     service_spawns := true;
     read_debuglog := fun _ => inr "success";
     symlink := fun _ _ => None;
     read_address := inr "7";
     readdir := fun n => if (n <? 2)%nat then inl (ErrSys "ENOENT") else inr ["sdc"; "sdd"];
     exec := fun _ _ => None;
     exit_polls := fun _ => Some 3%nat |}.

(** The host a complete attach of layer 128 leaves. *)
Definition host_attached : host :=
  snd (doOverlayBD Fixtures.env_ok "/r/snapshots/128" "128" Fixtures.host_empty).


(** The two hosts have slept as long and been sent the same signals. *)
Definition same_log (h h' : host) : Prop :=
  Journal.slept (journal h') = Journal.slept (journal h)
  /\ Journal.signals (journal h') = Journal.signals (journal h).

(** A body that leaves what was deferred before it in place, below what
    it defers itself. *)
Definition keeps_stack {St A : Type} (m : Defer.body (St := St) A) : Prop :=
  forall s, exists pre, snd (snd (m s)) = pre ++ snd s.

(** A child process that is one of the three pipelines by which
    [killProcess] looks up, interrupts and counts the service of layer
    [snID]. *)
Definition service_pipeline (snID : string) (c : string * list string) : Prop :=
  fst c = "/bin/bash"
  /\ (snd c = ["-c"; lookupCmd snID]
      \/ snd c = ["-c"; killCmd snID SIGINT]
      \/ snd c = ["-c"; countCmd snID]).

(** What the attach of layer [snID] may add to the journal: writes,
    sleeps, SIGINT to the service of that layer, and those pipelines. *)
Definition attach_event (snID : string) (ev : event) : Prop :=
  match ev with
  | EvWrite _ _ => True
  | EvSleepUs _ => True
  | EvSignal id sig => id = snID /\ sig = SIGINT
  | EvExec bin args => service_pipeline snID (bin, args)
  end.

(** Writes and sleeps: no child process, no signal. *)
Definition quiet_event (ev : event) : Prop :=
  match ev with
  | EvWrite _ _ => True
  | EvSleepUs _ => True
  | _ => False
  end.

(** [h'] comes from [h] by events within [P] only: the descriptors are
    the same and no service but that of [snID] has been started. *)
Definition grows_by (P : event -> Prop) (snID : string) (h h' : host) : Prop :=
  cfgs h' = cfgs h
  /\ procs h' ⊆ {[snID]} ∪ procs h
  /\ exists evs, journal h' = journal h ++ evs /\ Forall P evs.

Definition attach_only (snID : string) : host -> host -> Prop :=
  grows_by (attach_event snID) snID.

Definition quiet (snID : string) : host -> host -> Prop :=
  grows_by quiet_event snID.

(** The steps of the body itself, whatever it defers, are within [R]. *)
Definition body_by (R : host -> host -> Prop) {A : Type}
           (m : Defer.body (St := host) A) : Prop :=
  forall s, R (fst s) (fst (snd (m s))).

Definition cleanups_by (R : host -> host -> Prop)
           (ds : list (Defer.cleanup (St := host))) : Prop :=
  Forall (fun c => forall x, R x (c x)) ds.

(** Every step of the body, and every clean-up it defers, is within
    [R]. *)
Definition steps_by (R : host -> host -> Prop) {A : Type}
           (m : Defer.body (St := host) A) : Prop :=
  forall h ds, cleanups_by R ds ->
               R h (fst (snd (m (h, ds))))
               /\ cleanups_by R (snd (snd (m (h, ds)))).
(** A file read back: it holds what the journal's latest write to it
    put there. *)
Definition read_back (h : host) (p : string) : error + string :=
  match written (journal h) p with
  | Some data => inr data
  | None => inl (ErrSys "ENOENT")
  end.

End Driver.


Module Tx.
Import Overlay.

(** The calls that end a transaction. *)
Definition closes (c : call) : bool :=
  match c with CRollback | CCommitTx => true | _ => false end.

(** Some call of the trace ended a transaction. *)
Definition ended (tr : list call) : bool := existsb closes tr.

(** The layer ids handed to the driver's [Cleanup], oldest first. *)
Definition driver_cleanups (tr : list call) : list string :=
  flat_map (fun c => match c with CDriverCleanup id => [id] | _ => [] end) tr.

End Tx.

Module TxFixtures.

Import Overlay.

(** The collaborators of [d] with one answer replaced. *)
Definition with_prepare_lower (d : deps)
           (f : Kind -> string -> string -> bool -> Info ->
                error + (Snapshot * string * list Mount.Mount)) : deps :=
  {| begin_tx := begin_tx d; commit_tx := commit_tx d; prepare_lower := f;
     pre_process := pre_process d; get_info := get_info d;
     get_snapshot := get_snapshot d; disk_usage := disk_usage d;
     driver_commit := driver_commit d; commit_active := commit_active d;
     driver_get_mount := driver_get_mount d; mkdir_all := mkdir_all d;
     mount_all := mount_all d; stat := stat d; unmount := unmount d;
     driver_cleanup := driver_cleanup d; quota_remove := quota_remove d;
     storage_remove := storage_remove d; remove_all := remove_all d;
     dir_is_empty := dir_is_empty d; id_map := id_map d;
     open_dir := open_dir d; readdirnames := readdirnames d;
     parse_quantity := parse_quantity d |}.

Definition with_driver_commit (d : deps) (f : string -> option error) : deps :=
  {| begin_tx := begin_tx d; commit_tx := commit_tx d;
     prepare_lower := prepare_lower d;
     pre_process := pre_process d; get_info := get_info d;
     get_snapshot := get_snapshot d; disk_usage := disk_usage d;
     driver_commit := f; commit_active := commit_active d;
     driver_get_mount := driver_get_mount d; mkdir_all := mkdir_all d;
     mount_all := mount_all d; stat := stat d; unmount := unmount d;
     driver_cleanup := driver_cleanup d; quota_remove := quota_remove d;
     storage_remove := storage_remove d; remove_all := remove_all d;
     dir_is_empty := dir_is_empty d; id_map := id_map d;
     open_dir := open_dir d; readdirnames := readdirnames d;
     parse_quantity := parse_quantity d |}.

Definition with_mount_all (d : deps)
           (f : list Mount.Mount -> string -> option error) : deps :=
  {| begin_tx := begin_tx d; commit_tx := commit_tx d;
     prepare_lower := prepare_lower d;
     pre_process := pre_process d; get_info := get_info d;
     get_snapshot := get_snapshot d; disk_usage := disk_usage d;
     driver_commit := driver_commit d; commit_active := commit_active d;
     driver_get_mount := driver_get_mount d; mkdir_all := mkdir_all d;
     mount_all := f; stat := stat d; unmount := unmount d;
     driver_cleanup := driver_cleanup d; quota_remove := quota_remove d;
     storage_remove := storage_remove d; remove_all := remove_all d;
     dir_is_empty := dir_is_empty d; id_map := id_map d;
     open_dir := open_dir d; readdirnames := readdirnames d;
     parse_quantity := parse_quantity d |}.

Definition with_driver_cleanup (d : deps) (f : string -> option error) : deps :=
  {| begin_tx := begin_tx d; commit_tx := commit_tx d;
     prepare_lower := prepare_lower d;
     pre_process := pre_process d; get_info := get_info d;
     get_snapshot := get_snapshot d; disk_usage := disk_usage d;
     driver_commit := driver_commit d; commit_active := commit_active d;
     driver_get_mount := driver_get_mount d; mkdir_all := mkdir_all d;
     mount_all := mount_all d; stat := stat d; unmount := unmount d;
     driver_cleanup := f; quota_remove := quota_remove d;
     storage_remove := storage_remove d; remove_all := remove_all d;
     dir_is_empty := dir_is_empty d; id_map := id_map d;
     open_dir := open_dir d; readdirnames := readdirnames d;
     parse_quantity := parse_quantity d |}.

Definition with_id_map (d : deps) (m : error + gmap string string) : deps :=
  {| begin_tx := begin_tx d; commit_tx := commit_tx d;
     prepare_lower := prepare_lower d;
     pre_process := pre_process d; get_info := get_info d;
     get_snapshot := get_snapshot d; disk_usage := disk_usage d;
     driver_commit := driver_commit d; commit_active := commit_active d;
     driver_get_mount := driver_get_mount d; mkdir_all := mkdir_all d;
     mount_all := mount_all d; stat := stat d; unmount := unmount d;
     driver_cleanup := driver_cleanup d; quota_remove := quota_remove d;
     storage_remove := storage_remove d; remove_all := remove_all d;
     dir_is_empty := dir_is_empty d; id_map := m;
     open_dir := open_dir d; readdirnames := readdirnames d;
     parse_quantity := parse_quantity d |}.

(** All collaborators succeed; the stored row has no labels. *)
Definition deps_plain : deps := OverlayFixtures.deps_ok (false, None) None.

End TxFixtures.

Module Lower.

Import Overlay.

(** What [prepareLower] does to the file system, the store and the
    driver, in order. *)
Inductive step : Type :=
| SStat (path : string)
| SRemoveAll (path : string)
| SMkdirAll (path : string)
| SMkdirTemp (dir : string)
| SCreateSnapshot (kind : Kind) (key parent : string)
| SGetInfo (key : string)
| SRename (oldpath newpath : string)
| SWriteFile (path data : string)
| SActiveMount (snDir id parentDir : string) (parentPaths : list string)
| SPrepareMount (keyDir : string)
| SDriverCleanup (id : string).

(** The answers of the file system, the store and the driver.
    [mkdir_temp dir] is the directory [os.MkdirTemp(dir, "new-")] makes;
    [get_info n] is the [n]-th lookup of the parent. *)
Record world : Type :=
  { stat : string -> bool;
    remove_all : string -> option error;
    mkdir_all : string -> option error;
    mkdir_temp : string -> error + string;
    create_snapshot : Kind -> string -> string -> error + Snapshot;
    get_info : nat -> string -> error + (string * Info * Usage);
    rename : string -> string -> option error;
    active_mount :
      string -> string -> string -> list string -> error + list Mount.Mount;
    prepare_mount : string -> error + list Mount.Mount }.







(** The paths handed to [os.RemoveAll], oldest first, and the layers
    handed to the driver's [Cleanup]. *)
Definition removed (tr : list step) : list string :=
  flat_map (fun c => match c with SRemoveAll p => [p] | _ => [] end) tr.


(** A host on which everything succeeds; the temp directory of a
    directory is [new-1] in it, the new layer has id 3 and parents 2, 1. *)
Definition world_ok : world :=
  {| stat := fun _ => false;
     remove_all := fun _ => None;
     mkdir_all := fun _ => None;
     mkdir_temp := fun dir => inr (GoPath.Join [dir; "new-1"]);
     create_snapshot :=
       fun kind _ _ => inr {| ID := "3"; SKind := kind; ParentIDs := ["2"; "1"] |};
     get_info :=
       fun _ _ => inr ("2", OverlayFixtures.stored None,
                       {| USize := 0; Inodes := 0 |});
     rename := fun _ _ => None;
     active_mount := fun _ _ _ _ => inr OverlayFixtures.lower_mount;
     prepare_mount := fun dir => inr (OverlayFixtures.scratch_mount dir) |}.


End Lower.

Module Pull.

Import Config.

(** A layer of a remote block image as the orchestrator hands it to the
    driver: its directory and the values of its blob-digest and blob-size
    labels. *)
Record layer : Type := { l_dir : string; l_digest : string; l_size : string }.

(** The lower a plain layer adds to the descriptor, and the base layer a
    layer without parent starts from. *)
Definition lower_of (l : layer) : LowerConfig :=
  {| File := ""; Digest := l_digest l;
     Size := Strconv.to_uint64 (fst (Strconv.Atoi (l_size l)));
     Dir := l_dir l; LRepoBlobURL := ""; TargetDigest := ""; TargetFile := "";
     GzipIndex := "" |}.

Definition base_lower : LowerConfig :=
  {| File := ""; Digest := ""; Size := 0; Dir := overlaybdBaseLayerDir;
     LRepoBlobURL := ""; TargetDigest := ""; TargetFile := ""; GzipIndex := "" |}.

(** The layers of an image prepared bottom up: [ConstructOverlayBDSpec]
    for each, its parent being the layer before it.  The parent's key is
    only tested for being empty; the parent's directory stands for it. *)
Fixpoint pull (w : world) (labels : gmap string string)
         (parent parentDir : string) (layers : list layer) (d : disk)
  : option error * disk :=
  match layers with
  | [] => (None, d)
  | l :: rest =>
      match ConstructOverlayBDSpec w d parent labels (l_dir l) parentDir
              (l_digest l) (l_size l) with
      | (Some e, d') => (Some e, d')
      | (None, d') => pull w labels (l_dir l) (l_dir l) rest d'
      end
  end.

(** The blob URL prefix of an image reference with this host and
    locator. *)
Definition blob_url (host locator : string) : string :=
  "https://" +:+ GoPath.Join [host; "v2"; GoPath.TrimPrefix locator (host +:+ "/")]
    +:+ "/blobs".

(** Three layers of the image the fixtures know. *)
Definition three : list layer :=
  [ {| l_dir := "/r/snapshots/1"; l_digest := "sha256:0a"; l_size := "1048576" |};
    {| l_dir := "/r/snapshots/2"; l_digest := "sha256:0b"; l_size := "2097152" |};
    {| l_dir := "/r/snapshots/3"; l_digest := "sha256:0c"; l_size := "512" |} ].

End Pull.

(* ===================================================================== *)
(** ** quota/sparsefile: taking the loop mount down *)
(* ===================================================================== *)

Module Umount.

Inductive event : Type :=
| EvFindmnt (args : list string)
| EvUnmount (target : string)
| EvOpen (path : string)
| EvSleep (ms : nat).

(** The host: the combined output of [findmnt] and whether the command
    failed, the result of [mount.Unmount], and what the [n]-th attempt to
    open and read a file gives ([None]: the open fails). *)
Record env : Type :=
  { findmnt : list string -> string * option error;
    unmount : string -> option error;
    read_file : nat -> string -> option string }.

Definition quote : ascii := "034"%char.
Definition nul : ascii := "000"%char.

(** [strings.Split(s, sep)] for a separator of one byte. *)
Fixpoint Split_aux (sep : ascii) (cur : string) (s : string) : list string :=
  match s with
  | EmptyString => [cur]
  | String c s' =>
      if Ascii.eqb c sep then cur :: Split_aux sep EmptyString s'
      else Split_aux sep (cur ++ String c EmptyString) s'
  end.

Definition Split (s : string) (sep : ascii) : list string :=
  Split_aux sep EmptyString s.

(** [buf := make([]byte, n); file.Read(buf); string(buf)]: the first [n]
    bytes of the file, the rest of the buffer left zero. *)
Fixpoint read_buf (n : nat) (content : string) : string :=
  match n with
  | O => EmptyString
  | S n' =>
      match content with
      | EmptyString => String nul (read_buf n' EmptyString)
      | String c rest => String c (read_buf n' rest)
      end
  end.

Definition backing_file (loop : string) : string :=
  "/sys/block/" +:+ GoPath.Base loop +:+ "/loop/backing_file".

(** The loop [for i := 0; i < 30; i++] of [umount], from iteration [i]
    with [n] iterations to go. *)
Fixpoint poll (e : env) (target loop : string) (i n : nat) : list event :=
  match n with
  | O => []
  | S n' =>
      EvOpen (backing_file loop)
      :: match read_file e i (backing_file loop) with
         | None => []
         | Some content =>
             if negb (String.eqb (GoPath.Dir (read_buf 300 content)) target)
             then []
             else EvSleep 100 :: poll e target loop (S i) n'
         end
  end.

Definition findmnt_args (target : string) : list string :=
  ["-T"; target; "-P"; "-o"; "SOURCE"].

(** [umount]. *)
Definition umount (e : env) (target : string) : option error * list event :=
  let output := fst (findmnt e (findmnt_args target)) in
  let tr := [EvFindmnt (findmnt_args target); EvUnmount target] in
  match unmount e target with
  | Some err => (Some err, tr)
  | None =>
      match Split output quote with
      | _ :: loop :: _ => (None, tr ++ poll e target loop 0 30)
      | _ => (None, tr)
      end
  end.

(** [Remove]. *)
Definition Remove (e : env) (target : string) : option error * list event :=
  umount e target.

Fixpoint opens (tr : list event) : nat :=
  match tr with
  | [] => 0
  | EvOpen _ :: rest => S (opens rest)
  | _ :: rest => opens rest
  end.

Fixpoint slept (tr : list event) : nat :=
  match tr with
  | [] => 0
  | EvSleep ms :: rest => ms + slept rest
  | _ :: rest => slept rest
  end.

Definition is_poll (ev : event) : Prop :=
  match ev with EvOpen _ | EvSleep _ => True | _ => False end.

(** At attempt [i] the loop device still reports a backing file directly
    in [target]. *)
Definition holds (e : env) (target loop : string) (i : nat) : bool :=
  match read_file e i (backing_file loop) with
  | None => false
  | Some content => String.eqb (GoPath.Dir (read_buf 300 content)) target
  end.

(** A host whose loop device lets go of the image at the third look. *)
Definition env_busy (target : string) : env :=
  {| findmnt := fun _ => ("SOURCE=" +:+ String quote ("/dev/loop3" +:+ String quote
                             (String "010"%char EmptyString)), None);
     unmount := fun _ => None;
     read_file := fun i _ =>
       if (i <? 2)%nat
       then Some (GoPath.Join [target; Sparsefile.sparseFileName]
                    +:+ String "010"%char EmptyString)
       else Some (String "010"%char EmptyString) |}.

End Umount.

(* ===================================================================== *)
(** ** overlay: the size label *)
(* ===================================================================== *)

Module Bytes.

Definition unit : Z := 1000.

(** An [int64] product, wrapped around. *)
Definition wrap_int64 (z : Z) : Z := ((z + 2 ^ 63) mod 2 ^ 64 - 2 ^ 63)%Z.

(** What [ByteCountDecimal] hands to [fmt.Sprintf]: [Plain b] stands for
    [Sprintf("%d B", b)], [Scaled b div c] for
    [Sprintf("%.1f %cB", float64(b)/float64(div), c)]. *)
Inductive count : Type :=
| Plain (b : Z)
| Scaled (b div : Z) (prefix : ascii).

(** The loop [for n := b / unit; n >= unit; n /= unit], at most [fuel]
    times round. *)
Fixpoint scale (fuel : nat) (n div : Z) (exp : nat) : option (Z * nat) :=
  match fuel with
  | O => None
  | S fuel' =>
      if (n >=? unit)%Z
      then scale fuel' (n ÷ unit)%Z (wrap_int64 (div * unit)) (S exp)
      else Some (div, exp)
  end.

(** [ByteCountDecimal]; [None] when the loop needs more than 64 rounds. *)
Definition ByteCountDecimal (b : Z) : option (outcome count) :=
  if (b <? unit)%Z then Some (Ok (Plain b))
  else
    match scale 64 (b ÷ unit)%Z unit 0 with
    | None => None
    | Some (div, exp) =>
        match String.get exp "kMGTPE" with
        | Some c => Some (Ok (Scaled b div c))
        | None => Some (Panic "index out of range")
        end
    end.

End Bytes.

(* ===================================================================== *)
(** * Properties *)
(* ===================================================================== *)

(** ** The embedding on small inputs *)
Example Join_ex2 : GoPath.Join ["/a//b/"; ""; "../c"] = "/a/c".
Proof. reflexivity. Qed.
Example Base_ex2 : GoPath.Base "///" = "/".
Proof. reflexivity. Qed.
Example Dir_ex2 : GoPath.Dir "upper" = ".".
Proof. reflexivity. Qed.
Example Dir_ex4 : GoPath.Dir "a/b/" = "a/b".
Proof. reflexivity. Qed.
Example Atoi_ex2 : Strconv.Atoi "-12" = ((-12)%Z, true).
Proof. reflexivity. Qed.
Example Atoi_ex4 :
  Strconv.Atoi "99999999999999999999" = (Strconv.max_int, false).
Proof. reflexivity. Qed.

(** A range error comes at the overflowing digit, before a later byte
    that is no digit is looked at; a byte that is no digit comes first
    when it stands earlier. *)
Example Atoi_ex5 :
  Strconv.Atoi "99999999999999999999x" = (Strconv.max_int, false)
  /\ Strconv.Atoi "9999999999999999999x" = (0%Z, false)
  /\ Strconv.Atoi "-99999999999999999999x" = (Strconv.min_int, false).
Proof. repeat split; vm_compute; reflexivity. Qed.

Example Join_ex1 : GoPath.Join ["/a/b"; "rw.img"] = "/a/b/rw.img".
Proof. reflexivity. Qed.

Example Base_ex1 : GoPath.Base "/var/lib/x/upper" = "upper".
Proof. reflexivity. Qed.

Example Dir_ex1 : GoPath.Dir "/var/lib/x/upper" = "/var/lib/x".
Proof. reflexivity. Qed.

Example Dir_ex3 : GoPath.Dir "/upper" = "/".
Proof. reflexivity. Qed.

Example whiteout_opq :
  Archive.calls
    (Archive.OverlayConvertWhiteout (fun _ => None)
       {| Archive.Uid := 7; Archive.Gid := 8 |} "a/b/.wh..wh..opq")
  = [Archive.Setxattr "a/b" "trusted.overlay.opaque" "y" 0].
Proof. reflexivity. Qed.

Example whiteout_foo :
  Archive.calls
    (Archive.OverlayConvertWhiteout (fun _ => None)
       {| Archive.Uid := 7; Archive.Gid := 8 |} "a/b/.wh.foo")
  = [Archive.Mknod "a/b/foo" Archive.S_IFCHR 0; Archive.Chown "a/b/foo" 7 8].
Proof. reflexivity. Qed.

Example Atoi_ex1 : Strconv.Atoi "1048576" = (1048576%Z, true).
Proof. reflexivity. Qed.

Example Atoi_ex3 : Strconv.Atoi "12a" = (0%Z, false).
Proof. reflexivity. Qed.

Example loopback_id_128 :
  Overlaybd.overlaybdLoopbackDeviceID "128" = Some "naa.1990000000000128".
Proof. reflexivity. Qed.

Example target_path_128 :
  Overlaybd.overlaybdTargetPath "128"
  = "/sys/kernel/config/target/core/user_999999999/dev_128".
Proof. reflexivity. Qed.

Example ancestors_ex :
  Overlaybd.ancestors "/a/b/c" = ["/a"; "/a/b"; "/a/b/c"].
Proof. reflexivity. Qed.

(** ** Strings *)

Lemma prefix_split (p s : string) :
  String.prefix p s = true ->
  s = p +:+ GoPath.drop_str (String.length p) s.
Proof.
  revert s; induction p as [|c p IH]; intros s H; simpl in *.
  - reflexivity.
  - destruct s as [|c' s]; simpl in H; [discriminate|].
    revert H. destruct (Ascii.ascii_dec c c') as [->|Hne]; [|discriminate].
    intros H.
    change (String c' s = String c' (p +:+ GoPath.drop_str (String.length p) s)).
    f_equal. now apply IH.
Qed.

Lemma string_eqb_true (a b : string) : String.eqb a b = true <-> a = b.
Proof. apply String.eqb_eq. Qed.

Lemma string_eqb_false (a b : string) : String.eqb a b = false <-> a <> b.
Proof. apply String.eqb_neq. Qed.

(** ** Whiteout translation *)

Section Whiteout.

Import Archive.

Variable k : kernel.
Variable hdr : Header.

Lemma opaque_marker_has_prefix :
  GoPath.HasPrefix whiteoutOpaqueDir whiteoutPrefix = true.
Proof. reflexivity. Qed.

Lemma whiteout_opaque (p : string) :
  GoPath.Base p = whiteoutOpaqueDir ->
  OverlayConvertWhiteout k hdr p
  = {| keep := false;
       err := k (Setxattr (GoPath.Dir p) "trusted.overlay.opaque" "y" 0);
       calls := [Setxattr (GoPath.Dir p) "trusted.overlay.opaque" "y" 0] |}.
Proof.
  intros H. unfold OverlayConvertWhiteout. rewrite H.
  now rewrite String.eqb_refl.
Qed.

Lemma whiteout_kept (p : string) :
  GoPath.HasPrefix (GoPath.Base p) whiteoutPrefix = false ->
  OverlayConvertWhiteout k hdr p = {| keep := true; err := None; calls := [] |}.
Proof.
  intros H. unfold OverlayConvertWhiteout.
  destruct (String.eqb (GoPath.Base p) whiteoutOpaqueDir) eqn:E.
  - apply String.eqb_eq in E. rewrite E in H.
    rewrite opaque_marker_has_prefix in H. discriminate.
  - now rewrite H.
Qed.

End Whiteout.

(** C8.  Whiteout translation of the tar header at path [p], for every
    kernel behaviour and header.  When the base name is the opaque-directory
    marker the entry is dropped and the only system call sets the extended
    attribute [trusted.overlay.opaque] to [y] on the directory of [p].  When
    the base name otherwise begins with the whiteout prefix, so that it is
    the prefix followed by some [name], the entry is dropped and a character
    device with device number 0 (major 0, minor 0) is made at the join of
    the directory of [p] and [name]; once the device is made it is chowned
    to the header's uid and gid, and nothing else is called.  Every other
    entry is kept and no system call is made. *)
Theorem OverlayConvertWhiteout_translation
        (k : Archive.kernel) (hdr : Archive.Header) (p : string) :
  let base := GoPath.Base p in
  let dir := GoPath.Dir p in
  let out := Archive.OverlayConvertWhiteout k hdr p in
  (base = Archive.whiteoutOpaqueDir ->
   Archive.keep out = false /\
   Archive.calls out = [Archive.Setxattr dir "trusted.overlay.opaque" "y" 0])
  /\
  (base <> Archive.whiteoutOpaqueDir ->
   GoPath.HasPrefix base Archive.whiteoutPrefix = true ->
   exists name : string,
     base = Archive.whiteoutPrefix +:+ name /\
     let device := Archive.Mknod (GoPath.Join [dir; name]) Archive.S_IFCHR 0 in
     Archive.keep out = false /\
     Archive.dev_major 0 = 0%Z /\ Archive.dev_minor 0 = 0%Z /\
     (k device = None ->
      Archive.calls out
      = [device;
         Archive.Chown (GoPath.Join [dir; name]) (Archive.Uid hdr) (Archive.Gid hdr)])
     /\
     (forall e, k device = Some e ->
                Archive.calls out = [device] /\ Archive.err out = Some e))
  /\
  (GoPath.HasPrefix base Archive.whiteoutPrefix = false ->
   Archive.keep out = true /\ Archive.calls out = [] /\ Archive.err out = None).
Proof.
  cbv zeta. repeat split.
  - rewrite (whiteout_opaque k hdr p H). reflexivity.
  - rewrite (whiteout_opaque k hdr p H). reflexivity.
  - intros Hne Hpre.
    exists (GoPath.drop_str (String.length Archive.whiteoutPrefix) (GoPath.Base p)).
    split; [now apply prefix_split|].
    unfold Archive.OverlayConvertWhiteout.
    apply String.eqb_neq in Hne. rewrite Hne, Hpre.
    repeat split.
    + now destruct (k _).
    + intros Hk. now rewrite Hk.
    + rewrite H. reflexivity.
    + rewrite H. reflexivity.
  - rewrite (whiteout_kept k hdr p H). reflexivity.
  - rewrite (whiteout_kept k hdr p H). reflexivity.
  - rewrite (whiteout_kept k hdr p H). reflexivity.
Qed.

Lemma OverlayConvertWhiteout_translation_witness :
  let k : Archive.kernel := fun _ => None in
  let hdr := {| Archive.Uid := 1000; Archive.Gid := 100 |} in
  (Archive.calls (Archive.OverlayConvertWhiteout k hdr "etc/.wh..wh..opq")
   = [Archive.Setxattr "etc" "trusted.overlay.opaque" "y" 0])
  /\ (exists name : string,
         GoPath.Base "etc/.wh.passwd" = Archive.whiteoutPrefix +:+ name /\
         Archive.calls (Archive.OverlayConvertWhiteout k hdr "etc/.wh.passwd")
         = [Archive.Mknod (GoPath.Join ["etc"; name]) Archive.S_IFCHR 0;
            Archive.Chown (GoPath.Join ["etc"; name]) 1000 100])
  /\ Archive.keep (Archive.OverlayConvertWhiteout k hdr "etc/passwd") = true.
Proof.
  cbv zeta.
  pose proof (OverlayConvertWhiteout_translation
                (fun _ => None) {| Archive.Uid := 1000; Archive.Gid := 100 |}
                "etc/.wh..wh..opq") as [H1 _].
  pose proof (OverlayConvertWhiteout_translation
                (fun _ => None) {| Archive.Uid := 1000; Archive.Gid := 100 |}
                "etc/.wh.passwd") as [_ [H2 _]].
  pose proof (OverlayConvertWhiteout_translation
                (fun _ => None) {| Archive.Uid := 1000; Archive.Gid := 100 |}
                "etc/passwd") as [_ [_ H3]].
  split; [|split].
  - apply H1. reflexivity.
  - destruct H2 as [name [Hb [_ [_ [_ [Hc _]]]]]].
    + vm_compute. discriminate.
    + reflexivity.
    + exists name. split; [exact Hb|]. apply Hc. reflexivity.
  - apply H3. reflexivity.
Defined.

(** ** The pre-fetch decision *)

Section PreProcessFacts.

Import Overlaybd.

Lemma set_cfgs_same (h : host) : set_cfgs h (cfgs h) = h.
Proof. now destruct h. Qed.

Lemma has_label_true (labels : gmap string string) (k v : string) :
  labels !! k = Some v -> has_label labels k = true.
Proof. intros H. unfold has_label. rewrite H. reflexivity. Qed.

Lemma has_label_false (labels : gmap string string) (k : string) :
  labels !! k = None -> has_label labels k = false.
Proof. intros H. unfold has_label. rewrite H. reflexivity. Qed.

Lemma WriteConfig_result (w : Config.world) (d : Config.disk)
      (c : Config.Config) (target : string) :
  Config.WriteConfig w d c target
  = match Config.atomic_write w target with
    | Some werr =>
        (Some (ErrWrap ("failed to commit the overlaybd config on " +:+ target)
                 werr), d)
    | None => (None, <[target := c]> d)
    end.
Proof. reflexivity. Qed.

(** What the plain descriptor needs in order to be built, and what its
    newest lower records. *)
Lemma plainSpec_built (w : Config.world) (d : Config.disk)
      (parent snDir parentDir blobDigest blobSize : string)
      (labels : gmap string string) (c : Config.Config) :
  Config.plainSpec w d parent labels snDir parentDir blobDigest blobSize = inr c ->
  exists ref front,
    labels !! Config.labelImageRef = Some ref /\
    Config.ImageRef c = ref /\
    Config.Lowers c
    = front ++ [ {| Config.File := ""; Config.Digest := blobDigest;
                    Config.Size := Strconv.to_uint64 (fst (Strconv.Atoi blobSize));
                    Config.Dir := snDir; Config.LRepoBlobURL := "";
                    Config.TargetDigest := ""; Config.TargetFile := "";
                    Config.GzipIndex := "" |} ].
Proof.
  unfold Config.plainSpec.
  destruct (labels !! Config.labelImageRef) as [ref|]; [|discriminate].
  destruct (Config.constructImageBlobURL w ref) as [e|url]; [discriminate|].
  destruct (negb (GoPath.nonempty parent)).
  - intros [= <-]. exists ref.
    exists [ {| Config.File := ""; Config.Digest := ""; Config.Size := 0;
                Config.Dir := Config.overlaybdBaseLayerDir;
                Config.LRepoBlobURL := ""; Config.TargetDigest := "";
                Config.TargetFile := ""; Config.GzipIndex := "" |} ].
    split; [reflexivity|split; reflexivity].
  - destruct (Config.ReadConfig d _) as [e|pc]; [discriminate|].
    intros [= <-]. exists ref, (Config.Lowers pc).
    split; [reflexivity|split; [reflexivity|]].
    now destruct (negb (GoPath.nonempty url)).
Qed.

End PreProcessFacts.

(** C1 (as the code has it).  [PreProcess] on a labels map.  When the
    blob-size or the blob-digest label is absent it returns
    [skipFetch = false] with no error and leaves the host untouched.  When
    both are present and the turbo target-digest label is absent it builds
    the plain descriptor: if that can be built and the atomic write goes
    through, [config.v1.json] of the layer directory holds it and
    [skipFetch = true]; if it cannot be built (the image-reference label is
    missing or does not parse, or the parent's descriptor cannot be read) or
    the write fails, the result is [skipFetch = false] with that error and
    nothing is written.  When the turbo label is present too the same holds
    for the turbo descriptor, with [skipFetch = false] in every case. *)
Theorem PreProcess_decision
        (e : Overlaybd.env) (h : Overlaybd.host)
        (keyDir parentDir parent : string) (labels : gmap string string) :
  let out := Overlaybd.PreProcess e keyDir parentDir parent labels h in
  let target := GoPath.Join [keyDir; Config.configFile] in
  let w := Overlaybd.cfg_world e in
  let write_failed werr :=
    ErrWrap ("failed to commit the overlaybd config on " +:+ target) werr in
  (labels !! Overlaybd.labelKeyOverlayBDBlobSize = None \/
   labels !! Overlaybd.labelKeyOverlayBDBlobDigest = None ->
   out = ((false, None), h))
  /\
  (forall blobSize blobDigest,
      labels !! Overlaybd.labelKeyOverlayBDBlobSize = Some blobSize ->
      labels !! Overlaybd.labelKeyOverlayBDBlobDigest = Some blobDigest ->
      labels !! Overlaybd.labelTurboOCIDigest = None ->
      match Config.plainSpec w (Overlaybd.cfgs h) parent labels keyDir parentDir
              blobDigest blobSize,
            Config.atomic_write w target with
      | inr c, None =>
          out = ((true, None),
                 Overlaybd.set_cfgs h (<[target := c]> (Overlaybd.cfgs h)))
      | inr c, Some werr => out = ((false, Some (write_failed werr)), h)
      | inl err, _ => out = ((false, Some err), h)
      end)
  /\
  (forall blobSize blobDigest turbo,
      labels !! Overlaybd.labelKeyOverlayBDBlobSize = Some blobSize ->
      labels !! Overlaybd.labelKeyOverlayBDBlobDigest = Some blobDigest ->
      labels !! Overlaybd.labelTurboOCIDigest = Some turbo ->
      match Config.turboSpec w (Overlaybd.cfgs h) parent labels keyDir parentDir,
            Config.atomic_write w target with
      | inr c, None =>
          out = ((false, None),
                 Overlaybd.set_cfgs h (<[target := c]> (Overlaybd.cfgs h)))
      | inr c, Some werr => out = ((false, Some (write_failed werr)), h)
      | inl err, _ => out = ((false, Some err), h)
      end).
Proof.
  cbv zeta. split; [|split].
  - intros [H|H]; unfold Overlaybd.PreProcess; rewrite H; [reflexivity|].
    now destruct (labels !! Overlaybd.labelKeyOverlayBDBlobSize).
  - intros blobSize blobDigest Hs Hd Ht.
    unfold Overlaybd.PreProcess. rewrite Hs, Hd, (has_label_false _ _ Ht).
    unfold Config.ConstructOverlayBDSpec.
    destruct (Config.plainSpec _ _ _ _ _ _ _ _) as [err|c].
    + now rewrite set_cfgs_same.
    + rewrite WriteConfig_result.
      destruct (Config.atomic_write _ _); [now rewrite set_cfgs_same|reflexivity].
  - intros blobSize blobDigest turbo Hs Hd Ht.
    unfold Overlaybd.PreProcess. rewrite Hs, Hd, (has_label_true _ _ _ Ht).
    unfold Config.ConstructTurboOCISpec.
    destruct (Config.turboSpec _ _ _ _ _ _) as [err|c].
    + now rewrite set_cfgs_same.
    + rewrite WriteConfig_result.
      destruct (Config.atomic_write _ _); [now rewrite set_cfgs_same|reflexivity].
Qed.

Lemma PreProcess_decision_witness :
  (Overlaybd.PreProcess Fixtures.env_ok "/r/snapshots/7" "" ""
     Fixtures.labels_plain_oci Fixtures.host_empty
   = ((false, None), Fixtures.host_empty))
  /\ fst (Overlaybd.PreProcess Fixtures.env_ok "/r/snapshots/7" "" ""
            Fixtures.labels_block Fixtures.host_empty) = (true, None)
  /\ fst (Overlaybd.PreProcess Fixtures.env_ok "/r/snapshots/7" "" ""
            Fixtures.labels_turbo Fixtures.host_empty) = (false, None).
Proof.
  pose proof (PreProcess_decision Fixtures.env_ok Fixtures.host_empty
                "/r/snapshots/7" "" "" Fixtures.labels_plain_oci) as [H1 _].
  pose proof (PreProcess_decision Fixtures.env_ok Fixtures.host_empty
                "/r/snapshots/7" "" "" Fixtures.labels_block) as [_ [H2 _]].
  pose proof (PreProcess_decision Fixtures.env_ok Fixtures.host_empty
                "/r/snapshots/7" "" "" Fixtures.labels_turbo) as [_ [_ H3]].
  split; [|split].
  - apply H1. left. vm_compute. reflexivity.
  - specialize (H2 "1048576" "sha256:0a" eq_refl eq_refl eq_refl).
    eassert (Hout : Overlaybd.PreProcess Fixtures.env_ok "/r/snapshots/7" "" ""
                      Fixtures.labels_block Fixtures.host_empty
                    = ((true, None), _)) by exact H2.
    rewrite Hout. reflexivity.
  - specialize (H3 "1048576" "sha256:0a" "sha256:0b" eq_refl eq_refl eq_refl).
    eassert (Hout : Overlaybd.PreProcess Fixtures.env_ok "/r/snapshots/7" "" ""
                      Fixtures.labels_turbo Fixtures.host_empty
                    = ((false, None), _)) by exact H3.
    rewrite Hout. reflexivity.
Defined.

(** C1 (as stated) fails.  A layer carries the blob-digest and blob-size
    labels and no turbo label, but no image reference: [PreProcess] returns
    [skipFetch = false] with the error [no image-ref label] and writes no
    descriptor, where the statement has the plain descriptor written and
    [skipFetch = true]. *)
Lemma PreProcess_without_image_ref :
  let labels := Fixtures.labels_no_ref in
  is_Some (labels !! Overlaybd.labelKeyOverlayBDBlobDigest)
  /\ is_Some (labels !! Overlaybd.labelKeyOverlayBDBlobSize)
  /\ labels !! Overlaybd.labelTurboOCIDigest = None
  /\ Overlaybd.PreProcess Fixtures.env_ok "/r/snapshots/7" "" "" labels
       Fixtures.host_empty
     = ((false, Some (ErrMsg "no image-ref label")), Fixtures.host_empty)
  /\ ~ (fst (fst (Overlaybd.PreProcess Fixtures.env_ok "/r/snapshots/7" "" ""
                    labels Fixtures.host_empty)) = true
        /\ is_Some (Overlaybd.cfgs
                      (snd (Overlaybd.PreProcess Fixtures.env_ok "/r/snapshots/7"
                              "" "" labels Fixtures.host_empty))
                    !! "/r/snapshots/7/config.v1.json")).
Proof.
  cbv zeta. split; [|split; [|split; [|split]]].
  - vm_compute. eauto.
  - vm_compute. eauto.
  - vm_compute. reflexivity.
  - vm_compute. reflexivity.
  - vm_compute. intros [H _]. discriminate.
Qed.

(** ** Waiting for readiness *)

Section Readiness.

Import Overlaybd.

Variable e : env.
Variable targetPath : string.

Lemma journal_sleeps (us : Z) (n : nat) (h : host) :
  journal (Nat.iter n (sleep_us us) h) = journal h ++ repeat (EvSleepUs us) n.
Proof.
  induction n as [|n IH]; simpl.
  - now rewrite app_nil_r.
  - rewrite IH. rewrite <- app_assoc. f_equal.
    change [EvSleepUs us] with (repeat (EvSleepUs us) 1).
    rewrite <- repeat_app. now rewrite Nat.add_comm.
Qed.

Lemma slept_app (a b : list event) :
  Journal.slept (a ++ b) = (Journal.slept a + Journal.slept b)%Z.
Proof.
  induction a as [|ev a IH]; simpl; [reflexivity|].
  destruct ev; rewrite IH; lia.
Qed.

Lemma slept_repeat (us : Z) (n : nat) :
  Journal.slept (repeat (EvSleepUs us) n) = (us * Z.of_nat n)%Z.
Proof.
  induction n as [|n IH]; [simpl; lia|].
  cbn [repeat Journal.slept fold_right]. fold (Journal.slept (repeat (EvSleepUs us) n)).
  rewrite IH. lia.
Qed.

(** The first content that can be read decides, after as many sleeps as
    there were failed reads. *)
Lemma waitReady_first_readable (i : nat) :
  forall (fuel retry : nat) (err : error) (h : host) (data : string),
    (i < fuel)%nat ->
    (forall j, (j < i)%nat -> exists derr, read_debuglog e (retry + j) = inl derr) ->
    read_debuglog e (retry + i) = inr data ->
    waitReady e targetPath fuel retry err h
    = (verdict targetPath data, Nat.iter i (sleep_us 20000) h).
Proof.
  induction i as [|i IH]; intros fuel retry err h data Hlt Hbefore Hread.
  - destruct fuel as [|fuel]; [lia|]. simpl.
    rewrite Nat.add_0_r in Hread. rewrite Hread. unfold verdict.
    now destruct (String.eqb data "success").
  - destruct fuel as [|fuel]; [lia|]. simpl.
    destruct (Hbefore 0%nat ltac:(lia)) as [derr Hd].
    rewrite Nat.add_0_r in Hd. rewrite Hd.
    rewrite (IH fuel (S retry) derr (sleep_us 20000 h) data).
    + f_equal. symmetry. apply (Nat.iter_succ_r i (sleep_us 20000) h).
    + lia.
    + intros j Hj. destruct (Hbefore (S j) ltac:(lia)) as [d' Hd'].
      exists d'. now replace (S retry + j)%nat with (retry + S j)%nat by lia.
    + now replace (S retry + i)%nat with (retry + S i)%nat by lia.
Qed.

(** When no read succeeds the wait ends after [fuel] sleeps with the last
    read error wrapped. *)
Lemma waitReady_never_readable (fuel : nat) :
  forall (retry : nat) (err : error) (h : host),
    (forall j, (j < fuel)%nat -> exists derr, read_debuglog e (retry + j) = inl derr) ->
    exists last,
      waitReady e targetPath fuel retry err h
      = (Some (ErrWrap ("failed to enable target for " +:+ targetPath) last),
         Nat.iter fuel (sleep_us 20000) h)
      /\ (fuel = 0%nat -> last = err)
      /\ (forall n, fuel = S n -> read_debuglog e (retry + n) = inl last).
Proof.
  induction fuel as [|fuel IH]; intros retry err h Hall.
  - exists err. simpl.
    split; [reflexivity|split; [reflexivity|intros n Hn; discriminate]].
  - simpl. destruct (Hall 0%nat ltac:(lia)) as [derr Hd].
    rewrite Nat.add_0_r in Hd. rewrite Hd.
    destruct (IH (S retry) derr (sleep_us 20000 h)) as [last [Hw [H0 HS]]].
    + intros j Hj. destruct (Hall (S j) ltac:(lia)) as [d' Hd'].
      exists d'. now replace (S retry + j)%nat with (retry + S j)%nat by lia.
    + exists last. split; [|split].
      * rewrite Hw. f_equal. symmetry.
        apply (Nat.iter_succ_r fuel (sleep_us 20000) h).
      * discriminate.
      * intros n [= <-]. destruct fuel as [|m].
        -- rewrite (H0 eq_refl). now rewrite Nat.add_0_r.
        -- specialize (HS m eq_refl).
           now replace (retry + S m)%nat with (S retry + m)%nat by lia.
Qed.

End Readiness.

(** C4 (as the code has it).  The readiness wait of the attach reads the
    debug-log file at most 1000 times and sleeps 20 ms after each read that
    fails, 20 s at most.  The first read that returns a content decides at
    once: the wait succeeds exactly when that content is [success], and any
    other content, the empty one included, is a fatal error that carries
    the content verbatim.  Only an unreadable file is retried; when all
    1000 reads fail the wait ends in an error that wraps the last read
    error, after 20 s of sleep. *)
Theorem waitReady_polling
        (e : Overlaybd.env) (targetPath : string) (h : Overlaybd.host) :
  let out := Overlaybd.waitReady e targetPath Overlaybd.retryTimes 0
               (ErrMsg "timeout") h in
  Overlaybd.retryTimes = 1000%nat
  /\
  (forall (i : nat) (data : string),
      (i < 1000)%nat ->
      (forall j, (j < i)%nat -> exists derr, Overlaybd.read_debuglog e j = inl derr) ->
      Overlaybd.read_debuglog e i = inr data ->
      (fst out = None <-> data = "success")
      /\ (data <> "success" ->
          fst out = Some (ErrMsg ("failed to enable target for " +:+ targetPath
                                    +:+ ": " +:+ data)))
      /\ Overlaybd.journal (snd out)
         = Overlaybd.journal h ++ repeat (Overlaybd.EvSleepUs 20000) i
      /\ Journal.slept (Overlaybd.journal (snd out))
         = (Journal.slept (Overlaybd.journal h) + 20000 * Z.of_nat i)%Z)
  /\
  ((forall j, (j < 1000)%nat -> exists derr, Overlaybd.read_debuglog e j = inl derr) ->
   exists last,
     Overlaybd.read_debuglog e 999 = inl last
     /\ fst out = Some (ErrWrap ("failed to enable target for " +:+ targetPath) last)
     /\ Journal.slept (Overlaybd.journal (snd out))
        = (Journal.slept (Overlaybd.journal h) + 20000000)%Z).
Proof.
  cbv zeta.
  assert (Hrt : Overlaybd.retryTimes = 1000%nat) by reflexivity.
  split; [exact Hrt|]. rewrite Hrt. split.
  - intros i data Hi Hbefore Hread.
    rewrite (waitReady_first_readable e targetPath i 1000 0
               (ErrMsg "timeout") h data Hi Hbefore Hread).
    cbn [fst snd]. unfold Overlaybd.verdict.
    rewrite journal_sleeps, slept_app, slept_repeat.
    repeat split.
    + destruct (String.eqb data "success") eqn:E; [|discriminate].
      intros _. now apply String.eqb_eq.
    + intros ->. reflexivity.
    + intros Hne. apply String.eqb_neq in Hne. now rewrite Hne.
  - intros Hall.
    destruct (waitReady_never_readable e targetPath 1000 0 (ErrMsg "timeout") h Hall)
      as [last [Hw [_ HS]]].
    exists last. rewrite Hw. cbn [fst snd].
    rewrite journal_sleeps, slept_app, slept_repeat.
    split; [apply (HS 999%nat eq_refl)|]. split; [reflexivity|]. reflexivity.
Qed.

Lemma waitReady_polling_witness :
  let out := Overlaybd.waitReady Fixtures.env_ok Scenarios.target_128
               Overlaybd.retryTimes 0 (ErrMsg "timeout") Fixtures.host_empty in
  fst out = None
  /\ Journal.slept (Overlaybd.journal (snd out)) = 40000%Z.
Proof.
  cbv zeta.
  destruct (waitReady_polling Fixtures.env_ok Scenarios.target_128
              Fixtures.host_empty) as [_ [H _]].
  destruct (H 2%nat "success") as [Hok [_ [_ Hslept]]].
  - lia.
  - intros j Hj. exists (ErrSys "ENOENT").
    destruct j as [|[|j]]; [reflexivity|reflexivity|lia].
  - reflexivity.
  - split; [now apply Hok|]. rewrite Hslept. reflexivity.
Defined.

(** C4 (as stated) fails.  The readiness file is empty at the first poll
    and holds [success] from the second poll on.  The statement has the
    empty content retried, so the wait would succeed at the second poll; the
    code fails the attach at the first poll, with an error whose text ends
    in the empty content, without sleeping or reading again. *)
Lemma attach_fails_on_empty_debuglog :
  let e := Scenarios.env_empty_then_success in
  let out := Overlaybd.waitReady e Scenarios.target_128 Overlaybd.retryTimes 0
               (ErrMsg "timeout") Fixtures.host_empty in
  Overlaybd.read_debuglog e 0 = inr ""
  /\ Overlaybd.read_debuglog e 1 = inr "success"
  /\ fst out
     = Some (ErrMsg ("failed to enable target for " +:+ Scenarios.target_128 +:+ ": "))
  /\ snd out = Fixtures.host_empty
  /\ fst (Overlaybd.doOverlayBD e "/r/snapshots/128" "128" Fixtures.host_empty)
     = Err (ErrMsg ("failed to enable target for " +:+ Scenarios.target_128 +:+ ": ")).
Proof.
  cbv zeta. split; [|split; [|split; [|split]]]; vm_compute; reflexivity.
Qed.

(** ** The merge converter's arguments *)

Section MergeArgs.

Import Overlaybd.

Lemma statParents_all (h : host) (parentPaths : list string) :
  (forall p, In p parentPaths ->
             exists_path h (GoPath.Join [p; tmpTarIndex]) = true) ->
  statParents h parentPaths
  = (true, map (fun p => GoPath.Join [p; tmpTarIndex]) parentPaths).
Proof.
  induction parentPaths as [|p rest IH]; intros Hall; simpl.
  - reflexivity.
  - rewrite (Hall p (or_introl eq_refl)).
    rewrite IH by (intros q Hq; apply Hall; now right). reflexivity.
Qed.

(** Putting each pair in front reverses the parents. *)
Lemma fold_prepend (l : list string) (acc : list string) :
  fold_left (fun args parentPath => ["--meta"; parentPath] ++ args) l acc
  = flat_map (fun p => ["--meta"; p]) (rev l) ++ acc.
Proof.
  revert acc; induction l as [|p l IH]; intros acc; simpl.
  - reflexivity.
  - rewrite IH. rewrite flat_map_app. simpl.
    rewrite <- app_assoc. reflexivity.
Qed.

Lemma flat_map_map_meta (l : list string) :
  flat_map (fun p => ["--meta"; p])
           (map (fun p => GoPath.Join [p; tmpTarIndex]) l)
  = Chain.meta_args l.
Proof.
  induction l as [|p l IH]; simpl; [reflexivity|]. now rewrite IH.
Qed.

Lemma mergeArgs_reversed (snDir : string) (parentPaths : list string) :
  mergeArgs snDir (map (fun p => GoPath.Join [p; tmpTarIndex]) parentPaths)
  = Chain.meta_args (rev parentPaths) ++ ["--workdir"; GoPath.Join [snDir; "tmp"]].
Proof.
  unfold mergeArgs. rewrite fold_prepend, <- map_rev, flat_map_map_meta.
  reflexivity.
Qed.

End MergeArgs.

(** C5 (as the code has it).  When every parent directory holds a
    [layer.tar.meta], [ActiveMount] first runs the merge converter with one
    [--meta <parent>/layer.tar.meta] pair per parent, the parents in the
    reverse of the order they were passed in (the last parent of the chain
    comes first), followed by [--workdir <layer dir>/tmp].  If the converter
    fails, [ActiveMount] fails with that error and does nothing more;
    otherwise it goes on with the attach steps. *)
Theorem ActiveMount_merge_invocation
        (e : Overlaybd.env) (snDir id parentDir : string)
        (parentPaths : list string) (h : Overlaybd.host) :
  (forall p, In p parentPaths ->
             Overlaybd.exists_path h (GoPath.Join [p; Overlaybd.tmpTarIndex]) = true) ->
  let args := Chain.meta_args (rev parentPaths)
              ++ ["--workdir"; GoPath.Join [snDir; "tmp"]] in
  let invoked := Overlaybd.record (Overlaybd.EvExec Overlaybd.ConverterMergeBinary args) h in
  Overlaybd.ActiveMount e snDir id parentDir parentPaths h
  = match Overlaybd.exec e Overlaybd.ConverterMergeBinary args with
    | Some err => (Err (ErrWrap "failed to merge image file" err), invoked)
    | None => Overlaybd.attachSteps e snDir id parentDir invoked
    end.
Proof.
  intros Hall. cbv zeta. unfold Overlaybd.ActiveMount.
  rewrite (statParents_all h parentPaths Hall). cbn [fst snd].
  rewrite mergeArgs_reversed. unfold Overlaybd.Exec.
  now destruct (Overlaybd.exec e _ _).
Qed.

Lemma ActiveMount_merge_invocation_witness :
  Journal.commands
    (Overlaybd.journal
       (snd (Overlaybd.ActiveMount Fixtures.env_ok "/r/snapshots/3" "3"
               "/r/snapshots/2" Chain.parents Chain.host_two_parents)))
  = [ (Overlaybd.ConverterMergeBinary,
       ["--meta"; "/r/snapshots/1/layer.tar.meta";
        "--meta"; "/r/snapshots/2/layer.tar.meta";
        "--workdir"; "/r/snapshots/3/tmp"]);
      ("/bin/bash",
       ["-c"; "/opt/overlaybd/bin/overlaybd-create -s /r/snapshots/3/.data_file /r/snapshots/3/.data_index 256 "]) ].
Proof.
  rewrite (ActiveMount_merge_invocation Fixtures.env_ok "/r/snapshots/3" "3"
             "/r/snapshots/2" Chain.parents Chain.host_two_parents).
  - vm_compute. reflexivity.
  - intros p [<-|[<-|[]]]; vm_compute; reflexivity.
Defined.

(** C5 (as stated) fails.  With two parents, both holding a
    [layer.tar.meta], the converter's [--meta] arguments name the second
    parent before the first: the argument list is not the one with the
    parents in the order of the chain as passed in. *)
Lemma ActiveMount_meta_order_reversed :
  let out := Overlaybd.ActiveMount Fixtures.env_ok "/r/snapshots/3" "3"
               "/r/snapshots/2" Chain.parents Chain.host_two_parents in
  is_ok (fst out) = true
  /\ (forall p, In p Chain.parents ->
                Overlaybd.exists_path Chain.host_two_parents
                  (GoPath.Join [p; Overlaybd.tmpTarIndex]) = true)
  /\ hd_error (Journal.commands (Overlaybd.journal (snd out)))
     = Some (Overlaybd.ConverterMergeBinary,
             ["--meta"; "/r/snapshots/1/layer.tar.meta";
              "--meta"; "/r/snapshots/2/layer.tar.meta";
              "--workdir"; "/r/snapshots/3/tmp"])
  /\ hd_error (Journal.commands (Overlaybd.journal (snd out)))
     <> Some (Overlaybd.ConverterMergeBinary,
              Chain.meta_args Chain.parents ++ ["--workdir"; "/r/snapshots/3/tmp"]).
Proof.
  cbv zeta. split; [|split; [|split]].
  - vm_compute. reflexivity.
  - intros p [<-|[<-|[]]]; vm_compute; reflexivity.
  - vm_compute. reflexivity.
  - vm_compute. discriminate.
Qed.

(** ** Failed attach and residue *)

(** A failure late in the attach, at the symlink, is fully undone: link,
    lun, tpgt and loopback node are removed, the service is signalled and
    gone, and the target directory is removed last. *)
Lemma attach_failure_at_symlink_is_undone :
  let out := Overlaybd.doOverlayBD Residue.env_symlink_fails "/r/snapshots/128"
               "128" Fixtures.host_empty in
  is_err (fst out) = true
  /\ Residue.absent "128" (snd out) = true
  /\ Journal.signals (Overlaybd.journal (snd out)) = [("128", Overlaybd.SIGINT)].
Proof. cbv zeta. repeat split; vm_compute; reflexivity. Qed.

(** The detach, run on what the failed attach below leaves, reaches the
    Absent state: it removes the loopback node the attach left. *)
Lemma detach_reaches_absent :
  let left := snd (Overlaybd.doOverlayBD Scenarios.env_tpgt_fails
                     "/r/snapshots/128" "128" Fixtures.host_empty) in
  let out := Overlaybd.Cleanup Scenarios.env_tpgt_fails "128" left in
  fst out = Ok tt /\ Residue.absent "128" (snd out) = true.
Proof. cbv zeta. split; vm_compute; reflexivity. Qed.

(** C3, at the failing input.  The loopback node directory is made, then
    making [tpgt_1] below it fails.  The attach returns the error, removes
    the target-core directory and signals the service, but the loopback
    node [naa.1990000000000128] is still there: the clean-up of the
    loopback directories is registered only after the lun directory has
    been made. *)
Theorem attach_failure_leaves_loopback_node :
  let out := Overlaybd.doOverlayBD Scenarios.env_tpgt_fails "/r/snapshots/128"
               "128" Fixtures.host_empty in
  fst out
  = Err (ErrWrap ("failed to create loopback lun dir "
                    +:+ Scenarios.loopback_128 +:+ "/tpgt_1/lun/lun_0")
           (ErrSys "ENOMEM"))
  /\ Overlaybd.exists_path Fixtures.host_empty Scenarios.loopback_128 = false
  /\ Overlaybd.exists_path (snd out) Scenarios.loopback_128 = true
  /\ Residue.target_present "128" (snd out) = false
  /\ Residue.service_present "128" (snd out) = false
  /\ Residue.absent "128" (snd out) = false.
Proof. cbv zeta. repeat split; vm_compute; reflexivity. Qed.

(** ** The sparse backing file *)

Section BackingFile.

Import Sparsefile.

Variable e : env.

Ltac unfold_create :=
  unfold createImageFile, Defer.run, createImageFile_body, Defer.bind,
    Defer.call, Defer.defer, Defer.try, Defer.ret, TempFile.

(** The temp file is truncated to the size and renamed over the image. *)
Lemma createImageFile_ok (img : string) (size : Z) (h : host) (tmp : string) :
  tempfile e (GoPath.Dir img) = inr tmp ->
  files h !! tmp = None ->
  truncate e tmp size = None -> rename e tmp img = None ->
  exists h',
    createImageFile e img size h = (Ok tt, h')
    /\ files h' = <[img := size]> (files h)
    /\ mountpoints h' = mountpoints h
    /\ journal h'
       = journal h ++ [EvTempFile tmp; EvTruncate tmp size; EvRename tmp img].
Proof.
  intros Ht Hfresh Htr Hrn. unfold_create.
  rewrite Ht. cbn [fst snd]. unfold Truncate. rewrite Htr. cbn [fst snd].
  unfold Rename. rewrite Hrn. cbn [files record set_files].
  rewrite lookup_insert_eq. cbn [fst snd].
  eexists. split; [reflexivity|].
  cbn [files record set_files mountpoints journal].
  split; [|split; [reflexivity|]].
  - rewrite delete_insert_eq, delete_insert_eq. now rewrite delete_id.
  - rewrite <- !app_assoc. reflexivity.
Qed.

(** When the truncation or the rename fails, the error is returned and
    the temp file is removed again. *)
Lemma createImageFile_rollback (img : string) (size : Z) (h : host)
      (tmp : string) :
  tempfile e (GoPath.Dir img) = inr tmp ->
  files h !! tmp = None ->
  truncate e tmp size <> None \/ rename e tmp img <> None ->
  remove e tmp = None ->
  exists err h',
    createImageFile e img size h = (Err err, h')
    /\ files h' = files h
    /\ mountpoints h' = mountpoints h
    /\ last (journal h') = Some (EvRemove tmp).
Proof.
  intros Ht Hfresh Hfail Hrm. unfold_create.
  rewrite Ht. cbn [fst snd]. unfold Truncate.
  destruct (truncate e tmp size) as [terr|] eqn:Htr.
  - cbn [fst snd Defer.run_deferred fold_left]. unfold Remove. rewrite Hrm.
    eexists _, _. split; [reflexivity|].
    cbn [files record set_files mountpoints journal snd].
    split; [|split; [reflexivity|]].
    + rewrite delete_insert_eq. now rewrite delete_id.
    + now rewrite last_snoc.
  - destruct Hfail as [Hfail|Hfail]; [congruence|].
    cbn [fst snd]. unfold Rename.
    destruct (rename e tmp img) as [rerr|] eqn:Hrn; [|congruence].
    cbn [fst snd Defer.run_deferred fold_left]. unfold Remove. rewrite Hrm.
    eexists _, _. split; [reflexivity|].
    cbn [files record set_files mountpoints journal snd].
    split; [|split; [reflexivity|]].
    + rewrite delete_insert_eq, delete_insert_eq. now rewrite delete_id.
    + now rewrite last_snoc.
Qed.

Lemma nonempty_true (s : string) : s <> "" -> GoPath.nonempty s = true.
Proof. destruct s; [congruence|reflexivity]. Qed.

End BackingFile.

(** C6 (as the code has it).  [Setup(target, size, opts)] where [target]
    is not yet a mountpoint, [opts["base"]] is a non-empty directory and no
    [rw.img] exists in it.  The backing file is made by truncating a fresh
    temp file of that directory and renaming it over [rw.img]; it then has
    exactly [size] bytes when [size] is positive and the provider's default
    quota otherwise.  When the truncation or the rename fails, [Setup]
    fails, the temp file is removed and no [rw.img] is left. *)
Theorem Setup_creates_backing_file
        (e : Sparsefile.env) (q : Sparsefile.sparseFileQuota)
        (target : string) (size : Z) (opts : gmap string string)
        (h : Sparsefile.host) (base tmp : string) :
  target ∉ Sparsefile.mountpoints h ->
  opts !! "base" = Some base ->
  base <> "" ->
  let img := GoPath.Join [base; Sparsefile.sparseFileName] in
  Sparsefile.files h !! img = None ->
  Sparsefile.tempfile e (GoPath.Dir img) = inr tmp ->
  Sparsefile.files h !! tmp = None ->
  let bytes := if (size <=? 0)%Z then Sparsefile.defaultQuota q else size in
  let out := Sparsefile.Setup e q target size opts h in
  (Sparsefile.truncate e tmp bytes = None ->
   Sparsefile.rename e tmp img = None ->
   Sparsefile.files (snd out) = <[img := bytes]> (Sparsefile.files h)
   /\ exists tl,
       Sparsefile.journal (snd out)
       = Sparsefile.journal h
         ++ [Sparsefile.EvTempFile tmp; Sparsefile.EvTruncate tmp bytes;
             Sparsefile.EvRename tmp img] ++ tl)
  /\
  (Sparsefile.truncate e tmp bytes <> None \/ Sparsefile.rename e tmp img <> None ->
   Sparsefile.remove e tmp = None ->
   is_err (fst out) = true
   /\ Sparsefile.files (snd out) = Sparsefile.files h
   /\ last (Sparsefile.journal (snd out)) = Some (Sparsefile.EvRemove tmp)).
Proof.
  intros Hnm Hbase Hne img Himg Htmp Hfresh bytes out.
  assert (Hout : out = Sparsefile.Setup e q target size opts h) by reflexivity.
  unfold Sparsefile.Setup in Hout.
  assert (Hl : label_or_empty opts "base" = base)
    by (unfold label_or_empty; now rewrite Hbase).
  rewrite Hl, (nonempty_true base Hne) in Hout.
  rewrite (bool_decide_eq_false_2 _ Hnm) in Hout.
  fold img in Hout. rewrite Himg in Hout. fold bytes in Hout.
  split.
  - intros Htr Hrn.
    destruct (createImageFile_ok e img bytes h tmp Htmp Hfresh Htr Hrn)
      as [h' [Hc [Hf [Hm Hj]]]].
    rewrite Hc in Hout. unfold Sparsefile.formatImageFile in Hout.
    destruct (negb (String.eqb (Sparsefile.fsType q) "ext4")).
    + rewrite Hout. cbn [snd]. split; [exact Hf|]. exists []. now rewrite Hj.
    + destruct (Sparsefile.mkfs e _).
      * rewrite Hout. cbn [snd]. split; [exact Hf|]. exists []. now rewrite Hj.
      * unfold Sparsefile.mount in Hout.
        destruct (Sparsefile.mount_loop e img target); rewrite Hout; cbn [snd].
        -- split; [exact Hf|]. eexists [_].
           cbn [Sparsefile.journal Sparsefile.record]. rewrite Hj.
           now rewrite <- !app_assoc.
        -- split; [exact Hf|]. eexists [_; _].
           cbn [Sparsefile.journal Sparsefile.record Sparsefile.set_mountpoints].
           rewrite Hj. now rewrite <- !app_assoc.
  - intros Hfail Hrm.
    destruct (createImageFile_rollback e img bytes h tmp Htmp Hfresh Hfail Hrm)
      as [err [h' [Hc [Hf [Hm Hj]]]]].
    rewrite Hc in Hout. rewrite Hout. cbn [fst snd is_err]. auto.
Qed.

Lemma Setup_creates_backing_file_witness :
  let out := Sparsefile.Setup QuotaFixtures.env_ok QuotaFixtures.provider
               "/u/7/upper" 2147483648 (QuotaFixtures.opts_for "/u/7/upper")
               QuotaFixtures.host_empty in
  Sparsefile.files (snd out) !! "/u/7/upper/rw.img" = Some 2147483648%Z
  /\ is_err (fst (Sparsefile.Setup QuotaFixtures.env_rename_fails
                    QuotaFixtures.provider "/u/7/upper" 2147483648
                    (QuotaFixtures.opts_for "/u/7/upper")
                    QuotaFixtures.host_empty)) = true.
Proof.
  cbv zeta. split.
  - destruct (Setup_creates_backing_file QuotaFixtures.env_ok QuotaFixtures.provider
                "/u/7/upper" 2147483648 (QuotaFixtures.opts_for "/u/7/upper")
                QuotaFixtures.host_empty "/u/7/upper" "/u/7/upper/new-123")
      as [[Hfiles _] _].
    + vm_compute. intros H. discriminate H.
    + reflexivity.
    + discriminate.
    + reflexivity.
    + reflexivity.
    + reflexivity.
    + reflexivity.
    + reflexivity.
    + rewrite Hfiles. vm_compute. reflexivity.
  - destruct (Setup_creates_backing_file QuotaFixtures.env_rename_fails
                QuotaFixtures.provider
                "/u/7/upper" 2147483648 (QuotaFixtures.opts_for "/u/7/upper")
                QuotaFixtures.host_empty "/u/7/upper" "/u/7/upper/new-123")
      as [_ [Herr _]].
    + vm_compute. intros H. discriminate H.
    + reflexivity.
    + discriminate.
    + reflexivity.
    + reflexivity.
    + reflexivity.
    + right. discriminate.
    + reflexivity.
    + exact Herr.
Defined.

(** C6 (as stated) fails.  Called with size 0, the provider makes the
    backing file with its default quota, 10 GiB, not with [size] bytes. *)
Lemma Setup_size_zero_takes_default :
  let out := Sparsefile.Setup QuotaFixtures.env_ok QuotaFixtures.provider
               "/u/7/upper" 0 (QuotaFixtures.opts_for "/u/7/upper")
               QuotaFixtures.host_empty in
  fst out = Ok tt
  /\ Sparsefile.files (snd out) !! "/u/7/upper/rw.img" = Some 10737418240%Z
  /\ Sparsefile.files (snd out) !! "/u/7/upper/rw.img" <> Some 0%Z.
Proof.
  cbv zeta. split; [|split].
  - vm_compute. reflexivity.
  - vm_compute. reflexivity.
  - vm_compute. discriminate.
Qed.

(** Without the [base] option the file does not go to the directory of the
    target: the location is the last element of the target path, a relative
    name. *)
Lemma Setup_location_without_base :
  let out := Sparsefile.Setup QuotaFixtures.env_ok QuotaFixtures.provider
               "/u/7/upper" 2147483648 ∅ QuotaFixtures.host_empty in
  GoPath.Dir "/u/7/upper" = "/u/7"
  /\ Sparsefile.files (snd out) !! "/u/7/rw.img" = None
  /\ Sparsefile.files (snd out) !! "upper/rw.img" = Some 2147483648%Z.
Proof. cbv zeta. repeat split; vm_compute; reflexivity. Qed.

(** ** Paths of directory entries *)

Section EntryPaths.

Import GoPath Dirent.

Lemma append_assoc (a b c : string) : (a +:+ b) +:+ c = a +:+ (b +:+ c).
Proof.
  induction a as [|x a IH]; [reflexivity|].
  change (String x ((a +:+ b) +:+ c) = String x (a +:+ (b +:+ c))).
  now rewrite IH.
Qed.

Lemma append_cons (x : ascii) (a b : string) :
  String x a +:+ b = String x (a +:+ b).
Proof. reflexivity. Qed.

Lemma append_nil_l (a : string) : "" +:+ a = a.
Proof. reflexivity. Qed.

Lemma split_no_slash (n : string) :
  forall cur, no_slash n = true -> split_slash_aux cur n = [cur +:+ n].
Proof.
  induction n as [|c n IH]; intros cur H; simpl in *.
  - f_equal. induction cur as [|x cur IHc]; [reflexivity|].
    rewrite append_cons. now rewrite <- IHc at 1.
  - apply andb_prop in H as [Hc Hn].
    apply negb_true_iff in Hc. rewrite Hc.
    rewrite (IH _ Hn). f_equal. rewrite append_assoc. reflexivity.
Qed.

Lemma split_append_entry (a n : string) :
  forall cur,
    no_slash n = true ->
    split_slash_aux cur (a +:+ "/" +:+ n) = split_slash_aux cur a ++ [n].
Proof.
  induction a as [|c a IH]; intros cur Hn.
  - rewrite append_nil_l.
    change (split_slash_aux cur ("/" +:+ n))
      with (cur :: split_slash_aux "" n).
    now rewrite (split_no_slash n "" Hn).
  - rewrite append_cons. simpl.
    destruct (Ascii.eqb c slash).
    + now rewrite IH.
    + now rewrite IH.
Qed.

Lemma entry_name_parts (n : string) :
  entry_name n = true ->
  nonempty n = true /\ no_slash n = true
  /\ is_dot n = false /\ is_dotdot n = false.
Proof.
  unfold entry_name. intros H.
  apply andb_prop in H as [H H4]. apply andb_prop in H as [H H3].
  apply andb_prop in H as [H1 H2].
  apply negb_true_iff in H3, H4. auto.
Qed.

Lemma clean_components_entry (rooted : bool) (cs : list string) (n : string) :
  forall acc,
    entry_name n = true ->
    clean_components rooted acc (cs ++ [n])
    = clean_components rooted acc cs ++ [n].
Proof.
  induction cs as [|c cs IH]; intros acc Hn.
  - destruct (entry_name_parts n Hn) as [H1 [_ [H3 H4]]].
    simpl. rewrite H1, H3, H4. reflexivity.
  - simpl.
    destruct (negb (nonempty c) || is_dot c); [now apply IH|].
    destruct (is_dotdot c); [|now apply IH].
    destruct acc as [|top acc'].
    + destruct rooted; now apply IH.
    + destruct (is_dotdot top); now apply IH.
Qed.

Lemma join_with_snoc (l : list string) (n : string) :
  join_with "/" (l ++ [n])
  = match l with
    | [] => n
    | _ => join_with "/" l +:+ "/" +:+ n
    end.
Proof.
  induction l as [|x l IH]; [reflexivity|].
  change (join_with "/" ((x :: l) ++ [n]))
    with (join_with "/" (x :: (l ++ [n]))).
  destruct l as [|y l].
  - reflexivity.
  - change (join_with "/" (x :: (y :: l) ++ [n]))
      with (x +:+ "/" +:+ join_with "/" ((y :: l) ++ [n])).
    rewrite IH.
    change (join_with "/" (x :: y :: l))
      with (x +:+ "/" +:+ join_with "/" (y :: l)).
    now rewrite !append_assoc.
Qed.

(** A string that ends in [/n], or is [n] itself, has base name [n]. *)
Lemma Base_of_suffix (t n : string) :
  entry_name n = true -> Base (t +:+ "/" +:+ n) = n.
Proof.
  intros Hn. destruct (entry_name_parts n Hn) as [H1 [H2 _]].
  unfold Base.
  destruct (t +:+ "/" +:+ n) eqn:E.
  - destruct t; discriminate E.
  - rewrite <- E. unfold split_slash.
    rewrite (split_append_entry t n "" H2), rev_app_distr.
    simpl. now rewrite H1.
Qed.

Lemma Base_of_entry (n : string) : entry_name n = true -> Base n = n.
Proof.
  intros Hn. destruct (entry_name_parts n Hn) as [H1 [H2 _]].
  unfold Base. destruct n as [|c n]; [discriminate|].
  unfold split_slash. rewrite (split_no_slash _ "" H2). simpl. reflexivity.
Qed.

Lemma IsAbs_entry (n : string) : entry_name n = true -> IsAbs n = false.
Proof.
  intros Hn. destruct (entry_name_parts n Hn) as [H1 [H2 _]].
  destruct n as [|c n]; [discriminate|].
  simpl in H2. apply andb_prop in H2 as [Hc _]. apply negb_true_iff in Hc.
  unfold IsAbs, HasPrefix.
  change (String.prefix "/" (String c n))
    with (match Ascii.ascii_dec "/" c with
          | left _ => String.prefix "" n
          | right _ => false
          end).
  destruct (Ascii.ascii_dec "/" c) as [<-|Hne]; [|reflexivity].
  vm_compute in Hc. discriminate Hc.
Qed.

Lemma nonempty_append_r (a b : string) :
  nonempty b = true -> nonempty (a +:+ b) = true.
Proof. destruct a, b; simpl; auto. Qed.

Lemma Clean_unfold (p : string) :
  nonempty p = true ->
  Clean p
  = let body := join_with "/" (clean_components (IsAbs p) [] (split_slash p)) in
    if IsAbs p then "/" +:+ body
    else if nonempty body then body else ".".
Proof. destruct p; [discriminate|reflexivity]. Qed.

(** The cleaned path of an entry of [dir] ends in the entry's name. *)
Lemma Clean_entry (d n : string) :
  entry_name n = true ->
  Clean (d +:+ "/" +:+ n) = n
  \/ exists t, Clean (d +:+ "/" +:+ n) = t +:+ "/" +:+ n.
Proof.
  intros Hn. destruct (entry_name_parts n Hn) as [H1 [H2 _]].
  rewrite Clean_unfold by (apply nonempty_append_r; reflexivity).
  cbv zeta. unfold split_slash.
  rewrite (split_append_entry d n "" H2).
  rewrite (clean_components_entry _ _ n [] Hn).
  rewrite join_with_snoc.
  set (comps := clean_components (IsAbs (d +:+ "/" +:+ n)) []
                  (split_slash_aux "" d)).
  destruct (IsAbs (d +:+ "/" +:+ n)).
  - right. destruct comps as [|c comps'].
    + exists "". reflexivity.
    + exists ("/" +:+ join_with "/" (c :: comps')).
      now rewrite !append_assoc.
  - destruct comps as [|c comps'].
    + left. now rewrite H1.
    + right. exists (join_with "/" (c :: comps')).
      rewrite nonempty_append_r; [reflexivity|].
      apply nonempty_append_r. exact H1.
Qed.

Lemma Clean_of_entry (n : string) : entry_name n = true -> Clean n = n.
Proof.
  intros Hn. destruct (entry_name_parts n Hn) as [H1 [H2 [H3 H4]]].
  rewrite (Clean_unfold n H1). cbv zeta. rewrite (IsAbs_entry n Hn).
  unfold split_slash. rewrite (split_no_slash n "" H2).
  rewrite append_nil_l.
  cbn [clean_components]. rewrite H1, H3, H4.
  cbn [negb orb clean_components rev app join_with]. now rewrite H1.
Qed.

(** The base name of the path of an entry is the entry's name. *)
Lemma Base_Join_entry (d n : string) :
  entry_name n = true -> Base (Join [d; n]) = n.
Proof.
  intros Hn. destruct (entry_name_parts n Hn) as [H1 _].
  unfold Join.
  destruct d as [|c d].
  - cbn [filter nonempty]. 
    assert (Hf : filter (fun e => nonempty e = true) [""; n] = [n]).
    { cbn. rewrite decide_False by (cbn; discriminate).
      rewrite decide_True by exact H1. reflexivity. }
    rewrite Hf. destruct n as [|x n']; [discriminate|].
    cbn [join_with]. rewrite (Clean_of_entry _ Hn). now apply Base_of_entry.
  - assert (Hf : filter (fun e => nonempty e = true) [String c d; n]
                 = [String c d; n]).
    { cbn. rewrite decide_True by reflexivity.
      rewrite decide_True by exact H1. reflexivity. }
    rewrite Hf.
    change (join_with "/" [String c d; n]) with (String c d +:+ "/" +:+ n).
    destruct (Clean_entry (String c d) n Hn) as [E|[t E]]; rewrite E.
    + now apply Base_of_entry.
    + now apply Base_of_suffix.
Qed.

End EntryPaths.

(** ** Cleanup *)

Section CleanupFacts.

Import Overlay Dirent.

(** The loop of the source selects what the set description selects. *)
Lemma collect_orphans (ids : gmap string string) (dir : string)
      (names : list string) :
  forall cleanup,
    collect ids dir names cleanup = cleanup ++ orphans ids dir names.
Proof.
  induction names as [|n names IH]; intros cleanup; unfold orphans; simpl.
  - now rewrite app_nil_r.
  - destruct (has_label ids n); simpl.
    + apply IH.
    + rewrite IH. unfold orphans. now rewrite <- app_assoc.
Qed.

Lemma In_orphans (ids : gmap string string) (dir : string)
      (names : list string) (p : string) :
  In p (orphans ids dir names)
  <-> exists n, In n names /\ ids !! n = None /\ p = GoPath.Join [dir; n].
Proof.
  unfold orphans. rewrite in_map_iff. split.
  - intros [n [Hp Hn]]. apply filter_In in Hn as [Hin Hl].
    exists n. repeat split; auto.
    apply negb_true_iff in Hl. unfold has_label in Hl.
    apply bool_decide_eq_false in Hl.
    destruct (ids !! n) eqn:E; [|reflexivity]. exfalso. apply Hl. eauto.
  - intros [n [Hin [Hl Hp]]]. exists n. split; [auto|].
    apply filter_In. split; [exact Hin|].
    apply negb_true_iff. unfold has_label. rewrite Hl.
    apply bool_decide_eq_false. intros [x Hx]. discriminate.
Qed.

Lemma removed_app (a b : list call) : removed (a ++ b) = removed a ++ removed b.
Proof. unfold removed. apply flat_map_app. Qed.

Lemma removed_RemoveAll (l : list string) : removed (map CRemoveAll l) = l.
Proof. induction l as [|p l IH]; simpl; [reflexivity|]. now rewrite IH. Qed.

Lemma fold_RemoveAll (l : list string) :
  forall tr,
    fold_left (fun tr dir => tr ++ [CRemoveAll dir]) l tr
    = tr ++ map CRemoveAll l.
Proof.
  induction l as [|p l IH]; intros tr; simpl.
  - now rewrite app_nil_r.
  - rewrite IH. now rewrite <- app_assoc.
Qed.

(** [Cleanup] when the id map and both directories can be read. *)
Lemma Cleanup_trace (d : deps) (o : snapshotter)
      (ids : gmap string string) (dirs udirs : list string) :
  let snapshotDir := GoPath.Join [root o; "snapshots"] in
  let upperDir := GoPath.Join [defaultUpperDir o; "snapshots"] in
  begin_tx d true = None ->
  id_map d = inr ids ->
  open_dir d snapshotDir = None ->
  open_dir d upperDir = None ->
  readdirnames d upperDir = inr udirs ->
  readdirnames d snapshotDir = inr dirs ->
  Cleanup d o
  = (None,
     [CBegin true; CIDMap; COpen snapshotDir; COpen upperDir;
      CReaddirnames upperDir; CReaddirnames snapshotDir; CRollback]
     ++ map CRemoveAll (orphans ids snapshotDir dirs ++ orphans ids upperDir udirs)).
Proof.
  intros snapshotDir upperDir Hb Hi Ho1 Ho2 Hr1 Hr2.
  unfold Cleanup, cleanupDirectories. rewrite Hb.
  unfold Defer.run, getCleanupDirectories_body, Defer.bind, query, ask,
    Defer.call, Defer.try, Defer.ret.
  cbn [fst snd]. rewrite Hi. cbn [fst snd].
  fold snapshotDir. rewrite Ho1. cbn [fst snd].
  fold upperDir. rewrite Ho2. cbn [fst snd].
  rewrite Hr1. cbn [fst snd]. rewrite Hr2. cbn [fst snd].
  rewrite fold_RemoveAll, !collect_orphans. reflexivity.
Qed.

End CleanupFacts.

(** C7.  [Cleanup], when the id map and the two snapshot directories can
    be read, whose entries are directory entry names.  It returns nil and
    the paths it removes are exactly the entries of [<root>/snapshots] and
    of [<defaultUpperDir>/snapshots] whose names are not keys of the live id
    map: every such entry is removed, no entry whose name is a live id is
    removed, and nothing else is. *)
Theorem Cleanup_removes_exactly_orphans
        (d : Overlay.deps) (o : Overlay.snapshotter)
        (ids : gmap string string) (dirs udirs : list string) :
  let snapshotDir := GoPath.Join [Overlay.root o; "snapshots"] in
  let upperDir := GoPath.Join [Overlay.defaultUpperDir o; "snapshots"] in
  Overlay.begin_tx d true = None ->
  Overlay.id_map d = inr ids ->
  Overlay.open_dir d snapshotDir = None ->
  Overlay.open_dir d upperDir = None ->
  Overlay.readdirnames d upperDir = inr udirs ->
  Overlay.readdirnames d snapshotDir = inr dirs ->
  (forall n, In n (dirs ++ udirs) -> Dirent.entry_name n = true) ->
  let out := Overlay.Cleanup d o in
  fst out = None
  /\ Overlay.removed (snd out)
     = Dirent.orphans ids snapshotDir dirs ++ Dirent.orphans ids upperDir udirs
  /\ (forall p,
         In p (Overlay.removed (snd out))
         <-> (exists n, In n dirs /\ ids !! n = None
                        /\ p = GoPath.Join [snapshotDir; n])
             \/ (exists n, In n udirs /\ ids !! n = None
                           /\ p = GoPath.Join [upperDir; n]))
  /\ (forall dir n,
         (dir = snapshotDir /\ In n dirs) \/ (dir = upperDir /\ In n udirs) ->
         is_Some (ids !! n) ->
         ~ In (GoPath.Join [dir; n]) (Overlay.removed (snd out))).
Proof.
  intros snapshotDir upperDir Hb Hi Ho1 Ho2 Hr1 Hr2 Hnames out.
  assert (Hout : out = Overlay.Cleanup d o) by reflexivity.
  rewrite (Cleanup_trace d o ids dirs udirs Hb Hi Ho1 Ho2 Hr1 Hr2) in Hout.
  fold snapshotDir upperDir in Hout.
  assert (Hrem : Overlay.removed (snd out)
                 = Dirent.orphans ids snapshotDir dirs
                   ++ Dirent.orphans ids upperDir udirs).
  { rewrite Hout. cbn [snd]. rewrite removed_app, removed_RemoveAll.
    reflexivity. }
  assert (Hiff : forall p,
             In p (Overlay.removed (snd out))
             <-> (exists n, In n dirs /\ ids !! n = None
                            /\ p = GoPath.Join [snapshotDir; n])
                 \/ (exists n, In n udirs /\ ids !! n = None
                               /\ p = GoPath.Join [upperDir; n])).
  { intros p. rewrite Hrem, in_app_iff, !In_orphans. reflexivity. }
  split; [now rewrite Hout|]. split; [exact Hrem|]. split; [exact Hiff|].
  intros dir n Hwhere [v Hlive] Hin.
  assert (Hn : Dirent.entry_name n = true).
  { apply Hnames. apply in_app_iff. destruct Hwhere as [[_ H]|[_ H]]; auto. }
  apply Hiff in Hin.
  assert (Hsame : forall dir' n', In n' (dirs ++ udirs) -> ids !! n' = None ->
                                  GoPath.Join [dir; n] = GoPath.Join [dir'; n'] -> False).
  { intros dir' n' Hin' Hdead Heq.
    apply (f_equal GoPath.Base) in Heq.
    rewrite (Base_Join_entry dir n Hn) in Heq.
    rewrite (Base_Join_entry dir' n' (Hnames n' Hin')) in Heq.
    subst n'. congruence. }
  destruct Hin as [[n' [Hin' [Hdead Heq]]]|[n' [Hin' [Hdead Heq]]]].
  - apply (Hsame snapshotDir n'); auto. apply in_app_iff. now left.
  - apply (Hsame upperDir n'); auto. apply in_app_iff. now right.
Qed.

Lemma Cleanup_removes_exactly_orphans_witness :
  Overlay.removed
    (snd (Overlay.Cleanup (OverlayFixtures.deps_ok (false, None) None)
            OverlayFixtures.sn))
  = ["/r/snapshots/9"; "/r/snapshots/new-4711"; "/u/snapshots/8"].
Proof.
  assert (Hnames : forall n, In n (["1"; "2"; "9"; "new-4711"] ++ ["3"; "8"]) ->
                             Dirent.entry_name n = true).
  { intros n Hn. cbn in Hn.
    repeat (destruct Hn as [<-|Hn]; [reflexivity|]). destruct Hn. }
  destruct (Cleanup_removes_exactly_orphans
              (OverlayFixtures.deps_ok (false, None) None) OverlayFixtures.sn
              (<["1" := "base"]> (<["2" := "img"]> (<["3" := "run"]> ∅)))
              ["1"; "2"; "9"; "new-4711"] ["3"; "8"]
              eq_refl eq_refl eq_refl eq_refl eq_refl eq_refl Hnames)
    as [_ [H _]].
  rewrite H. vm_compute. reflexivity.
Defined.

(** ** Prepare and the skip-fetch commit *)

Section PrepareFacts.

Import Overlay.

(** A successful [Commit] made every call up to the store's commit of
    the layer under [name] and the commit of its transaction. *)
Lemma Commit_ok_trace (d : deps) (o : snapshotter) (name key : string)
      (tr : list call) :
  fst (Commit d o name key tr) = None ->
  exists id info usage,
    get_info d key = inr (id, info, usage)
    /\ snd (Commit d o name key tr)
       = tr ++ [CBegin true; CGetInfo key;
                CDiskUsage (fsPath o (Some info) id key);
                CDriverCommit (fsPath o (Some info) id key);
                CCommitActive key name; CCommitTx].
Proof.
  unfold Commit.
  destruct (begin_tx d true); [discriminate|].
  destruct (get_info d key) as [e|[[id info] usage]]; [discriminate|].
  destruct (disk_usage d _); [discriminate|].
  destruct (driver_commit d _); [discriminate|].
  destruct (commit_active d key name); [discriminate|].
  cbn [fst snd]. intros _. exists id, info, usage.
  split; [reflexivity|]. now rewrite <- !app_assoc.
Qed.

End PrepareFacts.

(** C2.  A [Prepare] call whose transaction opens, whose options apply and
    whose [prepareLower] succeeds.  When the driver's pre-process reports
    [skipFetch = true], [Prepare] calls [Commit] with the name found under
    the [snapshot.ref] label and the layer's key; once that commit has
    succeeded (the store committed the layer under that name) [Prepare]
    returns the [AlreadyExists] sentinel and no mount list, and when the
    commit fails it returns that failure, wrapped.  When the pre-process
    reports [skipFetch = false], [Prepare] commits its transaction and
    returns the mount list [prepareLower] produced; a failing transaction
    commit is returned, wrapped. *)
Theorem Prepare_skipFetch
        (d : Overlay.deps) (o : Overlay.snapshotter) (key parent : string)
        (opts : list Overlay.Opt) (base : Overlay.Info) (s : Overlay.Snapshot)
        (parentDir : string) (mounts : list Mount.Mount) :
  Overlay.begin_tx d true = None ->
  Overlay.apply_opts opts Overlay.zeroInfo = inr base ->
  Overlay.prepare_lower d Overlay.KindActive key parent false base
  = inr (s, parentDir, mounts) ->
  let snapshotDir := Overlay.fsPath o (Some base) (Overlay.ID s) key in
  let labels := Overlay.labels_of base in
  let name := label_or_empty labels Overlay.labelSnapshotRef in
  let before := [Overlay.CBegin true;
                 Overlay.CPrepareLower Overlay.KindActive key parent false;
                 Overlay.CPreProcess snapshotDir parentDir parent labels] in
  let committed := Overlay.Commit d o name key before in
  (Overlay.pre_process d snapshotDir parentDir parent labels = (true, None) ->
   (fst committed = None ->
    Overlay.Prepare d o key parent opts
    = (Err ErrAlreadyExists, snd committed ++ [Overlay.CRollback])
    /\ In (Overlay.CCommitActive key name) (snd committed)
    /\ In Overlay.CCommitTx (snd committed))
   /\ (forall err, fst committed = Some err ->
                   Overlay.Prepare d o key parent opts
                   = (Err (ErrWrap ("failed to commit layer " +:+ key) err),
                      snd committed ++ [Overlay.CRollback])))
  /\
  (Overlay.pre_process d snapshotDir parentDir parent labels = (false, None) ->
   (Overlay.commit_tx d = None ->
    Overlay.Prepare d o key parent opts
    = (Ok mounts, before ++ [Overlay.CCommitTx]))
   /\ (forall err, Overlay.commit_tx d = Some err ->
                   Overlay.Prepare d o key parent opts
                   = (Err (ErrWrap "failed to commit layer" err),
                      before ++ [Overlay.CCommitTx; Overlay.CRollback]))).
Proof.
  intros Hb Ho Hp snapshotDir labels name before committed.
  assert (Hrun : forall pp,
             Overlay.pre_process d snapshotDir parentDir parent labels = (pp, None) ->
             Overlay.Prepare d o key parent opts
             = if pp then
                 match committed with
                 | (None, tr) => (Err ErrAlreadyExists, tr ++ [Overlay.CRollback])
                 | (Some err, tr) =>
                     (Err (ErrWrap ("failed to commit layer " +:+ key) err),
                      tr ++ [Overlay.CRollback])
                 end
               else
                 match Overlay.commit_tx d with
                 | None => (Ok mounts, before ++ [Overlay.CCommitTx])
                 | Some err =>
                     (Err (ErrWrap "failed to commit layer" err),
                      before ++ [Overlay.CCommitTx; Overlay.CRollback])
                 end).
  { intros pp Hpp.
    unfold Overlay.Prepare, Defer.run, Overlay.Prepare_body, Defer.bind,
      Overlay.ask, Overlay.query, Overlay.log, Defer.try, Defer.call,
      Defer.lift, Defer.ret, Defer.fail, Defer.defer.
    cbn [fst snd]. rewrite Hb, Ho. cbn [fst snd]. rewrite Hp. cbn [fst snd].
    fold snapshotDir labels. rewrite Hpp. cbn [fst snd].
    subst committed before name. cbn [app fst snd].
    destruct pp.
    - destruct (Overlay.Commit d o _ key _) as [[err|] tr]; reflexivity.
    - destruct (Overlay.commit_tx d); cbn [fst snd]; reflexivity. }
  split; intros Hpp; rewrite (Hrun _ Hpp); split.
  - intros Hc.
    destruct (Commit_ok_trace d o name key before Hc) as [id [info [u [_ Htr]]]].
    fold committed in Htr.
    destruct committed as [[err|] tr]; [discriminate|].
    cbn [snd] in *. split; [reflexivity|]. rewrite Htr.
    split; apply in_or_app; right; simpl; auto 10.
  - intros err Hc. destruct committed as [[err'|] tr]; [|discriminate].
    cbn [fst snd] in *. now inversion Hc.
  - intros Hc. now rewrite Hc.
  - intros err Hc. now rewrite Hc.
Qed.

Lemma Prepare_skipFetch_witness :
  fst (Overlay.Prepare (OverlayFixtures.deps_ok (true, None) None)
         OverlayFixtures.sn "k1" ""
         [Overlay.WithLabels OverlayFixtures.remote_labels])
  = Err ErrAlreadyExists
  /\ In (Overlay.CCommitActive "k1" "img")
        (snd (Overlay.Prepare (OverlayFixtures.deps_ok (true, None) None)
                OverlayFixtures.sn "k1" ""
                [Overlay.WithLabels OverlayFixtures.remote_labels]))
  /\ fst (Overlay.Prepare (OverlayFixtures.deps_ok (false, None) None)
            OverlayFixtures.sn "k1" ""
            [Overlay.WithLabels Fixtures.labels_plain_oci])
     = Ok (OverlayFixtures.scratch_mount "/r/snapshots/3").
Proof.
  destruct (Prepare_skipFetch (OverlayFixtures.deps_ok (true, None) None)
              OverlayFixtures.sn "k1" ""
              [Overlay.WithLabels OverlayFixtures.remote_labels]
              _ _ _ _ eq_refl eq_refl eq_refl) as [[H1 _] _]; [reflexivity|].
  destruct H1 as [Hr [Hin _]]; [reflexivity|].
  destruct (Prepare_skipFetch (OverlayFixtures.deps_ok (false, None) None)
              OverlayFixtures.sn "k1" ""
              [Overlay.WithLabels Fixtures.labels_plain_oci]
              _ _ _ _ eq_refl eq_refl eq_refl) as [_ [H2 _]]; [reflexivity|].
  split; [|split].
  - rewrite Hr. reflexivity.
  - rewrite Hr. cbn [snd]. apply in_or_app. left. exact Hin.
  - rewrite H2; reflexivity.
Defined.

(** ** Active and Mounts *)

Section ActiveMounts.

Import Overlay.

Variable o : snapshotter.



Ltac unfold_body :=
  unfold Defer.run, Defer.bind, ask, query, log, attempt, Defer.try,
    Defer.call, Defer.lift, Defer.ret, Defer.fail, Defer.panic, Defer.defer.


End ActiveMounts.

Section LayerPaths.

Import GoPath.








End LayerPaths.

Section ActiveWorld.

Import Overlay.

Variable o : snapshotter.




End ActiveWorld.



(** ** The active quota *)

Section ActiveQuota.

Import Overlay.

Variable d : deps.
Variable o : snapshotter.

Ltac unfold_body :=
  unfold Defer.run, Defer.bind, ask, query, log, log_all, attempt, Defer.try,
    Defer.call, Defer.lift, Defer.ret, Defer.fail, Defer.panic, Defer.defer.

Lemma getActiveQuota_panics (info : Info) (labels : gmap string string)
      (q : string) :
  Labels info = Some labels ->
  labels !! SnapshotterLabelOverlayActiveQuota = Some q ->
  parse_quantity d q = None ->
  getActiveQuota d info = Panic ("cannot parse '" +:+ q +:+ "'").
Proof.
  intros Hl Hq Hp. unfold getActiveQuota. now rewrite Hl, Hq, Hp.
Qed.

(** An error from [getActiveQuota] comes with size -1 and means that the
    label is absent or that the quantity is out of range. *)
Lemma getActiveQuota_error (info : Info) (v : Z) (err : error) :
  getActiveQuota d info = Ok (v, Some err) ->
  v = (-1)%Z
  /\ (Labels info = None
      \/ (exists labels,
             Labels info = Some labels
             /\ labels !! SnapshotterLabelOverlayActiveQuota = None)
      \/ (exists labels q s,
             Labels info = Some labels
             /\ labels !! SnapshotterLabelOverlayActiveQuota = Some q
             /\ parse_quantity d q = Some s
             /\ (s < MinActiveQuota \/ MaxActiveQuota < s)%Z)).
Proof.
  unfold getActiveQuota.
  destruct (Labels info) as [labels|] eqn:Hl.
  - destruct (labels !! SnapshotterLabelOverlayActiveQuota) as [q|] eqn:Hq.
    + destruct (parse_quantity d q) as [s|] eqn:Hp; [|discriminate].
      destruct ((s <? MinActiveQuota)%Z || (MaxActiveQuota <? s)%Z) eqn:Hr;
        [|discriminate].
      intros [= <- _]. split; [reflexivity|]. right. right.
      exists labels, q, s. repeat split; auto.
      apply orb_true_iff in Hr as [Hr|Hr]; apply Z.ltb_lt in Hr; lia.
    + intros [= <- _]. split; [reflexivity|]. right. left. eauto.
  - intros [= <- _]. split; [reflexivity|]. now left.
Qed.

Lemma prepareUpperDir_panics (target fsDir workDir : string) (info : Info)
      (msg : string) :
  getActiveQuota d info = Panic msg ->
  mkdir_all d target = None -> mkdir_all d fsDir = None ->
  mkdir_all d workDir = None ->
  fst (prepareUpperDir d o target fsDir workDir info) = Panic msg.
Proof.
  intros Hq H1 H2 H3. unfold prepareUpperDir, prepareUpperDir_body.
  unfold_body. cbn [fst snd]. rewrite H1. cbn [fst snd].
  rewrite H2. cbn [fst snd]. rewrite H3. cbn [fst snd]. now rewrite Hq.
Qed.

Lemma Active_panics (key parent : string) (opts : list Opt) (info : Info)
      (s : Snapshot) (parentDir : string) (lowerMount : list Mount.Mount)
      (msg : string) :
  getActiveQuota d info = Panic msg ->
  begin_tx d true = None ->
  parent <> "" ->
  apply_opts (opts ++ [WithLabels (<["rwlayer" := "true"]> ∅)]) zeroInfo
  = inr info ->
  prepare_lower d KindActive key parent true info
  = inr (s, parentDir, lowerMount) ->
  (let upperDir := upperPath o (Some info) (ID s) key in
   mkdir_all d upperDir = None
   /\ mkdir_all d (GoPath.Join [upperDir; "fs"]) = None
   /\ mkdir_all d (GoPath.Join [upperDir; "work"]) = None) ->
  fst (Active d o key parent opts) = Panic msg.
Proof.
  intros Hq Hb Hpar Ho Hp [H1 [H2 H3]].
  unfold Active, Active_body, prepareUpperDir_body. unfold_body.
  cbn [fst snd]. rewrite Hb. cbn [fst snd].
  rewrite (nonempty_true parent Hpar). cbn [negb fst snd].
  rewrite Ho. cbn [fst snd]. rewrite Hp. cbn [fst snd].
  rewrite H1. cbn [fst snd]. rewrite H2. cbn [fst snd].
  rewrite H3. cbn [fst snd]. now rewrite Hq.
Qed.

Lemma Remove_panics (key id : string) (info : Info) (usage : Usage)
      (msg : string) :
  getActiveQuota d info = Panic msg ->
  begin_tx d true = None ->
  get_info d key = inr (id, info, usage) ->
  (stat d (lowerPath o (Some info) id key) = true ->
   unmount d (lowerPath o (Some info) id key) = None) ->
  driver_cleanup d id = None ->
  fst (Remove d o key) = Panic msg.
Proof.
  intros Hq Hb Hg Hu Hc. unfold Remove. rewrite Hb, Hg.
  unfold Remove_body. unfold_body. cbn [fst snd].
  rewrite Hb. cbn [fst snd]. rewrite Hg. cbn [fst snd].
  destruct (stat d (lowerPath o (Some info) id key)) eqn:Hs; cbn [fst snd].
  - rewrite (Hu eq_refl). cbn [fst snd]. rewrite Hc. cbn [fst snd].
    now rewrite Hq.
  - rewrite Hc. cbn [fst snd]. now rewrite Hq.
Qed.

(** When [getActiveQuota] returns an error, [prepareUpperDir] makes no
    call to the quota provider. *)
Lemma prepareUpperDir_no_quota (target fsDir workDir : string) (info : Info)
      (v : Z) (err : error) :
  getActiveQuota d info = Ok (v, Some err) ->
  forall t sz op,
    ~ In (CQuotaSetup t sz op)
         (snd (prepareUpperDir d o target fsDir workDir info)).
Proof.
  intros Hq t sz op.
  destruct (getActiveQuota_error info v err Hq) as [-> _].
  unfold prepareUpperDir, prepareUpperDir_body. unfold_body.
  cbn [fst snd]. rewrite Hq. cbn [fst snd].
  rewrite andb_false_r.
  destruct (mkdir_all d target); cbn [fst snd app];
    [intros [H|[]]; discriminate|].
  destruct (mkdir_all d fsDir); cbn [fst snd app];
    [intros [H|[H|[]]]; discriminate|].
  destruct (mkdir_all d workDir); cbn [fst snd app];
    [intros [H|[H|[H|[]]]]; discriminate|].
  intros [H|[H|[H|[H|[H|[]]]]]]; discriminate.
Qed.

End ActiveQuota.

(** C10.  A snapshot whose active-quota label is present and is not a
    valid quantity.  [getActiveQuota] panics on it instead of returning an
    error, and so does every call that reaches it: [prepareUpperDir] once
    its directories are made, [Active] once the lower layer is prepared and
    the upper directories are made, [Remove] once the row is read, the
    lower directory unmounted and the driver cleaned up.  An error, as
    opposed to a panic, is returned by [getActiveQuota] only when the label
    is absent or the quantity parses and lies outside [1 GiB, 64 TiB]; the
    size is then -1 and [prepareUpperDir] does not call the quota
    provider. *)
Theorem invalid_quota_label_panics
        (d : Overlay.deps) (o : Overlay.snapshotter) :
  (forall (info : Overlay.Info) (labels : gmap string string) (q : string),
      Overlay.Labels info = Some labels ->
      labels !! Overlay.SnapshotterLabelOverlayActiveQuota = Some q ->
      Overlay.parse_quantity d q = None ->
      exists msg,
        Overlay.getActiveQuota d info = Panic msg
        /\ (forall target fsDir workDir,
               Overlay.mkdir_all d target = None ->
               Overlay.mkdir_all d fsDir = None ->
               Overlay.mkdir_all d workDir = None ->
               fst (Overlay.prepareUpperDir d o target fsDir workDir info)
               = Panic msg)
        /\ (forall key parent opts s parentDir lowerMount,
               Overlay.begin_tx d true = None ->
               parent <> "" ->
               Overlay.apply_opts
                 (opts ++ [Overlay.WithLabels (<["rwlayer" := "true"]> ∅)])
                 Overlay.zeroInfo = inr info ->
               Overlay.prepare_lower d Overlay.KindActive key parent true info
               = inr (s, parentDir, lowerMount) ->
               (let upperDir := Overlay.upperPath o (Some info) (Overlay.ID s) key in
                Overlay.mkdir_all d upperDir = None
                /\ Overlay.mkdir_all d (GoPath.Join [upperDir; "fs"]) = None
                /\ Overlay.mkdir_all d (GoPath.Join [upperDir; "work"]) = None) ->
               fst (Overlay.Active d o key parent opts) = Panic msg)
        /\ (forall key id usage,
               Overlay.begin_tx d true = None ->
               Overlay.get_info d key = inr (id, info, usage) ->
               (Overlay.stat d (Overlay.lowerPath o (Some info) id key) = true ->
                Overlay.unmount d (Overlay.lowerPath o (Some info) id key) = None) ->
               Overlay.driver_cleanup d id = None ->
               fst (Overlay.Remove d o key) = Panic msg))
  /\
  (forall (info : Overlay.Info) (v : Z) (err : error),
      Overlay.getActiveQuota d info = Ok (v, Some err) ->
      v = (-1)%Z
      /\ (Overlay.Labels info = None
          \/ (exists labels,
                 Overlay.Labels info = Some labels
                 /\ labels !! Overlay.SnapshotterLabelOverlayActiveQuota = None)
          \/ (exists labels q s,
                 Overlay.Labels info = Some labels
                 /\ labels !! Overlay.SnapshotterLabelOverlayActiveQuota = Some q
                 /\ Overlay.parse_quantity d q = Some s
                 /\ (s < Overlay.MinActiveQuota \/ Overlay.MaxActiveQuota < s)%Z))
      /\ (forall target fsDir workDir t sz op,
             ~ In (Overlay.CQuotaSetup t sz op)
                  (snd (Overlay.prepareUpperDir d o target fsDir workDir info)))).
Proof.
  split.
  - intros info labels q Hl Hq Hp.
    exists ("cannot parse '" +:+ q +:+ "'").
    pose proof (getActiveQuota_panics d info labels q Hl Hq Hp) as Hpanic.
    split; [exact Hpanic|]. split; [|split].
    + intros target fsDir workDir. now apply prepareUpperDir_panics.
    + intros key parent opts s parentDir lowerMount Hb Hpar Ho Hpl Hmk.
      now apply (Active_panics d o key parent opts info s parentDir lowerMount).
    + intros key id usage Hb Hg Hu Hc.
      now apply (Remove_panics d o key id info usage).
  - intros info v err Hq.
    destruct (getActiveQuota_error d info v err Hq) as [Hv Hwhy].
    split; [exact Hv|]. split; [exact Hwhy|].
    intros target fsDir workDir.
    now apply (prepareUpperDir_no_quota d o target fsDir workDir info v err).
Qed.

Lemma invalid_quota_label_panics_witness :
  let d := OverlayFixtures.deps_ok (false, None)
             (Overlay.Labels ActiveFixtures.bad_info) in
  Overlay.getActiveQuota d ActiveFixtures.bad_info = Panic "cannot parse 'lots'"
  /\ fst (Overlay.Remove d OverlayFixtures.sn "run") = Panic "cannot parse 'lots'"
  /\ fst (Overlay.Active d OverlayFixtures.sn "run" "base"
            [Overlay.WithLabels (OverlayFixtures.quota_labels "lots")])
     = Panic "cannot parse 'lots'"
  /\ (exists err,
         Overlay.getActiveQuota d
           (OverlayFixtures.stored (Some (OverlayFixtures.quota_labels "512Mi")))
         = Ok ((-1)%Z, Some err)).
Proof.
  cbv zeta.
  destruct (invalid_quota_label_panics
              (OverlayFixtures.deps_ok (false, None)
                 (Overlay.Labels ActiveFixtures.bad_info))
              OverlayFixtures.sn) as [Hbad Hrange].
  destruct (Hbad ActiveFixtures.bad_info
              (<["rwlayer" := "true"]> (OverlayFixtures.quota_labels "lots"))
              "lots" eq_refl eq_refl eq_refl) as [msg [Hq [_ [_ Hrm]]]].
  assert (Hmsg : msg = "cannot parse 'lots'").
  { vm_compute in Hq. now inversion Hq. }
  subst msg. split; [exact Hq|]. split.
  - apply (Hrm "run" "3" {| Overlay.USize := 0; Overlay.Inodes := 0 |});
      reflexivity.
  - split.
    + destruct (Hbad
                  {| Overlay.IKind := Overlay.KindUnknown; Overlay.Name := "";
                     Overlay.Parent := "";
                     Overlay.Labels :=
                       Some (<["rwlayer" := "true"]> ∅
                             ∪ (OverlayFixtures.quota_labels "lots" ∪ ∅));
                     Overlay.Created := Overlay.Created Overlay.zeroInfo |}
                  (<["rwlayer" := "true"]> ∅
                   ∪ (OverlayFixtures.quota_labels "lots" ∪ ∅))
                  "lots" eq_refl) as [msg [Hq' [_ [Hact _]]]].
      * vm_compute. reflexivity.
      * reflexivity.
      * assert (Hmsg : msg = "cannot parse 'lots'").
        { vm_compute in Hq'. now inversion Hq'. }
        subst msg.
        apply (Hact "run" "base"
                 [Overlay.WithLabels (OverlayFixtures.quota_labels "lots")]
                 ActiveFixtures.row "/r/snapshots/2" OverlayFixtures.lower_mount).
        -- reflexivity.
        -- discriminate.
        -- reflexivity.
        -- reflexivity.
        -- repeat split.
    + eexists. vm_compute. reflexivity.
Defined.

(* ===================================================================== *)
(** * Further properties of the driver *)
(* ===================================================================== *)

Section DriverHost.

Import Overlaybd.

Lemma paths_sleeps (us : Z) (n : nat) (h : host) :
  paths (Nat.iter n (sleep_us us) h) = paths h.
Proof. induction n as [|n IH]; [reflexivity|]. simpl. exact IH. Qed.

Lemma procs_sleeps (us : Z) (n : nat) (h : host) :
  procs (Nat.iter n (sleep_us us) h) = procs h.
Proof. induction n as [|n IH]; [reflexivity|]. simpl. exact IH. Qed.

Lemma slept_sleeps (us : Z) (n : nat) (h : host) :
  Journal.slept (journal (Nat.iter n (sleep_us us) h))
  = (Journal.slept (journal h) + us * Z.of_nat n)%Z.
Proof. now rewrite journal_sleeps, slept_app, slept_repeat. Qed.

Lemma under_refl (p : string) : under p p = true.
Proof. unfold under. now rewrite String.eqb_refl. Qed.

Lemma RemoveAll_ok (e : env) (p : string) (h : host) :
  removeall e p = None ->
  RemoveAll e p h
  = (None, set_paths h (filter (fun q => under p q = false) (paths h))).
Proof. intros H. unfold RemoveAll. now rewrite H. Qed.

Lemma not_in_removed (p q : string) (X : gset string) :
  under p q = true -> q ∉ filter (fun q => under p q = false) X.
Proof. intros Hu Hin. apply elem_of_filter in Hin as [Hf _]. congruence. Qed.

Lemma slept_record_exec (bin : string) (args : list string) (h : host) :
  Journal.slept (journal (record (EvExec bin args) h)) = Journal.slept (journal h).
Proof. cbn [record journal]. rewrite slept_app. simpl. lia. Qed.

Lemma slept_record_signal (a : string) (b : Z) (h : host) :
  Journal.slept (journal (record (EvSignal a b) h)) = Journal.slept (journal h).
Proof. cbn [record journal]. rewrite slept_app. simpl. lia. Qed.

Lemma slept_sleep_us (us : Z) (h : host) :
  Journal.slept (journal (sleep_us us h)) = (Journal.slept (journal h) + us)%Z.
Proof. unfold sleep_us. cbn [record journal]. rewrite slept_app. simpl. lia. Qed.

Lemma signals_record_exec (bin : string) (args : list string) (h : host) :
  Journal.signals (journal (record (EvExec bin args) h))
  = Journal.signals (journal h).
Proof.
  cbn [record journal]. unfold Journal.signals. rewrite flat_map_app.
  simpl. now rewrite app_nil_r.
Qed.

Lemma signals_record_signal (a : string) (b : Z) (h : host) :
  Journal.signals (journal (record (EvSignal a b) h))
  = Journal.signals (journal h) ++ [(a, b)].
Proof. cbn [record journal]. unfold Journal.signals. now rewrite flat_map_app. Qed.

Lemma signals_sleep_us (us : Z) (h : host) :
  Journal.signals (journal (sleep_us us h)) = Journal.signals (journal h).
Proof.
  unfold sleep_us. cbn [record journal]. unfold Journal.signals.
  rewrite flat_map_app. simpl. now rewrite app_nil_r.
Qed.

(** The rounds of the wait in [killProcess]. *)
Lemma paths_polls (id : string) (n : nat) (h : host) :
  paths (Nat.iter n (poll_service id) h) = paths h.
Proof. induction n as [|n IH]; [reflexivity|]. simpl. exact IH. Qed.

Lemma procs_polls (id : string) (n : nat) (h : host) :
  procs (Nat.iter n (poll_service id) h) = procs h.
Proof. induction n as [|n IH]; [reflexivity|]. simpl. exact IH. Qed.

Lemma cfgs_polls (id : string) (n : nat) (h : host) :
  cfgs (Nat.iter n (poll_service id) h) = cfgs h.
Proof. induction n as [|n IH]; [reflexivity|]. simpl. exact IH. Qed.

Lemma slept_poll_service (id : string) (h : host) :
  Journal.slept (journal (poll_service id h)) = (Journal.slept (journal h) + 20)%Z.
Proof.
  unfold poll_service, bash. now rewrite slept_sleep_us, slept_record_exec.
Qed.

Lemma signals_poll_service (id : string) (h : host) :
  Journal.signals (journal (poll_service id h)) = Journal.signals (journal h).
Proof.
  unfold poll_service, bash. now rewrite signals_sleep_us, signals_record_exec.
Qed.

Lemma slept_polls (id : string) (n : nat) (h : host) :
  Journal.slept (journal (Nat.iter n (poll_service id) h))
  = (Journal.slept (journal h) + 20 * Z.of_nat n)%Z.
Proof.
  induction n as [|n IH]; [simpl; lia|].
  change (Nat.iter (S n) (poll_service id) h)
    with (poll_service id (Nat.iter n (poll_service id) h)).
  rewrite slept_poll_service, IH. lia.
Qed.

Lemma signals_polls (id : string) (n : nat) (h : host) :
  Journal.signals (journal (Nat.iter n (poll_service id) h))
  = Journal.signals (journal h).
Proof.
  induction n as [|n IH]; [reflexivity|].
  change (Nat.iter (S n) (poll_service id) h)
    with (poll_service id (Nat.iter n (poll_service id) h)).
  now rewrite signals_poll_service, IH.
Qed.

End DriverHost.

(** The journal, paths and processes of a host after steps that only
    add to the journal. *)
Ltac journal_norm :=
  unfold Overlaybd.bash;
  repeat first
    [ rewrite slept_record_exec | rewrite signals_record_exec
    | rewrite slept_record_signal | rewrite signals_record_signal
    | rewrite slept_polls | rewrite signals_polls
    | rewrite paths_polls | rewrite procs_polls | rewrite cfgs_polls
    | progress change (Overlaybd.journal (Overlaybd.set_procs ?x ?y))
        with (Overlaybd.journal x)
    | progress change (Overlaybd.paths (Overlaybd.set_procs ?x ?y))
        with (Overlaybd.paths x)
    | progress change (Overlaybd.procs (Overlaybd.set_procs ?x ?y)) with y
    | progress change (Overlaybd.paths (Overlaybd.record ?ev ?x))
        with (Overlaybd.paths x)
    | progress change (Overlaybd.procs (Overlaybd.record ?ev ?x))
        with (Overlaybd.procs x)
    | progress change (Overlaybd.cfgs (Overlaybd.record ?ev ?x))
        with (Overlaybd.cfgs x) ].


Section Detach.

Import Overlaybd.

Variable e : env.
Variable id wwn : string.
Hypothesis Hwwn : overlaybdLoopbackDeviceID id = Some wwn.
Hypothesis Hrm : forall p, removeall e p = None.







End Detach.



Section AttachShape.

Import Overlaybd Defer.

Lemma bind_Ok {A B : Type} (m : body (St := host) A) (k : A -> body B) s b s' :
  bind m k s = (Ok b, s') ->
  exists a s1, m s = (Ok a, s1) /\ k a s1 = (Ok b, s').
Proof.
  unfold bind. destruct (m s) as [[a|err|msg] s1]; intros H; try discriminate.
  now exists a, s1.
Qed.

Lemma try_Ok (f : host -> option error * host) wrap s (u : unit) s' :
  try f wrap s = (Ok u, s') -> f (fst s) = (None, fst s') /\ snd s' = snd s.
Proof.
  unfold try. destruct (f (fst s)) as [[err|] h']; intros H; inversion H; subst.
  now split.
Qed.

Lemma same_log_refl h : Driver.same_log h h.
Proof. now split. Qed.

Lemma same_log_trans h1 h2 h3 : Driver.same_log h1 h2 -> Driver.same_log h2 h3 -> Driver.same_log h1 h3.
Proof. intros [A B] [C D]. split; congruence. Qed.

Lemma same_log_write p data h : Driver.same_log h (record (EvWrite p data) h).
Proof.
  split; cbn [record journal].
  - rewrite slept_app. simpl. lia.
  - unfold Journal.signals. rewrite flat_map_app. simpl. now rewrite app_nil_r.
Qed.

Lemma mkdir_chain_log e ps : forall h err h',
  mkdir_chain e ps h = (err, h') -> journal h' = journal h /\ procs h' = procs h.
Proof.
  induction ps as [|p ps IH]; intros h err h' H; simpl in H.
  - inversion H; subst. now split.
  - destruct (exists_path h p); [now apply IH in H|].
    destruct (mkdir e p); [inversion H; subst; now split|].
    apply IH in H. exact H.
Qed.

Lemma MkdirAll_log e p h err h' :
  MkdirAll e p h = (err, h') -> Driver.same_log h h' /\ procs h' = procs h.
Proof.
  intros H. apply mkdir_chain_log in H as [Hj Hp]. split; [|exact Hp].
  split; now rewrite Hj.
Qed.

Lemma RemoveAll_log e p h err h' :
  RemoveAll e p h = (err, h') -> Driver.same_log h h' /\ procs h' = procs h.
Proof.
  unfold RemoveAll. destruct (removeall e p); intros H; inversion H; subst;
    (split; [split; reflexivity|reflexivity]).
Qed.

Lemma WriteFile_log e p data h err h' :
  WriteFile e p data h = (err, h') -> Driver.same_log h h' /\ procs h' = procs h.
Proof.
  unfold WriteFile. destruct (write_file e p data); intros H; inversion H; subst.
  - split; [split; reflexivity|reflexivity].
  - split; [|reflexivity]. apply (same_log_write p data (set_paths h ({[p]} ∪ paths h))).
Qed.

Lemma Symlink_log e t l h err h' :
  Symlink e t l h = (err, h') -> Driver.same_log h h' /\ procs h' = procs h.
Proof.
  unfold Symlink. destruct (symlink e t l); intros H; inversion H; subst;
    (split; [split; reflexivity|reflexivity]).
Qed.

Lemma signals_sleeps us n h :
  Journal.signals (journal (Nat.iter n (sleep_us us) h)) = Journal.signals (journal h).
Proof.
  rewrite journal_sleeps. unfold Journal.signals. rewrite flat_map_app.
  replace (flat_map _ (repeat (EvSleepUs us) n)) with (@nil (string * Z)).
  - now rewrite app_nil_r.
  - induction n; simpl; auto.
Qed.

Lemma enableLoop_entered e snID tp fuel : forall retry err h h',
  enableLoop e snID tp fuel retry err h = (inr None, h') ->
  (fuel = 0%nat /\ err = None /\ h' = h)
  \/ exists i, (i < fuel)%nat /\ write_enable e (retry + i) = WOk
       /\ (forall j, (j < i)%nat -> write_enable e (retry + j) = WAgain)
       /\ Journal.slept (journal h') = (Journal.slept (journal h) + 50000 * Z.of_nat i)%Z
       /\ Journal.signals (journal h') = Journal.signals (journal h)
       /\ procs h' = (if service_spawns e then {[snID]} ∪ procs h else procs h).
Proof.
  induction fuel as [|fuel IH]; intros retry err h h' H; simpl in H.
  - left. inversion H; subst. now repeat split.
  - right. destruct (write_enable e retry) eqn:Hw.
    + inversion H; subst. exists 0%nat. rewrite Nat.add_0_r.
      split; [lia|]. split; [exact Hw|]. split; [intros j Hj; lia|].
      destruct (same_log_write (GoPath.PJoin [tp; "enable"]) "1" h) as [Hs Hg].
      destruct (service_spawns e); cbn [set_procs journal procs record] in *;
        (split; [rewrite Hs; lia|split; [exact Hg|reflexivity]]).
    + apply IH in H as [[_ [Habs _]]|[i [Hi [Hok [Hbefore [Hs [Hg Hp]]]]]]]; [discriminate|].
      exists (S i). split; [lia|]. split.
      { now replace (retry + S i)%nat with (S retry + i)%nat by lia. }
      split.
      { intros [|j] Hj; [now rewrite Nat.add_0_r|].
        replace (retry + S j)%nat with (S retry + j)%nat by lia. apply Hbefore. lia. }
      split.
      { rewrite Hs. unfold sleep_us. cbn [record journal]. rewrite slept_app. simpl. lia. }
      split; [|exact Hp].
      rewrite Hg. unfold sleep_us. cbn [record journal].
      unfold Journal.signals. rewrite flat_map_app. simpl. now rewrite app_nil_r.
    + discriminate.
Qed.

Lemma waitReady_None e tp fuel : forall retry err h h',
  waitReady e tp fuel retry err h = (None, h') ->
  exists i, (i < fuel)%nat /\ read_debuglog e (retry + i) = inr "success"
    /\ (forall j, (j < i)%nat -> exists derr, read_debuglog e (retry + j) = inl derr)
    /\ h' = Nat.iter i (sleep_us 20000) h.
Proof.
  induction fuel as [|fuel IH]; intros retry err h h' H; [simpl in H; discriminate|].
  simpl in H. destruct (read_debuglog e retry) as [derr|data] eqn:Hr.
  - apply IH in H. destruct H as [i [Hi [Hrd [Hbefore Hh]]]].
    exists (S i). split; [lia|]. split.
    { now replace (retry + S i)%nat with (S retry + i)%nat by lia. }
    split.
    { intros [|j] Hj; [exists derr; now rewrite Nat.add_0_r|].
      replace (retry + S j)%nat with (S retry + j)%nat by lia. apply Hbefore. lia. }
    rewrite Hh. symmetry. apply (Nat.iter_succ_r i).
  - destruct (String.eqb data "success") eqn:Hd; [|discriminate].
    apply String.eqb_eq in Hd. subst. inversion H; subst.
    exists 0%nat. rewrite Nat.add_0_r. repeat split; auto; try lia.
Qed.

Lemma probeLoop_Ok e fuel : forall retry lastErr h dev h',
  (0 < fuel)%nat ->
  probeLoop e fuel retry lastErr h = (Ok dev, h') ->
  exists i name rest, (i < fuel)%nat /\ readdir e (retry + i) = inr (name :: rest)
     /\ dev = "/dev/" +:+ name /\ h' = Nat.iter i (sleep_us 5000) h.
Proof.
  induction fuel as [|fuel IH]; intros retry lastErr h dev h' Hpos H; [lia|].
  simpl in H. destruct (readdir e retry) as [err|[|name rest]] eqn:Hr.
  - destruct fuel as [|fuel]; [simpl in H; discriminate|].
    apply IH in H; try lia. destruct H as [i [n [r [Hi [Hrd [Hd Hh]]]]]].
    exists (S i), n, r. split; [lia|]. split.
    { now replace (retry + S i)%nat with (S retry + i)%nat by lia. }
    split; [exact Hd|]. rewrite Hh. symmetry. apply (Nat.iter_succ_r i).
  - destruct fuel as [|fuel]; [simpl in H; discriminate|].
    apply IH in H; try lia. destruct H as [i [n [r [Hi [Hrd [Hd Hh]]]]]].
    exists (S i), n, r. split; [lia|]. split.
    { now replace (retry + S i)%nat with (S retry + i)%nat by lia. }
    split; [exact Hd|]. rewrite Hh. symmetry. apply (Nat.iter_succ_r i).
  - inversion H; subst. exists 0%nat, name, rest. rewrite Nat.add_0_r.
    repeat split; auto; lia.
Qed.

Lemma defer_Ok (c : cleanup (St := host)) s (u : unit) s' :
  defer c s = (Ok u, s') -> fst s' = fst s.
Proof. unfold defer. intros H. inversion H; subst. reflexivity. Qed.

Lemma same_log_procs_trans h1 h2 h3 :
  Driver.same_log h1 h2 /\ procs h2 = procs h1 ->
  Driver.same_log h2 h3 /\ procs h3 = procs h2 ->
  Driver.same_log h1 h3 /\ procs h3 = procs h1.
Proof.
  intros [A B] [C D]. split; [exact (same_log_trans _ _ _ A C)|congruence].
Qed.

End AttachShape.

(** X3.  What a successful attach has done.  When [doOverlayBD] returns a
    device, the enable write went through at some attempt [i] below 100,
    the debug log read [success] at some poll [j] below 1000, the block
    directory listed an entry at some listing [k] below 400, and the device
    is [/dev/] followed by the first name of that listing, so never the
    empty path.  The attach slept exactly 50 ms per enable retry, 20 ms per
    readiness poll and 5 ms per listing before those (less than 27 s in
    all), sent no signal, started at most the service of this layer, and
    the layer id had at most 13 characters. *)
Theorem doOverlayBD_success_trace
        (e : Overlaybd.env) (snDir snID : string) (h : Overlaybd.host) (dev : string) :
  let out := Overlaybd.doOverlayBD e snDir snID h in
  fst out = Ok dev ->
  exists (i j k : nat) (name : string) (rest : list string),
    (i < 100)%nat /\ (j < 1000)%nat /\ (k < 400)%nat
    /\ Overlaybd.write_enable e i = Overlaybd.WOk
    /\ Overlaybd.read_debuglog e j = inr "success"
    /\ Overlaybd.readdir e k = inr (name :: rest)
    /\ dev = "/dev/" +:+ name
    /\ Journal.slept (Overlaybd.journal (snd out))
       = (Journal.slept (Overlaybd.journal h)
          + 50000 * Z.of_nat i + 20000 * Z.of_nat j + 5000 * Z.of_nat k)%Z
    /\ Journal.signals (Overlaybd.journal (snd out))
       = Journal.signals (Overlaybd.journal h)
    /\ Overlaybd.procs (snd out)
       = (if Overlaybd.service_spawns e then {[snID]} ∪ Overlaybd.procs h
          else Overlaybd.procs h)
    /\ is_Some (Overlaybd.overlaybdLoopbackDeviceID snID).
Proof.
  cbv zeta. unfold Overlaybd.doOverlayBD, Defer.run.
  destruct (Overlaybd.doOverlayBD_body e snDir snID (h, [])) as [[d|err|msg] [h' ds]] eqn:Hb;
    cbn [fst snd]; intros H; inversion H; subst.
  unfold Overlaybd.doOverlayBD_body in Hb.
  apply bind_Ok in Hb as [u0 [s0 [Hmk Hb]]].
  apply bind_Ok in Hb as [u1 [s1 [Hd1 Hb]]].
  apply bind_Ok in Hb as [u2 [s2 [Hw1 Hb]]].
  apply bind_Ok in Hb as [u3 [s3 [Hw2 Hb]]].
  apply bind_Ok in Hb as [u4 [s4 [Hrm Hb]]].
  apply bind_Ok in Hb as [enabled [s5 [Hen Hb]]].
  apply bind_Ok in Hb as [u6 [s6 [Hd2 Hb]]].
  apply bind_Ok in Hb as [u7 [s7 [Hm Hb]]].
  apply bind_Ok in Hb as [u8 [s8 [Hw3 Hb]]].
  apply bind_Ok in Hb as [u9 [s9 [Hwait Hb]]].
  destruct (Overlaybd.overlaybdLoopbackDeviceID snID) as [wwn|] eqn:Hid;
    [|discriminate].
  apply bind_Ok in Hb as [u10 [s10 [Hmk2 Hb]]].
  apply bind_Ok in Hb as [u11 [s11 [Hmk3 Hb]]].
  apply bind_Ok in Hb as [u12 [s12 [Hd3 Hb]]].
  apply bind_Ok in Hb as [u13 [s13 [Hw4 Hb]]].
  apply bind_Ok in Hb as [u14 [s14 [Hsl Hb]]].
  apply bind_Ok in Hb as [u15 [s15 [Hd4 Hb]]].
  destruct (Overlaybd.read_address e) as [aerr|bytes]; [discriminate|].
  destruct (Overlaybd.probeLoop e Overlaybd.maxAttachAttempts 0 None (fst s15))
    as [r hp] eqn:Hprobe.
  inversion Hb; subst r h' ds. clear Hb.
  apply try_Ok in Hmk as [Hmk _]. apply MkdirAll_log in Hmk.
  apply defer_Ok in Hd1.
  apply try_Ok in Hw1 as [Hw1 _]. apply WriteFile_log in Hw1.
  apply try_Ok in Hw2 as [Hw2 _]. apply WriteFile_log in Hw2.
  apply try_Ok in Hrm as [Hrm _]. apply RemoveAll_log in Hrm.
  apply defer_Ok in Hd2.
  apply try_Ok in Hw3 as [Hw3 _]. apply WriteFile_log in Hw3.
  apply try_Ok in Hwait as [Hwait _]. apply waitReady_None in Hwait as [j [Hj [Hlog [_ Hh9]]]].
  apply try_Ok in Hmk2 as [Hmk2 _]. apply MkdirAll_log in Hmk2.
  apply try_Ok in Hmk3 as [Hmk3 _]. apply MkdirAll_log in Hmk3.
  apply defer_Ok in Hd3.
  apply try_Ok in Hw4 as [Hw4 _]. apply WriteFile_log in Hw4.
  apply try_Ok in Hsl as [Hsl _]. apply Symlink_log in Hsl.
  apply defer_Ok in Hd4.
  apply probeLoop_Ok in Hprobe as [k [name [rest [Hk [Hdir [Hdev Hhp]]]]]];
    [|unfold Overlaybd.maxAttachAttempts; lia].
  destruct (Overlaybd.enableLoop e snID (Overlaybd.overlaybdTargetPath snID) 100 0 None (fst s4))
    as [[eerr|en] he] eqn:Hloop; [discriminate|].
  inversion Hen; subst enabled s5. clear Hen.
  destruct en as [eerr|]; [discriminate|].
  unfold Defer.ret in Hm. inversion Hm; subst s7. clear Hm.
  apply enableLoop_entered in Hloop
    as [[Habs _]|[i [Hi [Hok [_ [Hsle [Hsig Hprocs]]]]]]]; [discriminate|].
  cbn [fst snd] in *.
  exists i, j, k, name, rest.
  unfold Driver.same_log in *.
  repeat match goal with Hc : _ /\ _ |- _ => destruct Hc end.
  subst hp. rewrite Hd4, Hd3, Hh9, Hd2, Hd1 in *.
  rewrite slept_sleeps, signals_sleeps, procs_sleeps in *.
  change Overlaybd.retryTimes with 1000%nat in Hj.
  change Overlaybd.maxAttachAttempts with 400%nat in Hk.
  repeat split; try assumption; try lia; try congruence; try (now eexists).
  destruct (Overlaybd.service_spawns e); congruence.
Qed.

Section AttachUndo.

Import Overlaybd Defer.

Context {St : Type}.

Lemma keeps_bind {A B : Type} (m : body (St := St) A) (k : A -> body B) :
  Driver.keeps_stack m -> (forall a, Driver.keeps_stack (k a)) -> Driver.keeps_stack (bind m k).
Proof.
  intros Hm Hk s. unfold bind. destruct (Hm s) as [pre Hpre].
  destruct (m s) as [[a|err|msg] s1]; cbn [snd] in *.
  - destruct (Hk a s1) as [pre' Hpre']. exists (pre' ++ pre).
    rewrite Hpre', Hpre. now rewrite app_assoc.
  - now exists pre.
  - now exists pre.
Qed.

Lemma keeps_try (f : St -> option error * St) wrap : Driver.keeps_stack (try f wrap).
Proof. intros s. unfold try. exists []. now destruct (f (fst s)) as [[err|] h']. Qed.

Lemma keeps_defer (c : cleanup (St := St)) : Driver.keeps_stack (defer c).
Proof. intros s. now exists [c]. Qed.

Lemma keeps_ret {A : Type} (a : A) : Driver.keeps_stack (ret (St := St) a).
Proof. intros s. now exists []. Qed.

Lemma keeps_fail {A : Type} (err : error) :
  Driver.keeps_stack (fail (St := St) (A := A) err).
Proof. intros s. now exists []. Qed.

Lemma keeps_panic {A : Type} (msg : string) :
  Driver.keeps_stack (panic (St := St) (A := A) msg).
Proof. intros s. now exists []. Qed.

Lemma keeps_enable e snID tp :
  Driver.keeps_stack (fun s => match enableLoop e snID tp 100 0 None (fst s) with
                        | (inl err, h') => (Err err, (h', snd s))
                        | (inr err, h') => (Ok err, (h', snd s))
                        end).
Proof.
  intros s. exists []. now destruct (enableLoop e snID tp 100 0 None (fst s)) as [[err|err] h'].
Qed.

Lemma keeps_probe e :
  Driver.keeps_stack (fun s => match probeLoop e maxAttachAttempts 0 None (fst s) with
                        | (r, h') => (r, (h', snd s))
                        end).
Proof.
  intros s. exists []. now destruct (probeLoop e maxAttachAttempts 0 None (fst s)).
Qed.

Lemma bind_try_ok {B : Type} (f : St -> option error * St) wrap
      (k : unit -> body B) s h1 :
  f (fst s) = (None, h1) -> bind (try f wrap) k s = k tt (h1, snd s).
Proof. intros H. unfold bind, try. now rewrite H. Qed.

Lemma bind_defer {B : Type} (c : cleanup (St := St)) (k : unit -> body B) s :
  bind (defer c) k s = k tt (fst s, c :: snd s).
Proof. reflexivity. Qed.

Lemma run_deferred_snoc (pre : list (cleanup (St := St))) c h :
  run_deferred (pre ++ [c]) h = c (run_deferred pre h).
Proof. unfold run_deferred. now rewrite fold_left_app. Qed.

Lemma stack_base {A : Type} (m : body (St := St) A) c h1 r h' ds :
  Driver.keeps_stack m -> m (h1, [c]) = (r, (h', ds)) -> exists pre, ds = pre ++ [c].
Proof.
  intros Hk H. destruct (Hk (h1, [c])) as [pre Hpre]. rewrite H in Hpre.
  now exists pre.
Qed.

End AttachUndo.

Ltac keeps_stack_tac :=
  repeat first
    [ apply keeps_bind; [|intros ?]
    | apply keeps_try | apply keeps_defer | apply keeps_ret
    | apply keeps_fail | apply keeps_panic | apply keeps_enable
    | apply keeps_probe
    | match goal with
      | |- Driver.keeps_stack (match ?x with _ => _ end) => destruct x
      end ].

(** X4.  A failed attach takes the target directory away again.  Once
    [MkdirAll] of the target-core directory has succeeded, every error
    return of [doOverlayBD], at whatever later step, ends with the removal
    of that directory: the removal is the first clean-up deferred, so it
    runs last, after all the others.  When that [RemoveAll] succeeds the
    directory is absent from the host the attach leaves. *)
Theorem doOverlayBD_failure_removes_target
        (e : Overlaybd.env) (snDir snID : string) (h : Overlaybd.host) :
  let targetPath := Overlaybd.overlaybdTargetPath snID in
  let out := Overlaybd.doOverlayBD e snDir snID h in
  fst (Overlaybd.MkdirAll e targetPath h) = None ->
  Overlaybd.removeall e targetPath = None ->
  is_err (fst out) = true ->
  Residue.target_present snID (snd out) = false.
Proof.
  cbv zeta. intros Hmk Hrm.
  destruct (Overlaybd.MkdirAll e (Overlaybd.overlaybdTargetPath snID) h) as [r h1] eqn:Hm.
  cbn [fst] in Hmk. subst r.
  unfold Overlaybd.doOverlayBD, Defer.run, Overlaybd.doOverlayBD_body.
  rewrite (bind_try_ok _ _ _ (h, []) h1 Hm). rewrite bind_defer. cbn [fst snd].
  match goal with
  | |- context [let (_, _) := ?X in _] =>
      destruct X as [r [h' ds]] eqn:HR
  end.
  apply stack_base in HR; [|keeps_stack_tac]. destruct HR as [pre Hpre].
  destruct r as [d|err|msg]; cbn [fst snd]; intros Herr; try discriminate Herr.
  subst ds. rewrite run_deferred_snoc.
  rewrite RemoveAll_ok by exact Hrm. cbn [snd].
  unfold Residue.target_present, Overlaybd.exists_path.
  cbn [Overlaybd.set_paths Overlaybd.paths].
  apply bool_decide_eq_false. apply not_in_removed, under_refl.
Qed.

Lemma doOverlayBD_success_trace_witness :
  fst (Overlaybd.doOverlayBD Fixtures.env_ok "/r/snapshots/128" "128"
         Fixtures.host_empty) = Ok "/dev/sdc"
  /\ exists (i j k : nat) (name : string) (rest : list string),
      (i < 100)%nat /\ (j < 1000)%nat /\ (k < 400)%nat
      /\ Overlaybd.write_enable Fixtures.env_ok i = Overlaybd.WOk
      /\ Overlaybd.read_debuglog Fixtures.env_ok j = inr "success"
      /\ Overlaybd.readdir Fixtures.env_ok k = inr (name :: rest)
      /\ "/dev/sdc" = "/dev/" +:+ name.
Proof.
  assert (Hok : fst (Overlaybd.doOverlayBD Fixtures.env_ok "/r/snapshots/128" "128"
                       Fixtures.host_empty) = Ok "/dev/sdc")
    by (vm_compute; reflexivity).
  split; [exact Hok|].
  destruct (doOverlayBD_success_trace Fixtures.env_ok "/r/snapshots/128" "128"
              Fixtures.host_empty "/dev/sdc" Hok)
    as [i [j [k [name [rest [Hi [Hj [Hk [He [Hl [Hr [Hd _]]]]]]]]]]]].
  exists i, j, k, name, rest. repeat split; assumption.
Defined.

Lemma doOverlayBD_failure_removes_target_witness :
  is_err (fst (Overlaybd.doOverlayBD Residue.env_symlink_fails "/r/snapshots/128"
                 "128" Fixtures.host_empty)) = true
  /\ Residue.target_present "128"
       (snd (Overlaybd.doOverlayBD Residue.env_symlink_fails "/r/snapshots/128"
               "128" Fixtures.host_empty)) = false.
Proof.
  assert (Herr : is_err (fst (Overlaybd.doOverlayBD Residue.env_symlink_fails
                                "/r/snapshots/128" "128" Fixtures.host_empty)) = true)
    by (vm_compute; reflexivity).
  split; [exact Herr|].
  apply (doOverlayBD_failure_removes_target Residue.env_symlink_fails
           "/r/snapshots/128" "128" Fixtures.host_empty);
    [vm_compute; reflexivity | reflexivity | exact Herr].
Defined.




Section LoopbackNames.

Import Overlaybd.

Lemma length_append (a b : string) :
  String.length (a +:+ b) = (String.length a + String.length b)%nat.
Proof. induction a as [|c a IH]; simpl; [reflexivity|]. now rewrite IH. Qed.

Lemma append_inv_head (a b c : string) : a +:+ b = a +:+ c -> b = c.
Proof.
  induction a as [|x a IH]; simpl; intros H; [exact H|].
  injection H as H. now apply IH.
Qed.

Lemma zeros_length (n : nat) :
  String.length (String.concat "" (repeat "0" n)) = n.
Proof.
  induction n as [|n IH]; [reflexivity|].
  destruct n as [|m]; [reflexivity|].
  change (String.concat "" (repeat "0" (S (S m))))
    with ("0" +:+ "" +:+ String.concat "" (repeat "0" (S m))).
  rewrite !length_append, IH. reflexivity.
Qed.

Lemma zeros_succ (n : nat) :
  String.concat "" (repeat "0" (S n)) = "0" +:+ String.concat "" (repeat "0" n).
Proof. destruct n as [|m]; reflexivity. Qed.

Lemma zeros_snoc (n : nat) :
  String.concat "" (repeat "0" n) +:+ "0" = String.concat "" (repeat "0" (S n)).
Proof.
  rewrite (zeros_succ n).
  induction n as [|n IH]; [reflexivity|].
  rewrite (zeros_succ n), append_assoc, IH. reflexivity.
Qed.

Lemma zeros_only (n : nat) (c : ascii) :
  In c (list_ascii_of_string (String.concat "" (repeat "0" n))) -> c = "0"%char.
Proof.
  induction n as [|n IH]; [intros []|].
  rewrite zeros_succ. simpl. intros [H|H]; [now symmetry|now apply IH].
Qed.

Lemma DeviceID_unfold (id : string) :
  (String.length id <= 13)%nat ->
  overlaybdLoopbackDeviceID id
  = Some ("naa.199" +:+ String.concat "" (repeat "0" (13 - String.length id)) +:+ id).
Proof.
  intros Hlen. unfold overlaybdLoopbackDeviceID, Repeat.
  destruct (13 - Z.of_nat (String.length id) <? 0)%Z eqn:Hneg;
    [apply Z.ltb_lt in Hneg; lia|].
  cbn [mbind option_bind].
  replace (Z.to_nat (13 - Z.of_nat (String.length id)))
    with (13 - String.length id)%nat by lia.
  reflexivity.
Qed.

End LoopbackNames.

(** X6.  The WWN of a layer.  For a layer id of at most 13 characters
    [overlaybdLoopbackDeviceID] is [naa.199], then zeros that pad the id to
    13 characters, then the id: 20 characters in all.  For a longer id the
    padding count is negative and [strings.Repeat] panics.  Two ids of the
    same length get different WWNs, but an id and the same id with a zero
    in front of it get the same one. *)
Theorem overlaybdLoopbackDeviceID_shape (id : string) :
  ((String.length id <= 13)%nat ->
   exists pad,
     Overlaybd.overlaybdLoopbackDeviceID id = Some ("naa.199" +:+ pad +:+ id)
     /\ String.length pad = (13 - String.length id)%nat
     /\ (forall c, In c (list_ascii_of_string pad) -> c = "0"%char)
     /\ String.length ("naa.199" +:+ pad +:+ id) = 20%nat)
  /\ ((13 < String.length id)%nat -> Overlaybd.overlaybdLoopbackDeviceID id = None)
  /\ (forall id', String.length id' = String.length id ->
                  (String.length id <= 13)%nat ->
                  Overlaybd.overlaybdLoopbackDeviceID id'
                  = Overlaybd.overlaybdLoopbackDeviceID id ->
                  id' = id)
  /\ ((String.length id < 13)%nat ->
      Overlaybd.overlaybdLoopbackDeviceID ("0" +:+ id)
      = Overlaybd.overlaybdLoopbackDeviceID id).
Proof.
  split; [|split; [|split]].
  - intros Hlen. exists (String.concat "" (repeat "0" (13 - String.length id))).
    split; [now apply DeviceID_unfold|].
    split; [apply zeros_length|]. split; [apply zeros_only|].
    rewrite !length_append, zeros_length. simpl. lia.
  - intros Hlen. unfold Overlaybd.overlaybdLoopbackDeviceID, Overlaybd.Repeat.
    destruct (13 - Z.of_nat (String.length id) <? 0)%Z eqn:Hneg; [reflexivity|].
    apply Z.ltb_ge in Hneg. lia.
  - intros id' Hsame Hlen Heq.
    rewrite (DeviceID_unfold id), (DeviceID_unfold id') in Heq by lia.
    rewrite Hsame in Heq. injection Heq as Heq.
    apply append_inv_head in Heq. now apply append_inv_head in Heq.
  - intros Hlen.
    rewrite (DeviceID_unfold id), (DeviceID_unfold ("0" +:+ id))
      by (try rewrite length_append; simpl; lia).
    f_equal. f_equal. rewrite length_append. cbn [String.length Nat.add].
    replace (13 - String.length id)%nat with (S (13 - S (String.length id))) by lia.
    rewrite <- zeros_snoc. now rewrite append_assoc.
Qed.

Lemma overlaybdLoopbackDeviceID_shape_witness :
  Overlaybd.overlaybdLoopbackDeviceID "00000000000128"
  = None
  /\ Overlaybd.overlaybdLoopbackDeviceID "0128"
     = Overlaybd.overlaybdLoopbackDeviceID "128".
Proof.
  destruct (overlaybdLoopbackDeviceID_shape "00000000000128") as [_ [Hlong _]].
  destruct (overlaybdLoopbackDeviceID_shape "128") as [_ [_ [_ Hzero]]].
  split; [apply Hlong; simpl; lia | apply Hzero; simpl; lia].
Defined.

Section Effects.

Import Overlaybd Defer.

Variable R : host -> host -> Prop.
Hypothesis R_refl : forall h, R h h.
Hypothesis R_trans : forall a b c, R a b -> R b c -> R a c.

Lemma steps_bind {A B : Type} (m : body (St := host) A) (k : A -> body B) :
  Driver.steps_by R m -> (forall a, Driver.steps_by R (k a)) -> Driver.steps_by R (bind m k).
Proof.
  intros Hm Hk h ds Hds. unfold bind. destruct (Hm h ds Hds) as [H1 H2].
  destruct (m (h, ds)) as [[a|err|msg] [h1 ds1]]; cbn [fst snd] in *.
  - destruct (Hk a h1 ds1 H2) as [H3 H4]. split; [|exact H4].
    exact (R_trans _ _ _ H1 H3).
  - now split.
  - now split.
Qed.

Lemma steps_try (f : host -> option error * host) wrap :
  (forall h, R h (snd (f h))) -> Driver.steps_by R (try f wrap).
Proof.
  intros Hf h ds Hds. unfold try. cbn [fst snd]. specialize (Hf h).
  destruct (f h) as [[err|] h']; cbn [fst snd] in *; now split.
Qed.

Lemma steps_defer (c : cleanup (St := host)) :
  (forall x, R x (c x)) -> Driver.steps_by R (defer c).
Proof.
  intros Hc h ds Hds. unfold defer. cbn [fst snd]. split; [apply R_refl|].
  now constructor.
Qed.

Lemma steps_ret {A : Type} (a : A) : Driver.steps_by R (ret a).
Proof. intros h ds Hds. now split. Qed.

Lemma steps_fail {A : Type} (err : error) : Driver.steps_by R (fail (A := A) err).
Proof. intros h ds Hds. now split. Qed.

Lemma steps_panic {A : Type} (msg : string) : Driver.steps_by R (panic (A := A) msg).
Proof. intros h ds Hds. now split. Qed.

Lemma run_deferred_by ds : Driver.cleanups_by R ds -> forall h, R h (run_deferred ds h).
Proof.
  induction 1 as [|c ds Hc _ IH]; intros h; [apply R_refl|].
  cbn [run_deferred fold_left]. exact (R_trans _ _ _ (Hc h) (IH (c h))).
Qed.

Lemma steps_run {A : Type} (m : body (St := host) A) h :
  Driver.steps_by R m -> R h (snd (run m h)).
Proof.
  intros Hm. unfold run. destruct (Hm h [] ltac:(constructor)) as [H1 H2].
  destruct (m (h, [])) as [[a|err|msg] [h1 ds1]]; cbn [fst snd] in *; try exact H1.
  exact (R_trans _ _ _ H1 (run_deferred_by ds1 H2 h1)).
Qed.

End Effects.

Section BodyEffects.

Import Overlaybd Defer.

Variable R : host -> host -> Prop.
Hypothesis R_refl : forall h, R h h.
Hypothesis R_trans : forall a b c, R a b -> R b c -> R a c.

Lemma body_bind {A B : Type} (m : body (St := host) A) (k : A -> body B) :
  Driver.body_by R m -> (forall a, Driver.body_by R (k a)) -> Driver.body_by R (bind m k).
Proof.
  intros Hm Hk s. unfold bind. specialize (Hm s).
  destruct (m s) as [[a|err|msg] s1]; cbn [fst snd] in *; try exact Hm.
  exact (R_trans _ _ _ Hm (Hk a s1)).
Qed.

Lemma body_try (f : host -> option error * host) wrap :
  (forall h, R h (snd (f h))) -> Driver.body_by R (try f wrap).
Proof.
  intros Hf s. unfold try. specialize (Hf (fst s)).
  destruct (f (fst s)) as [[err|] h']; cbn [fst snd] in *; exact Hf.
Qed.

Lemma body_defer (c : cleanup (St := host)) : Driver.body_by R (defer c).
Proof. intros s. unfold defer. cbn [fst snd]. apply R_refl. Qed.

Lemma body_ret {A : Type} (a : A) : Driver.body_by R (ret a).
Proof. intros s. apply R_refl. Qed.

Lemma body_fail {A : Type} (err : error) : Driver.body_by R (fail (A := A) err).
Proof. intros s. apply R_refl. Qed.

Lemma body_panic {A : Type} (msg : string) : Driver.body_by R (panic (A := A) msg).
Proof. intros s. apply R_refl. Qed.

(** A run that ends well has run no clean-up. *)
Lemma body_run_Ok {A : Type} (m : body (St := host) A) h (a : A) :
  Driver.body_by R m -> fst (run m h) = Ok a -> R h (snd (run m h)).
Proof.
  intros Hm. unfold run. specialize (Hm (h, [])).
  destruct (m (h, [])) as [[a'|err|msg] [h1 ds1]]; cbn [fst snd] in *;
    [intros _; exact Hm|discriminate|discriminate].
Qed.

End BodyEffects.

Section GrowEffects.

Import Overlaybd Defer.

Variable e : env.
Variable snID : string.
Variable P : event -> Prop.
Hypothesis P_write : forall p data, P (EvWrite p data).
Hypothesis P_sleep : forall us, P (EvSleepUs us).

Lemma grows_refl h : Driver.grows_by P snID h h.
Proof.
  split; [reflexivity|]. split; [set_solver|]. exists []. now rewrite app_nil_r.
Qed.

Lemma grows_trans a b c :
  Driver.grows_by P snID a b -> Driver.grows_by P snID b c -> Driver.grows_by P snID a c.
Proof.
  intros [C1 [P1 [l1 [J1 F1]]]] [C2 [P2 [l2 [J2 F2]]]].
  split; [congruence|]. split; [set_solver|].
  exists (l1 ++ l2). rewrite J2, J1, app_assoc. split; [reflexivity|].
  apply Forall_app. now split.
Qed.

Lemma grows_same h h' :
  cfgs h' = cfgs h -> procs h' = procs h -> journal h' = journal h ->
  Driver.grows_by P snID h h'.
Proof.
  intros C Q J. split; [exact C|]. split; [set_solver|].
  exists []. now rewrite app_nil_r.
Qed.

Lemma grows_record ev h : P ev -> Driver.grows_by P snID h (record ev h).
Proof.
  intros Hev. split; [reflexivity|]. split; [cbn; set_solver|].
  exists [ev]. split; [reflexivity|]. now repeat constructor.
Qed.

Lemma grows_sleeps us n h : Driver.grows_by P snID h (Nat.iter n (sleep_us us) h).
Proof.
  induction n as [|n IH]; [apply grows_refl|].
  cbn [Nat.iter]. apply (grows_trans _ _ _ IH).
  apply grows_record, P_sleep.
Qed.

Lemma grows_MkdirAll p h : Driver.grows_by P snID h (snd (MkdirAll e p h)).
Proof.
  unfold MkdirAll. generalize (ancestors p). intros ps. revert h.
  induction ps as [|q ps IH]; intros h; [apply grows_refl|].
  cbn [mkdir_chain]. destruct (exists_path h q); [apply IH|].
  destruct (mkdir e q); [apply grows_refl|].
  apply (grows_trans _ (set_paths h ({[q]} ∪ paths h))); [|apply IH].
  now apply grows_same.
Qed.

Lemma grows_RemoveAll p h : Driver.grows_by P snID h (snd (RemoveAll e p h)).
Proof.
  unfold RemoveAll. destruct (removeall e p); [apply grows_refl|].
  now apply grows_same.
Qed.

Lemma grows_WriteFile p data h : Driver.grows_by P snID h (snd (WriteFile e p data h)).
Proof.
  unfold WriteFile. destruct (write_file e p data); [apply grows_refl|].
  split; [reflexivity|]. split; [cbn; set_solver|].
  exists [EvWrite p data]. split; [reflexivity|]. repeat constructor. apply P_write.
Qed.

Lemma grows_Symlink t l h : Driver.grows_by P snID h (snd (Symlink e t l h)).
Proof.
  unfold Symlink. destruct (symlink e t l); [apply grows_refl|].
  now apply grows_same.
Qed.

Lemma grows_enableLoop tp fuel : forall retry err h,
  Driver.grows_by P snID h (snd (enableLoop e snID tp fuel retry err h)).
Proof.
  induction fuel as [|fuel IH]; intros retry err h; [apply grows_refl|].
  cbn [enableLoop]. destruct (write_enable e retry).
  - cbn [snd]. split; [now destruct (service_spawns e)|].
    split; [destruct (service_spawns e); cbn; set_solver|].
    exists [EvWrite (GoPath.PJoin [tp; "enable"]) "1"].
    split; [now destruct (service_spawns e)|]. repeat constructor. apply P_write.
  - apply (grows_trans _ (sleep_us 50000 h)); [|apply IH].
    apply (grows_sleeps 50000 1).
  - apply grows_refl.
Qed.

Lemma grows_waitReady tp fuel : forall retry err h,
  Driver.grows_by P snID h (snd (waitReady e tp fuel retry err h)).
Proof.
  induction fuel as [|fuel IH]; intros retry err h; [apply grows_refl|].
  cbn [waitReady]. destruct (read_debuglog e retry) as [derr|data].
  - apply (grows_trans _ (sleep_us 20000 h)); [|apply IH].
    apply (grows_sleeps 20000 1).
  - destruct (String.eqb data "success"); apply grows_refl.
Qed.

Lemma grows_probeLoop fuel : forall retry lastErr h,
  Driver.grows_by P snID h (snd (probeLoop e fuel retry lastErr h)).
Proof.
  induction fuel as [|fuel IH]; intros retry lastErr h.
  - cbn [probeLoop]. destruct lastErr; apply grows_refl.
  - cbn [probeLoop]. destruct (readdir e retry) as [err|[|dev rest]].
    + apply (grows_trans _ (sleep_us 5000 h)); [|apply IH].
      apply (grows_sleeps 5000 1).
    + apply (grows_trans _ (sleep_us 5000 h)); [|apply IH].
      apply (grows_sleeps 5000 1).
    + apply grows_refl.
Qed.

Lemma body_enable tp :
  Driver.body_by (Driver.grows_by P snID)
    (fun s => match enableLoop e snID tp 100 0 None (fst s) with
              | (inl err, h') => (Err err, (h', snd s))
              | (inr err, h') => (Ok err, (h', snd s))
              end).
Proof.
  intros s. cbn [fst snd].
  pose proof (grows_enableLoop tp 100 0 None (fst s)) as H.
  destruct (enableLoop e snID tp 100 0 None (fst s)) as [[err|err] h']; exact H.
Qed.

Lemma body_probe :
  Driver.body_by (Driver.grows_by P snID)
    (fun s => match probeLoop e maxAttachAttempts 0 None (fst s) with
              | (r, h') => (r, (h', snd s))
              end).
Proof.
  intros s. cbn [fst snd].
  pose proof (grows_probeLoop maxAttachAttempts 0 None (fst s)) as H.
  destruct (probeLoop e maxAttachAttempts 0 None (fst s)) as [r h']; exact H.
Qed.

(** The steps of the attach itself: writes and sleeps, whatever [P]
    allows besides. *)
Lemma doOverlayBD_body_grows snDir :
  Driver.body_by (Driver.grows_by P snID) (doOverlayBD_body e snDir snID).
Proof.
  unfold doOverlayBD_body.
  repeat first
    [ apply (body_bind (Driver.grows_by P snID) grows_trans); [|intros ?]
    | apply body_try; intros ?
    | apply (body_defer (Driver.grows_by P snID) grows_refl)
    | apply (body_ret (Driver.grows_by P snID) grows_refl)
    | apply (body_fail (Driver.grows_by P snID) grows_refl)
    | apply (body_panic (Driver.grows_by P snID) grows_refl)
    | apply body_enable | apply body_probe
    | apply grows_MkdirAll | apply grows_WriteFile
    | apply grows_RemoveAll | apply grows_Symlink
    | apply grows_waitReady
    | apply grows_refl
    | match goal with
      | |- Driver.body_by _ (match ?x with _ => _ end) => destruct x
      end ].
Qed.

End GrowEffects.

(** An event of the attach, by its shape. *)
Ltac attach_ev :=
  first [ exact I
        | split; reflexivity
        | split; [reflexivity|cbn [snd]; auto] ].

Section AttachEffects.

Import Overlaybd Defer.

Variable e : env.
Variable snID : string.

Lemma attach_only_refl h : Driver.attach_only snID h h.
Proof. apply grows_refl; intros; exact I. Qed.

Lemma attach_only_trans a b c :
  Driver.attach_only snID a b -> Driver.attach_only snID b c -> Driver.attach_only snID a c.
Proof.
  intros H1 H2.
  eapply grows_trans; first [exact H1 | exact H2 | intros; exact I].
Qed.

Lemma attach_only_same h h' :
  cfgs h' = cfgs h -> procs h' = procs h -> journal h' = journal h ->
  Driver.attach_only snID h h'.
Proof. intros C Q J. apply grows_same; first [assumption | intros; exact I]. Qed.

Lemma attach_only_sleeps us n h : Driver.attach_only snID h (Nat.iter n (sleep_us us) h).
Proof. apply grows_sleeps; intros; exact I. Qed.

Lemma attach_only_MkdirAll p h : Driver.attach_only snID h (snd (MkdirAll e p h)).
Proof. apply grows_MkdirAll; intros; exact I. Qed.

Lemma attach_only_RemoveAll p h : Driver.attach_only snID h (snd (RemoveAll e p h)).
Proof. apply grows_RemoveAll; intros; exact I. Qed.

Lemma attach_only_WriteFile p data h : Driver.attach_only snID h (snd (WriteFile e p data h)).
Proof. apply grows_WriteFile; intros; exact I. Qed.

Lemma attach_only_Symlink t l h : Driver.attach_only snID h (snd (Symlink e t l h)).
Proof. apply grows_Symlink; intros; exact I. Qed.

Lemma attach_only_record ev h :
  Driver.attach_event snID ev -> Driver.attach_only snID h (record ev h).
Proof. intros Hev. apply grows_record; first [exact Hev | intros; exact I]. Qed.

Lemma attach_only_polls n h :
  Driver.attach_only snID h (Nat.iter n (poll_service snID) h).
Proof.
  induction n as [|n IH]; [apply attach_only_refl|].
  change (Nat.iter (S n) (poll_service snID) h)
    with (poll_service snID (Nat.iter n (poll_service snID) h)).
  apply (attach_only_trans _ _ _ IH). unfold poll_service, sleep_us, bash.
  eapply attach_only_trans; apply attach_only_record; attach_ev.
Qed.

Lemma attach_only_killProcess h :
  Driver.attach_only snID h (snd (killProcess e snID SIGINT h)).
Proof.
  unfold killProcess. cbv zeta.
  change (procs (bash ?c ?x)) with (procs x).
  assert (Hlook : Driver.attach_only snID h (bash (lookupCmd snID) h)).
  { apply attach_only_record. attach_ev. }
  destruct (bool_decide (snID ∈ procs h)); cbn [negb]; [|exact Hlook].
  change (SIGINT =? SIGUSR2)%Z with false. cbv iota.
  set (h1 := record (EvSignal snID SIGINT)
               (bash (killCmd snID SIGINT) (bash (lookupCmd snID) h))).
  assert (Hrec : Driver.attach_only snID h h1).
  { apply (attach_only_trans _ _ _ Hlook). unfold h1, bash.
    eapply attach_only_trans; apply attach_only_record; attach_ev. }
  assert (Hiter : forall n, Driver.attach_only snID h
                              (Nat.iter n (poll_service snID) h1)).
  { intros n. exact (attach_only_trans _ _ _ Hrec (attach_only_polls n _)). }
  destruct (exit_polls e snID) as [n|]; [|apply Hiter].
  destruct (n <? 500)%nat; [|apply Hiter].
  assert (Hlast : Driver.attach_only snID h
                    (bash (countCmd snID) (Nat.iter n (poll_service snID) h1))).
  { apply (attach_only_trans _ _ _ (Hiter n)). apply attach_only_record.
    attach_ev. }
  destruct Hlast as [C [Q J]]. split; [exact C|]. split; [|exact J].
  cbn [snd set_procs procs]. unfold h1. journal_norm. set_solver.
Qed.

Lemma attach_only_enableLoop tp fuel retry err h :
  Driver.attach_only snID h (snd (enableLoop e snID tp fuel retry err h)).
Proof. apply grows_enableLoop; intros; exact I. Qed.

Lemma attach_only_waitReady tp fuel retry err h :
  Driver.attach_only snID h (snd (waitReady e tp fuel retry err h)).
Proof. apply grows_waitReady; intros; exact I. Qed.

Lemma attach_only_probeLoop fuel retry lastErr h :
  Driver.attach_only snID h (snd (probeLoop e fuel retry lastErr h)).
Proof. apply grows_probeLoop; intros; exact I. Qed.

Lemma steps_enable tp :
  Driver.steps_by (Driver.attach_only snID)
    (fun s => match enableLoop e snID tp 100 0 None (fst s) with
              | (inl err, h') => (Err err, (h', snd s))
              | (inr err, h') => (Ok err, (h', snd s))
              end).
Proof.
  intros h ds Hds. cbn [fst snd].
  pose proof (attach_only_enableLoop tp 100 0 None h) as H.
  destruct (enableLoop e snID tp 100 0 None h) as [[err|err] h']; now split.
Qed.

Lemma steps_probe :
  Driver.steps_by (Driver.attach_only snID)
    (fun s => match probeLoop e maxAttachAttempts 0 None (fst s) with
              | (r, h') => (r, (h', snd s))
              end).
Proof.
  intros h ds Hds. cbn [fst snd].
  pose proof (attach_only_probeLoop maxAttachAttempts 0 None h) as H.
  destruct (probeLoop e maxAttachAttempts 0 None h) as [r h']; now split.
Qed.

Lemma doOverlayBD_attach_only snDir h :
  Driver.attach_only snID h (snd (doOverlayBD e snDir snID h)).
Proof.
  unfold doOverlayBD.
  apply (steps_run (Driver.attach_only snID) attach_only_refl attach_only_trans).
  unfold doOverlayBD_body.
  repeat first
    [ apply (steps_bind (Driver.attach_only snID) attach_only_trans); [|intros ?]
    | apply steps_try; intros ?
    | apply (steps_defer (Driver.attach_only snID) attach_only_refl); intros ?
    | apply steps_ret | apply steps_fail | apply steps_panic
    | apply steps_enable | apply steps_probe
    | apply attach_only_MkdirAll | apply attach_only_WriteFile
    | apply attach_only_RemoveAll | apply attach_only_Symlink
    | apply attach_only_waitReady | apply attach_only_killProcess
    | apply attach_only_refl
    | eapply attach_only_trans; [apply attach_only_RemoveAll|]
    | match goal with
      | |- Driver.steps_by _ (match ?x with _ => _ end) => destruct x
      end ].
Qed.

(** A successful attach has run none of its clean-ups: it has written
    and slept, nothing else. *)
Lemma doOverlayBD_success_quiet snDir h dev :
  fst (doOverlayBD e snDir snID h) = Ok dev ->
  Driver.quiet snID h (snd (doOverlayBD e snDir snID h)).
Proof.
  unfold doOverlayBD, Driver.quiet.
  apply (body_run_Ok (Driver.grows_by Driver.quiet_event snID)).
  apply doOverlayBD_body_grows; intros; exact I.
Qed.

End AttachEffects.

Section AttachJournal.

Import Overlaybd.

Lemma commands_app (a b : list event) :
  Journal.commands (a ++ b) = Journal.commands a ++ Journal.commands b.
Proof. unfold Journal.commands. apply flat_map_app. Qed.

Lemma signals_app (a b : list event) :
  Journal.signals (a ++ b) = Journal.signals a ++ Journal.signals b.
Proof. unfold Journal.signals. apply flat_map_app. Qed.

Lemma attach_events_commands (snID : string) (evs : list event) :
  Forall (Driver.attach_event snID) evs ->
  Forall (Driver.service_pipeline snID) (Journal.commands evs).
Proof.
  induction 1 as [|ev evs Hev _ IH]; [constructor|].
  destruct ev; simpl in *; try exact IH. now constructor.
Qed.

Lemma attach_events_signals (snID : string) (evs : list event) :
  Forall (Driver.attach_event snID) evs ->
  exists n, Journal.signals evs = repeat (snID, SIGINT) n.
Proof.
  induction 1 as [|ev evs Hev _ [n IH]]; [now exists 0%nat|].
  destruct ev; simpl in *; try (now exists n).
  destruct Hev as [-> ->]. exists (S n). simpl. now rewrite IH.
Qed.

Lemma quiet_events_silent (evs : list event) :
  Forall Driver.quiet_event evs ->
  Journal.commands evs = [] /\ Journal.signals evs = [].
Proof.
  induction 1 as [|ev evs Hev _ [IH1 IH2]]; [now split|].
  destruct ev; simpl in *; try contradiction; now split.
Qed.

Lemma attach_only_commands (snID : string) (h h' : host) :
  Driver.attach_only snID h h' ->
  exists cmds,
    Journal.commands (journal h') = Journal.commands (journal h) ++ cmds
    /\ Forall (Driver.service_pipeline snID) cmds.
Proof.
  intros [_ [_ [evs [-> Hevs]]]]. exists (Journal.commands evs).
  split; [apply commands_app|now apply attach_events_commands].
Qed.

Lemma quiet_commands (snID : string) (h h' : host) :
  Driver.quiet snID h h' ->
  Journal.commands (journal h') = Journal.commands (journal h)
  /\ Journal.signals (journal h') = Journal.signals (journal h).
Proof.
  intros [_ [_ [evs [-> Hevs]]]].
  destruct (quiet_events_silent evs Hevs) as [Hc Hs].
  now rewrite commands_app, signals_app, Hc, Hs, !app_nil_r.
Qed.

End AttachJournal.

(** X7.  What the attach never does.  Whatever the host answers and
    whatever the outcome (a device, an error with its clean-ups run, or the
    panic on a long id), [doOverlayBD] leaves the descriptors as they are,
    starts no service but that of its own layer, and signals nothing but
    SIGINT to that service.  The only child processes it runs are the
    [/bin/bash -c] pipelines of [killProcess] that look up, interrupt and
    count the service of its own layer, and these run in a clean-up only:
    an attach that returns a device has run no child process and sent no
    signal, its journal has grown by writes and sleeps alone. *)
Theorem doOverlayBD_effects
        (e : Overlaybd.env) (snDir snID : string) (h : Overlaybd.host) :
  let out := Overlaybd.doOverlayBD e snDir snID h in
  Overlaybd.cfgs (snd out) = Overlaybd.cfgs h
  /\ Overlaybd.procs (snd out) ⊆ {[snID]} ∪ Overlaybd.procs h
  /\ (exists cmds,
        Journal.commands (Overlaybd.journal (snd out))
        = Journal.commands (Overlaybd.journal h) ++ cmds
        /\ Forall (Driver.service_pipeline snID) cmds)
  /\ (exists n,
        Journal.signals (Overlaybd.journal (snd out))
        = Journal.signals (Overlaybd.journal h)
            ++ repeat (snID, Overlaybd.SIGINT) n)
  /\ (exists evs,
        Overlaybd.journal (snd out) = Overlaybd.journal h ++ evs
        /\ Forall (Driver.attach_event snID) evs)
  /\ (forall dev,
        fst out = Ok dev ->
        Journal.commands (Overlaybd.journal (snd out))
        = Journal.commands (Overlaybd.journal h)
        /\ Journal.signals (Overlaybd.journal (snd out))
           = Journal.signals (Overlaybd.journal h)
        /\ exists evs,
            Overlaybd.journal (snd out) = Overlaybd.journal h ++ evs
            /\ Forall Driver.quiet_event evs).
Proof.
  cbv zeta. pose proof (doOverlayBD_attach_only e snID snDir h) as Hall.
  pose proof (attach_only_commands snID _ _ Hall) as Hcmd.
  destruct Hall as [Hc [Hp [evs [Hj Hevs]]]].
  split; [exact Hc|]. split; [exact Hp|]. split; [exact Hcmd|]. split.
  - destruct (attach_events_signals snID evs Hevs) as [n Hn].
    exists n. now rewrite Hj, signals_app, Hn.
  - split; [now exists evs|].
    intros dev Hok.
    pose proof (doOverlayBD_success_quiet e snID snDir h dev Hok) as Hq.
    destruct (quiet_commands snID _ _ Hq) as [Hqc Hqs].
    split; [exact Hqc|]. split; [exact Hqs|].
    destruct Hq as [_ [_ Hgrow]]. exact Hgrow.
Qed.

Lemma doOverlayBD_effects_witness :
  fst (Overlaybd.doOverlayBD Fixtures.env_ok "/r/snapshots/128" "128"
         Fixtures.host_empty) = Ok "/dev/sdc"
  /\ Journal.commands (Overlaybd.journal Driver.host_attached) = [].
Proof.
  assert (Hok : fst (Overlaybd.doOverlayBD Fixtures.env_ok "/r/snapshots/128" "128"
                       Fixtures.host_empty) = Ok "/dev/sdc")
    by (vm_compute; reflexivity).
  split; [exact Hok|].
  destruct (doOverlayBD_effects Fixtures.env_ok "/r/snapshots/128" "128"
              Fixtures.host_empty) as [_ [_ [_ [_ [_ Hsucc]]]]].
  destruct (Hsucc "/dev/sdc" Hok) as [Hcmd _].
  exact Hcmd.
Defined.

Section ActiveMountCommands.

Import Overlaybd.

Variable e : env.

Lemma statParents_decides (h : host) (parentPaths : list string) :
  fst (statParents h parentPaths)
  = forallb (exists_path h)
            (map (fun p => GoPath.Join [p; tmpTarIndex]) parentPaths)
  /\ (fst (statParents h parentPaths) = true ->
      snd (statParents h parentPaths)
      = map (fun p => GoPath.Join [p; tmpTarIndex]) parentPaths).
Proof.
  induction parentPaths as [|p rest [IH1 IH2]]; [now split|].
  cbn [statParents map forallb].
  destruct (exists_path h (GoPath.Join [p; tmpTarIndex])); cbn [fst snd andb].
  - split; [exact IH1|]. intros Ht. now rewrite IH2.
  - split; [reflexivity|discriminate].
Qed.

Lemma commands_record_exec (bin : string) (args : list string) (h : host) :
  Journal.commands (journal (record (EvExec bin args) h))
  = Journal.commands (journal h) ++ [(bin, args)].
Proof. cbn [record journal]. now rewrite commands_app. Qed.

Lemma commands_WriteFile (p data : string) (h : host) :
  Journal.commands (journal (snd (WriteFile e p data h)))
  = Journal.commands (journal h).
Proof.
  unfold WriteFile. destruct (write_file e p data); [reflexivity|].
  cbn [snd record journal set_paths]. rewrite commands_app. simpl.
  now rewrite app_nil_r.
Qed.

(** From the create on: the create, then at most the pipelines of a
    failed attach's clean-up, and none of those when a mount comes
    back. *)
Lemma attachSteps_commands (snDir id parentDir : string) (h : host) :
  exists tail,
    Journal.commands (journal (snd (attachSteps e snDir id parentDir h)))
    = Journal.commands (journal h)
        ++ [("/bin/bash",
             ["-c"; overlaybdCreateBinary +:+ " -s "
                      +:+ GoPath.Join [snDir; dataFile] +:+ " "
                      +:+ GoPath.Join [snDir; idxFile] +:+ " 256 "])]
        ++ tail
    /\ Forall (Driver.service_pipeline id) tail
    /\ (forall ms, fst (attachSteps e snDir id parentDir h) = Ok ms -> tail = []).
Proof.
  unfold attachSteps, overlaybdCreate, Exec.
  set (str := overlaybdCreateBinary +:+ " -s " +:+ GoPath.Join [snDir; dataFile]
                +:+ " " +:+ GoPath.Join [snDir; idxFile] +:+ " 256 ").
  set (h1 := record (EvExec "/bin/bash" ["-c"; str]) h).
  assert (H1 : Journal.commands (journal h1)
               = Journal.commands (journal h) ++ [("/bin/bash", ["-c"; str])])
    by apply commands_record_exec.
  assert (Hnil : forall r : outcome (list Mount.Mount),
             Journal.commands (journal h1)
             = Journal.commands (journal h) ++ [("/bin/bash", ["-c"; str])] ++ []
             /\ Forall (Driver.service_pipeline id) []
             /\ (forall ms, r = Ok ms -> @nil (string * list string) = [])).
  { intros r. rewrite app_nil_r. split; [exact H1|]. split; [constructor|reflexivity]. }
  destruct (exec e "/bin/bash" ["-c"; str]); [exists []; apply Hnil|].
  destruct (Config.ConstructOverlayBDWritableSpec (cfg_world e) (cfgs h1) snDir parentDir)
    as [[err|] d]; [exists []; apply Hnil|].
  destruct (attach_only_commands id _ _
              (doOverlayBD_attach_only e id snDir (set_cfgs h1 d)))
    as [cmds [H2 Hcmds]].
  pose proof (doOverlayBD_success_quiet e id snDir (set_cfgs h1 d)) as Hq.
  destruct (doOverlayBD e snDir id (set_cfgs h1 d)) as [[dev|err|msg] h2];
    cbn [fst snd] in *.
  - destruct (quiet_commands id _ _ (Hq dev eq_refl)) as [H3 _].
    cbn [set_cfgs journal] in H3.
    pose proof (commands_WriteFile (GoPath.Join [snDir; lowerFile]) dev h2) as H4.
    exists [].
    destruct (WriteFile e (GoPath.Join [snDir; lowerFile]) dev h2) as [[err|] h3];
      cbn [fst snd] in *; rewrite H4, H3, app_nil_r;
      (split; [exact H1|]); (split; [constructor|reflexivity]).
  - exists cmds. cbn [set_cfgs journal] in H2. rewrite H2, H1, <- app_assoc.
    split; [reflexivity|]. split; [exact Hcmds|discriminate].
  - exists cmds. cbn [set_cfgs journal] in H2. rewrite H2, H1, <- app_assoc.
    split; [reflexivity|]. split; [exact Hcmds|discriminate].
Qed.

End ActiveMountCommands.

(** X8.  The child processes of [ActiveMount].  It runs, in this order:
    the merge converter, exactly when every parent directory has a
    [layer.tar.meta] (so also for a layer without parents, with
    [--workdir] alone); then [overlaybd-create] through [/bin/bash -c],
    unless the merge converter failed; and after the create nothing but the
    [/bin/bash -c] pipelines by which the clean-up of a failed attach looks
    up, interrupts and counts the service of this layer.  When
    [ActiveMount] returns a mount none of those pipelines has run: the
    merge converter and the create are all the commands there were. *)
Theorem ActiveMount_commands
        (e : Overlaybd.env) (snDir id parentDir : string)
        (parentPaths : list string) (h : Overlaybd.host) :
  let out := Overlaybd.ActiveMount e snDir id parentDir parentPaths h in
  let metas := map (fun p => GoPath.Join [p; Overlaybd.tmpTarIndex]) parentPaths in
  let merge := (Overlaybd.ConverterMergeBinary, Overlaybd.mergeArgs snDir metas) in
  let create :=
    ("/bin/bash",
     ["-c"; Overlaybd.overlaybdCreateBinary +:+ " -s "
              +:+ GoPath.Join [snDir; Overlaybd.dataFile] +:+ " "
              +:+ GoPath.Join [snDir; Overlaybd.idxFile] +:+ " 256 "]) in
  exists tail,
    Journal.commands (Overlaybd.journal (snd out))
    = Journal.commands (Overlaybd.journal h)
        ++ (if forallb (Overlaybd.exists_path h) metas
            then merge :: match Overlaybd.exec e (fst merge) (snd merge) with
                          | Some _ => []
                          | None => [create]
                          end
            else [create])
        ++ tail
    /\ Forall (Driver.service_pipeline id) tail
    /\ (forall ms, fst out = Ok ms -> tail = []).
Proof.
  cbv zeta. unfold Overlaybd.ActiveMount.
  destruct (statParents_decides h parentPaths) as [Hfst Hsnd].
  rewrite <- Hfst.
  destruct (fst (Overlaybd.statParents h parentPaths)) eqn:Hall.
  - rewrite (Hsnd eq_refl). unfold Overlaybd.Exec. cbn [fst snd].
    destruct (Overlaybd.exec e Overlaybd.ConverterMergeBinary _) as [err|].
    + cbn [fst snd]. exists []. rewrite app_nil_r.
      split; [apply commands_record_exec|]. split; [constructor|reflexivity].
    + match goal with
      | |- context [Overlaybd.attachSteps e snDir id parentDir ?h1] =>
          destruct (attachSteps_commands e snDir id parentDir h1)
            as [tail [Hc [Ht Hok]]]
      end.
      exists tail. rewrite Hc, commands_record_exec, <- ?app_assoc.
      split; [reflexivity|]. split; [exact Ht|exact Hok].
  - destruct (attachSteps_commands e snDir id parentDir h) as [tail [Hc [Ht Hok]]].
    exists tail. rewrite Hc.
    split; [reflexivity|]. split; [exact Ht|exact Hok].
Qed.

Lemma ActiveMount_commands_witness :
  fst (Overlaybd.ActiveMount Fixtures.env_ok "/r/snapshots/3" "3"
         "/r/snapshots/2" Chain.parents Chain.host_two_parents)
  = Ok [ {| Mount.Type_ := "ext4"; Mount.Source := "/dev/sdc";
            Mount.Options := ["ro"] |} ]
  /\ map fst (Journal.commands
                (Overlaybd.journal
                   (snd (Overlaybd.ActiveMount Fixtures.env_ok "/r/snapshots/3"
                           "3" "/r/snapshots/2" Chain.parents
                           Chain.host_two_parents))))
     = [Overlaybd.ConverterMergeBinary; "/bin/bash"].
Proof.
  assert (Hrun : fst (Overlaybd.ActiveMount Fixtures.env_ok "/r/snapshots/3"
                        "3" "/r/snapshots/2" Chain.parents
                        Chain.host_two_parents)
                 = Ok [ {| Mount.Type_ := "ext4"; Mount.Source := "/dev/sdc";
                           Mount.Options := ["ro"] |} ])
    by (vm_compute; reflexivity).
  split; [exact Hrun|].
  destruct (ActiveMount_commands Fixtures.env_ok "/r/snapshots/3" "3"
              "/r/snapshots/2" Chain.parents Chain.host_two_parents) as [tail [Hc [_ Hok]]].
  rewrite (Hok _ Hrun) in Hc. rewrite Hc. vm_compute. reflexivity.
Defined.

Section DeviceFile.

Import Overlaybd.

Lemma written_snoc (evs : list event) (p data : string) :
  Driver.written (evs ++ [EvWrite p data]) p = Some data.
Proof.
  induction evs as [|ev evs IH]; cbn [app Driver.written].
  - now rewrite String.eqb_refl.
  - now rewrite IH.
Qed.

Lemma attachSteps_Ok (e : env) (snDir id parentDir : string) (h h' : host)
      (ms : list Mount.Mount) :
  attachSteps e snDir id parentDir h = (Ok ms, h') ->
  exists dev h2,
    ms = [ {| Mount.Type_ := "ext4"; Mount.Source := dev; Mount.Options := ["ro"] |} ]
    /\ WriteFile e (GoPath.Join [snDir; lowerFile]) dev h2 = (None, h').
Proof.
  unfold attachSteps.
  destruct (overlaybdCreate e snDir h) as [[err|] h1]; [discriminate|].
  destruct (Config.ConstructOverlayBDWritableSpec _ _ _ _) as [[err|] d];
    [discriminate|].
  destruct (doOverlayBD e snDir id (set_cfgs h1 d)) as [[dev|err|msg] h2];
    try discriminate.
  destruct (WriteFile e (GoPath.Join [snDir; lowerFile]) dev h2) as [[err|] h3] eqn:Hw;
    [discriminate|].
  intros H. inversion H; subst. now exists dev, h2.
Qed.

Lemma ActiveMount_Ok (e : env) (snDir id parentDir : string)
      (parentPaths : list string) (h h' : host) (ms : list Mount.Mount) :
  ActiveMount e snDir id parentDir parentPaths h = (Ok ms, h') ->
  exists h1, attachSteps e snDir id parentDir h1 = (Ok ms, h').
Proof.
  unfold ActiveMount.
  destruct (fst (statParents h parentPaths)).
  - destruct (Exec e ConverterMergeBinary _ h) as [[err|] h1]; [discriminate|].
    intros H. now exists h1.
  - intros H. now exists h.
Qed.

End DeviceFile.

(** X9.  [GetMount] gives back the mount [ActiveMount] returned.  When
    [ActiveMount] succeeds it has written the device path to the file
    [device] of the layer directory, as its last write; [GetMount] on the
    host it leaves, reading that file back, returns the same one-element
    mount list: type ext4, the device as source, option [ro]. *)
Theorem GetMount_after_ActiveMount
        (e : Overlaybd.env) (snDir id parentDir : string)
        (parentPaths : list string) (h h' : Overlaybd.host)
        (ms : list Mount.Mount) :
  Overlaybd.ActiveMount e snDir id parentDir parentPaths h = (Ok ms, h') ->
  Driver.GetMount (Driver.read_back h') snDir h' = Ok ms
  /\ exists dev,
      ms = [ {| Mount.Type_ := "ext4"; Mount.Source := dev;
                Mount.Options := ["ro"] |} ]
      /\ Driver.written (Overlaybd.journal h')
           (GoPath.Join [snDir; Overlaybd.lowerFile]) = Some dev
      /\ last (Overlaybd.journal h')
         = Some (Overlaybd.EvWrite (GoPath.Join [snDir; Overlaybd.lowerFile]) dev).
Proof.
  intros H. apply ActiveMount_Ok in H as [h1 H].
  apply attachSteps_Ok in H as [dev [h2 [-> Hw]]].
  unfold Overlaybd.WriteFile in Hw.
  destruct (Overlaybd.write_file e _ dev); [discriminate|].
  inversion Hw; subst h'. clear Hw.
  assert (Hwr : Driver.written
                  (Overlaybd.journal
                     (Overlaybd.record
                        (Overlaybd.EvWrite (GoPath.Join [snDir; Overlaybd.lowerFile]) dev)
                        (Overlaybd.set_paths h2
                           ({[GoPath.Join [snDir; Overlaybd.lowerFile]]} ∪ Overlaybd.paths h2))))
                  (GoPath.Join [snDir; Overlaybd.lowerFile]) = Some dev)
    by apply written_snoc.
  split.
  - unfold Driver.GetMount, Driver.read_back. rewrite Hwr.
    unfold Overlaybd.exists_path.
    rewrite bool_decide_eq_true_2; [reflexivity|].
    cbn [Overlaybd.record Overlaybd.set_paths Overlaybd.paths]. set_solver.
  - exists dev. split; [reflexivity|]. split; [exact Hwr|].
    cbn [Overlaybd.record Overlaybd.journal]. apply last_snoc.
Qed.

Lemma GetMount_after_ActiveMount_witness :
  is_ok (fst (Overlaybd.ActiveMount Fixtures.env_ok "/r/snapshots/3" "3"
                "/r/snapshots/2" Chain.parents Chain.host_two_parents)) = true
  /\ Driver.GetMount
       (Driver.read_back
          (snd (Overlaybd.ActiveMount Fixtures.env_ok "/r/snapshots/3" "3"
                  "/r/snapshots/2" Chain.parents Chain.host_two_parents)))
       "/r/snapshots/3"
       (snd (Overlaybd.ActiveMount Fixtures.env_ok "/r/snapshots/3" "3"
               "/r/snapshots/2" Chain.parents Chain.host_two_parents))
     = Ok [ {| Mount.Type_ := "ext4"; Mount.Source := "/dev/sdc";
               Mount.Options := ["ro"] |} ].
Proof.
  split; [vm_compute; reflexivity|].
  destruct (Overlaybd.ActiveMount Fixtures.env_ok "/r/snapshots/3" "3"
              "/r/snapshots/2" Chain.parents Chain.host_two_parents)
    as [r h'] eqn:Hrun.
  assert (Hr : r = Ok [ {| Mount.Type_ := "ext4"; Mount.Source := "/dev/sdc";
                           Mount.Options := ["ro"] |} ]).
  { change r with (fst (r, h')). rewrite <- Hrun. vm_compute. reflexivity. }
  subst r. cbn [snd].
  exact (proj1 (GetMount_after_ActiveMount _ _ _ _ _ _ _ _ Hrun)).
Defined.

Section AttachFailure.

Import Overlaybd Defer.








End AttachFailure.



Section KillFacts.

Import Overlaybd.



End KillFacts.



(** * Further properties of the quota provider *)

(** X12.  A failed format leaves an image that the next [Setup] mounts
    unformatted.  On a fresh target whose image can be created, when
    [formatImageFile] fails (the provider's file-system type is not ext4, or
    mkfs fails), [Setup] returns the error but [rw.img] stays, with its full
    size.  The next [Setup] of the same target finds the file, so it neither
    creates nor formats: when the loop mount goes through it returns nil,
    and the journal of the two calls holds the temp file, the truncation,
    the rename and the mount, and no mkfs. *)
Theorem Setup_retry_after_failed_format
        (e : Sparsefile.env) (q : Sparsefile.sparseFileQuota)
        (target : string) (size : Z) (opts : gmap string string)
        (h : Sparsefile.host) (base tmp : string) :
  target ∉ Sparsefile.mountpoints h ->
  opts !! "base" = Some base ->
  base <> "" ->
  let img := GoPath.Join [base; Sparsefile.sparseFileName] in
  Sparsefile.files h !! img = None ->
  Sparsefile.tempfile e (GoPath.Dir img) = inr tmp ->
  Sparsefile.files h !! tmp = None ->
  let bytes := if (size <=? 0)%Z then Sparsefile.defaultQuota q else size in
  Sparsefile.truncate e tmp bytes = None ->
  Sparsefile.rename e tmp img = None ->
  Sparsefile.fsType q <> "ext4"
  \/ Sparsefile.mkfs e [img; "-F"; "-E"; "nodiscard,lazy_itable_init=0"; "-O";
                        "^has_journal"] <> None ->
  let rwFlag := if GoPath.nonempty (label_or_empty opts "rwFlag")
                then label_or_empty opts "rwFlag" else "rw" in
  let out1 := Sparsefile.Setup e q target size opts h in
  let out2 := Sparsefile.Setup e q target size opts (snd out1) in
  is_err (fst out1) = true
  /\ Sparsefile.files (snd out1) !! img = Some bytes
  /\ Sparsefile.journal (snd out1)
     = Sparsefile.journal h
         ++ [Sparsefile.EvTempFile tmp; Sparsefile.EvTruncate tmp bytes;
             Sparsefile.EvRename tmp img]
  /\ (Sparsefile.mount_loop e img target = None ->
      fst out2 = Ok tt
      /\ Sparsefile.journal (snd out2)
         = Sparsefile.journal h
             ++ [Sparsefile.EvTempFile tmp; Sparsefile.EvTruncate tmp bytes;
                 Sparsefile.EvRename tmp img;
                 Sparsefile.EvMount img target "ext4" ["loop"; rwFlag]]).
Proof.
  intros Hnm Hbase Hne img Himg Htmp Hfresh bytes Htr Hrn Hfmt rwFlag.
  assert (Hl : label_or_empty opts "base" = base)
    by (unfold label_or_empty; now rewrite Hbase).
  destruct (createImageFile_ok e img bytes h tmp Htmp Hfresh Htr Hrn)
    as [h1 [Hc [Hf [Hm Hj]]]].
  assert (Hformat : exists ferr,
             Sparsefile.formatImageFile e q img h1 = (Some ferr, h1)).
  { unfold Sparsefile.formatImageFile.
    destruct (String.eqb (Sparsefile.fsType q) "ext4") eqn:Heq; cbn [negb].
    - apply String.eqb_eq in Heq. destruct Hfmt as [Hfmt|Hfmt]; [congruence|].
      destruct (Sparsefile.mkfs e _) as [merr|]; [|congruence]. now eexists.
    - now eexists. }
  destruct Hformat as [ferr Hformat].
  assert (H1 : Sparsefile.Setup e q target size opts h
               = (Err (ErrWrap ("failed to format image file: " +:+ img) ferr), h1)).
  { unfold Sparsefile.Setup.
    rewrite Hl, (nonempty_true base Hne), (bool_decide_eq_false_2 _ Hnm).
    fold img. rewrite Himg. fold bytes. rewrite Hc, Hformat. reflexivity. }
  cbv zeta. rewrite H1. cbn [fst snd is_err].
  split; [reflexivity|]. split; [rewrite Hf; apply lookup_insert_eq|].
  split; [exact Hj|]. intros Hmount.
  unfold Sparsefile.Setup.
  rewrite Hl, (nonempty_true base Hne), Hm, (bool_decide_eq_false_2 _ Hnm).
  fold img. rewrite Hf, lookup_insert_eq. unfold Sparsefile.mount.
  rewrite Hmount. cbn [fst snd Sparsefile.record Sparsefile.journal
                         Sparsefile.set_mountpoints].
  split; [reflexivity|]. rewrite Hj, <- app_assoc. reflexivity.
Qed.

Lemma Setup_retry_after_failed_format_witness :
  let q := Sparsefile.New (<["fs_type" := "xfs"]> ∅) in
  let out1 := Sparsefile.Setup QuotaFixtures.env_ok q "/u/7/upper" 2147483648
                (QuotaFixtures.opts_for "/u/7/upper") QuotaFixtures.host_empty in
  let out2 := Sparsefile.Setup QuotaFixtures.env_ok q "/u/7/upper" 2147483648
                (QuotaFixtures.opts_for "/u/7/upper") (snd out1) in
  is_err (fst out1) = true
  /\ fst out2 = Ok tt
  /\ Sparsefile.journal (snd out2)
     = [Sparsefile.EvTempFile "/u/7/upper/new-123";
        Sparsefile.EvTruncate "/u/7/upper/new-123" 2147483648;
        Sparsefile.EvRename "/u/7/upper/new-123" "/u/7/upper/rw.img";
        Sparsefile.EvMount "/u/7/upper/rw.img" "/u/7/upper" "ext4" ["loop"; "rw"]].
Proof.
  cbv zeta.
  destruct (Setup_retry_after_failed_format QuotaFixtures.env_ok
              (Sparsefile.New (<["fs_type" := "xfs"]> ∅))
              "/u/7/upper" 2147483648 (QuotaFixtures.opts_for "/u/7/upper")
              QuotaFixtures.host_empty "/u/7/upper" "/u/7/upper/new-123")
    as [H1 [_ [_ H4]]].
  - vm_compute. intros H. discriminate H.
  - reflexivity.
  - discriminate.
  - reflexivity.
  - reflexivity.
  - reflexivity.
  - reflexivity.
  - reflexivity.
  - left. vm_compute. discriminate.
  - destruct (H4 eq_refl) as [H5 H6].
    split; [exact H1|]. split; [exact H5|]. rewrite H6. reflexivity.
Defined.

Section AtoiFacts.

Import Strconv.

Lemma digit_of_range (c : ascii) (d : Z) : digit_of c = Some d -> (0 <= d <= 9)%Z.
Proof.
  unfold digit_of. cbv zeta.
  destruct (48 <=? Z.of_nat (nat_of_ascii c))%Z eqn:H1; [|discriminate].
  destruct (Z.of_nat (nat_of_ascii c) <=? 57)%Z eqn:H2; [|discriminate].
  cbn [andb]. intros [= <-]. apply Z.leb_le in H1, H2. lia.
Qed.

Lemma digits_ge (s : string) :
  forall acc v, (0 <= acc)%Z -> digits acc s = Some v -> (acc <= v)%Z.
Proof.
  induction s as [|c s IH]; intros acc v Hacc; cbn [digits].
  - intros [= <-]. lia.
  - destruct (digit_of c) as [d|] eqn:Hd; [|discriminate].
    apply digit_of_range in Hd. intros Hv.
    apply IH in Hv; lia.
Qed.

(** On a digit string the loop of [ParseUint] gives the value, or the
    largest value and a range error when it does not fit. *)
Lemma parse_uint_digits (s : string) :
  forall n v,
    (0 <= n <= max_uint)%Z -> digits n s = Some v ->
    parse_uint n s
    = (if (max_uint <? v)%Z then (max_uint, Some ErrRange) else (v, None)).
Proof.
  induction s as [|c s IH]; intros n v Hn; cbn [digits parse_uint].
  - intros [= <-]. destruct (Z.ltb_spec max_uint n); [lia|reflexivity].
  - destruct (digit_of c) as [d|] eqn:Hd; [|discriminate].
    apply digit_of_range in Hd. intros Hv.
    pose proof (digits_ge s (n * 10 + d)%Z v ltac:(lia) Hv) as Hge.
    change (max_uint / 10 + 1)%Z with 1844674407370955162%Z.
    unfold max_uint in *.
    destruct (Z.leb_spec 1844674407370955162 n) as [Hcut|Hcut].
    + destruct (Z.ltb_spec 18446744073709551615 v); [reflexivity|lia].
    + cbv zeta.
      destruct (Z.ltb_spec 18446744073709551615 (n * 10 + d)) as [Hov|Hov].
      * destruct (Z.ltb_spec 18446744073709551615 v); [reflexivity|lia].
      * apply IH; [lia|exact Hv].
Qed.

(** On any other string it gives an error; the value that comes with a
    range error is the largest one. *)
Lemma parse_uint_error (s : string) :
  forall n,
    digits n s = None ->
    parse_uint n s = (0%Z, Some ErrSyntax)
    \/ parse_uint n s = (max_uint, Some ErrRange).
Proof.
  induction s as [|c s IH]; intros n; cbn [digits parse_uint]; [discriminate|].
  destruct (digit_of c) as [d|]; [|now left].
  intros Hv. destruct (max_uint / 10 + 1 <=? n)%Z; [now right|].
  cbv zeta. destruct (max_uint <? n * 10 + d)%Z; [now right|].
  now apply IH.
Qed.

Lemma ParseUint_digits (s : string) (v : Z) :
  s <> "" -> digits 0 s = Some v ->
  ParseUint s
  = (if (max_uint <? v)%Z then (max_uint, Some ErrRange) else (v, None))
  /\ (0 <= v)%Z.
Proof.
  intros Hs Hv. split; [|exact (digits_ge s 0 v ltac:(lia) Hv)].
  unfold ParseUint. destruct s as [|c s]; [congruence|].
  apply parse_uint_digits; [unfold max_uint; lia|exact Hv].
Qed.

Lemma ParseUint_error (s : string) :
  s = "" \/ digits 0 s = None ->
  ParseUint s = (0%Z, Some ErrSyntax) \/ ParseUint s = (max_uint, Some ErrRange).
Proof.
  intros [->|Hd]; [now left|]. unfold ParseUint.
  destruct s as [|c s]; [now left|]. now apply parse_uint_error.
Qed.

(** [Atoi] on a string that is a decimal number: the number, or the
    nearest bound and an error. *)
Lemma Atoi_of_decimal (s : string) (v : Z) :
  parse_decimal s = Some v ->
  Atoi s = (if (v <? min_int)%Z then (min_int, false)
            else if (max_int <? v)%Z then (max_int, false)
            else (v, true)).
Proof.
  unfold parse_decimal, Atoi, ParseInt. destruct s as [|c rest]; [discriminate|].
  cbv zeta.
  assert (Hclamp : forall (neg : bool) (body : string) (u : Z),
             body <> "" -> digits 0 body = Some u ->
             match
               match ParseUint body with
               | (_, Some ErrSyntax) => (0%Z, Some ErrSyntax)
               | (un, _) =>
                   if negb neg && (2 ^ 63 <=? un)%Z
                   then ((2 ^ 63 - 1)%Z, Some ErrRange)
                   else if neg && (2 ^ 63 <? un)%Z
                        then ((- 2 ^ 63)%Z, Some ErrRange)
                        else ((if neg then - un else un)%Z, None)
               end
             with
             | (w, None) => (w, true)
             | (w, Some _) => (w, false)
             end
             = (if ((if neg then - u else u) <? min_int)%Z then (min_int, false)
                else if (max_int <? (if neg then - u else u))%Z then (max_int, false)
                else ((if neg then - u else u)%Z, true))).
  { intros neg body u Hb Hu.
    destruct (ParseUint_digits body u Hb Hu) as [-> Hpos].
    change (2 ^ 63)%Z with 9223372036854775808%Z.
    unfold max_uint, min_int, max_int.
    destruct (Z.ltb_spec 18446744073709551615 u) as [Hbig|Hfit].
    - destruct neg; cbn [negb andb].
      + destruct (Z.ltb_spec (- u) (-9223372036854775808)); [reflexivity|lia].
      + destruct (Z.ltb_spec u (-9223372036854775808)); [lia|].
        destruct (Z.ltb_spec 9223372036854775807 u); [reflexivity|lia].
    - destruct neg; cbn [negb andb].
      + destruct (Z.ltb_spec 9223372036854775808 u).
        * destruct (Z.ltb_spec (- u) (-9223372036854775808)); [reflexivity|lia].
        * destruct (Z.ltb_spec (- u) (-9223372036854775808)); [lia|].
          destruct (Z.ltb_spec 9223372036854775807 (- u)); [lia|reflexivity].
      + destruct (Z.leb_spec 9223372036854775808 u).
        * destruct (Z.ltb_spec u (-9223372036854775808)); [lia|].
          destruct (Z.ltb_spec 9223372036854775807 u); [reflexivity|lia].
        * destruct (Z.ltb_spec u (-9223372036854775808)); [lia|].
          destruct (Z.ltb_spec 9223372036854775807 u); [lia|reflexivity]. }
  destruct (Ascii.eqb c "-") eqn:Hminus.
  - rewrite orb_true_r.
    destruct rest as [|c' rest']; [discriminate|].
    destruct (digits 0 (String c' rest')) as [u|] eqn:Hu; [|discriminate].
    cbn [mbind option_bind]. intros [= <-].
    exact (Hclamp true (String c' rest') u ltac:(discriminate) Hu).
  - destruct (Ascii.eqb c "+") eqn:Hplus; cbn [orb].
    + destruct rest as [|c' rest']; [discriminate|].
      intros Hu.
      exact (Hclamp false (String c' rest') v ltac:(discriminate) Hu).
    + intros Hu. exact (Hclamp false (String c rest) v ltac:(discriminate) Hu).
Qed.

(** [Atoi] on any other string: an error. *)
Lemma Atoi_syntax (s : string) : parse_decimal s = None -> snd (Atoi s) = false.
Proof.
  unfold parse_decimal, Atoi, ParseInt. destruct s as [|c rest]; [reflexivity|].
  cbv zeta.
  assert (Herr : forall (neg : bool) (body : string),
             body = "" \/ digits 0 body = None ->
             snd match
                   match ParseUint body with
                   | (_, Some ErrSyntax) => (0%Z, Some ErrSyntax)
                   | (un, _) =>
                       if negb neg && (2 ^ 63 <=? un)%Z
                       then ((2 ^ 63 - 1)%Z, Some ErrRange)
                       else if neg && (2 ^ 63 <? un)%Z
                            then ((- 2 ^ 63)%Z, Some ErrRange)
                            else ((if neg then - un else un)%Z, None)
                   end
                 with
                 | (w, None) => (w, true)
                 | (w, Some _) => (w, false)
                 end = false).
  { intros neg body Hb. destruct (ParseUint_error body Hb) as [->| ->];
      [reflexivity|]. destruct neg; reflexivity. }
  destruct (Ascii.eqb c "-") eqn:Hminus.
  - rewrite orb_true_r. intros Hd. apply Herr.
    destruct rest as [|c' rest']; [now left|right].
    destruct (digits 0 (String c' rest')); [discriminate|reflexivity].
  - destruct (Ascii.eqb c "+") eqn:Hplus; cbn [orb]; intros Hd; apply Herr.
    + destruct rest as [|c' rest']; [now left|now right].
    + now right.
Qed.

End AtoiFacts.

(** X13.  What [New] can hand out.  Whatever the configuration, the
    provider's default quota is positive and fits an [int], and its
    file-system type is not empty, so the size [Setup] truncates the image
    to is always positive.  A [default_quota] that does not parse, or is
    zero or negative, gives 10 GiB.  The file-system type is taken from
    [fs_type] as it is, but only ext4 can be formatted: with any other
    value [formatImageFile] fails without running mkfs. *)
Theorem New_provider (config : gmap string string) :
  let q := Sparsefile.New config in
  (0 < Sparsefile.defaultQuota q <= Strconv.max_int)%Z
  /\ Sparsefile.fsType q <> ""
  /\ (forall size : Z,
        (0 < (if (size <=? 0)%Z then Sparsefile.defaultQuota q else size))%Z)
  /\ (forall v : Z,
        Strconv.parse_decimal (label_or_empty config "default_quota") = Some v ->
        Sparsefile.defaultQuota q
        = (if (0 <? v)%Z && (v <=? Strconv.max_int)%Z then v
           else Sparsefile.defaultSparsefileQuota))
  /\ (Strconv.parse_decimal (label_or_empty config "default_quota") = None ->
      Sparsefile.defaultQuota q = Sparsefile.defaultSparsefileQuota)
  /\ (forall (fs : string) (e : Sparsefile.env) (img : string)
             (h : Sparsefile.host),
        config !! "fs_type" = Some fs -> fs <> "" -> fs <> "ext4" ->
        Sparsefile.formatImageFile e q img h
        = (Some (ErrMsg ("unsupport " +:+ fs
                           +:+ ", only support ext4 file system now")), h)).
Proof.
  cbv zeta.
  assert (Hdq : (0 < Sparsefile.defaultQuota (Sparsefile.New config)
                 <= Strconv.max_int)%Z).
  { unfold Sparsefile.New. cbn [Sparsefile.defaultQuota].
    destruct (Strconv.parse_decimal (label_or_empty config "default_quota"))
      as [v|] eqn:Hp.
    - rewrite (Atoi_of_decimal _ v Hp).
      destruct (v <? Strconv.min_int)%Z eqn:H1;
        [cbn [fst snd negb orb];
         unfold Sparsefile.defaultSparsefileQuota, Strconv.max_int; lia|].
      destruct (Strconv.max_int <? v)%Z eqn:H2; cbn [fst snd negb orb];
        [unfold Sparsefile.defaultSparsefileQuota, Strconv.max_int; lia|].
      destruct (v <=? 0)%Z eqn:H3;
        [unfold Sparsefile.defaultSparsefileQuota, Strconv.max_int; lia|].
      apply Z.leb_gt in H3. apply Z.ltb_ge in H2. lia.
    - rewrite (Atoi_syntax _ Hp). cbn [negb orb].
      unfold Sparsefile.defaultSparsefileQuota, Strconv.max_int; lia. }
  split; [exact Hdq|]. split.
  { unfold Sparsefile.New. cbn [Sparsefile.fsType].
    destruct (label_or_empty config "fs_type") as [|c s];
      cbn [GoPath.nonempty]; discriminate. }
  split.
  { intros size. destruct (size <=? 0)%Z eqn:Hs; [lia|]. apply Z.leb_gt in Hs. lia. }
  split.
  { intros v Hv. unfold Sparsefile.New. cbn [Sparsefile.defaultQuota].
    rewrite (Atoi_of_decimal _ v Hv).
    destruct (v <? Strconv.min_int)%Z eqn:H1.
    - cbn [fst snd negb orb]. apply Z.ltb_lt in H1.
      unfold Strconv.min_int in H1.
      destruct (0 <? v)%Z eqn:H3; [apply Z.ltb_lt in H3; lia|reflexivity].
    - destruct (Strconv.max_int <? v)%Z eqn:H2; cbn [fst snd negb orb].
      + apply Z.ltb_lt in H2.
        destruct (v <=? Strconv.max_int)%Z eqn:H3; [apply Z.leb_le in H3; lia|].
        now rewrite andb_false_r.
      + apply Z.ltb_ge in H2. apply Z.leb_le in H2. rewrite H2, andb_true_r.
        destruct (v <=? 0)%Z eqn:H3.
        * apply Z.leb_le in H3. destruct (0 <? v)%Z eqn:H4; [apply Z.ltb_lt in H4; lia|].
          reflexivity.
        * apply Z.leb_gt in H3. apply Z.ltb_lt in H3. now rewrite H3. }
  split.
  { intros Hv. unfold Sparsefile.New. cbn [Sparsefile.defaultQuota].
    now rewrite (Atoi_syntax _ Hv). }
  intros fs e img h Hfs Hne Hnot.
  unfold Sparsefile.formatImageFile, Sparsefile.New. cbn [Sparsefile.fsType].
  assert (Hl : label_or_empty config "fs_type" = fs)
    by (unfold label_or_empty; now rewrite Hfs).
  rewrite Hl, (nonempty_true fs Hne).
  destruct (String.eqb fs "ext4") eqn:Heq; [apply String.eqb_eq in Heq; congruence|].
  reflexivity.
Qed.

Ltac unfold_calls :=
  unfold Defer.run, Defer.bind, Overlay.ask, Overlay.query, Overlay.log,
    Overlay.log_all, Overlay.attempt, Defer.try, Defer.call, Defer.lift,
    Defer.ret, Defer.fail, Defer.panic, Defer.defer.

Ltac tx_atom :=
  cbn [Tx.ended Tx.closes existsb orb last In Tx.driver_cleanups flat_map app] in *;
  first
    [ reflexivity
    | discriminate
    | congruence
    | match goal with
      | H : exists _, inl _ = inr _ |- _ => destruct H as [? H]; discriminate H
      | H : forall msg, Panic ?m <> Panic msg |- _ => exfalso; exact (H m eq_refl)
      | |- exists _, inr ?b = inr _ => exists b; reflexivity
      | |- ~ _ => intros Hin; intuition discriminate
      end ].

Ltac tx_leaf :=
  cbn [fst snd app Defer.run_deferred fold_left];
  repeat match goal with
         | |- _ /\ _ => split
         | |- _ <-> _ => split
         | |- forall _, _ => intro
         | H : _ /\ _ |- _ => destruct H
         end;
  tx_atom.

(** * Further properties of the orchestrator *)

(** X14.  The transaction of [Active].  Once the transaction is open,
    [Active] ends it (by a rollback or a commit attempt) exactly when the
    parent is not empty, the options apply and nothing panics: the early
    returns for an empty parent and for a failing option come before any
    rollback is arranged, and leave the transaction open.  A successful
    [Active] ends with the commit, without a rollback and without a call of
    the driver's [Cleanup]; an error return that ends the transaction ends
    it with a rollback. *)
Theorem Active_transaction
        (d : Overlay.deps) (o : Overlay.snapshotter) (key parent : string)
        (opts : list Overlay.Opt) :
  Overlay.begin_tx d true = None ->
  let out := Overlay.Active d o key parent opts in
  let applied :=
    Overlay.apply_opts (opts ++ [Overlay.WithLabels (<["rwlayer" := "true"]> ∅)])
      Overlay.zeroInfo in
  (Tx.ended (snd out) = true <->
   GoPath.nonempty parent = true /\ (exists base, applied = inr base)
   /\ forall msg, fst out <> Panic msg)
  /\ (forall ms, fst out = Ok ms ->
                 last (snd out) = Some Overlay.CCommitTx
                 /\ ~ In Overlay.CRollback (snd out)
                 /\ Tx.driver_cleanups (snd out) = [])
  /\ (forall err, fst out = Err err -> Tx.ended (snd out) = true ->
                  last (snd out) = Some Overlay.CRollback).
Proof.
  intros Hb. cbv zeta.
  unfold Overlay.Active, Overlay.Active_body, Overlay.prepareUpperDir_body.
  unfold_calls. cbn [fst snd]. rewrite Hb. cbn [fst snd].
  destruct (GoPath.nonempty parent); cbn [negb fst snd]; [|tx_leaf].
  destruct (Overlay.apply_opts _ Overlay.zeroInfo) as [oerr|base];
    cbn [fst snd]; [tx_leaf|].
  destruct (Overlay.prepare_lower d Overlay.KindActive key parent true base)
    as [perr|[[s parentDir] lowerMount]]; cbn [fst snd]; [tx_leaf|].
  destruct (Overlay.mkdir_all d (Overlay.upperPath o (Some base) (Overlay.ID s) key));
    cbn [fst snd]; [tx_leaf|].
  destruct (Overlay.mkdir_all d
              (GoPath.Join [Overlay.upperPath o (Some base) (Overlay.ID s) key; "fs"]));
    cbn [fst snd]; [tx_leaf|].
  destruct (Overlay.mkdir_all d
              (GoPath.Join [Overlay.upperPath o (Some base) (Overlay.ID s) key; "work"]));
    cbn [fst snd]; [tx_leaf|].
  destruct (Overlay.getActiveQuota d base) as [[aq aerr]|gerr|gmsg]; cbn [fst snd];
    [|tx_leaf|tx_leaf].
  match goal with
  | |- context [Overlay.quotaDriver o && ?c] =>
      destruct (Overlay.quotaDriver o && c)
  end; cbn [fst snd];
    (destruct (Overlay.mkdir_all d (Overlay.lowerPath o (Some base) (Overlay.ID s) key));
     cbn [fst snd]; [tx_leaf|];
     destruct (Overlay.mount_all d lowerMount _); cbn [fst snd]; [tx_leaf|];
     destruct (Overlay.commit_tx d); cbn [fst snd]; tx_leaf).
Qed.

Ltac cl_atom :=
  cbn [Tx.driver_cleanups flat_map app] in *;
  first
    [ reflexivity
    | discriminate
    | congruence
    | match goal with
      | H : Err _ = Err _ |- _ => inversion H; subst; clear H
      end;
      first [ left; eexists; reflexivity
            | right; left; eexists; reflexivity
            | right; right; left; eexists; reflexivity
            | right; right; right; eexists; reflexivity ] ].

Ltac cl_leaf :=
  cbn [fst snd app Defer.run_deferred fold_left];
  repeat match goal with
         | |- _ /\ _ => split
         | |- forall _, _ => intro
         end;
  cl_atom.

(** X15.  When [Active] detaches the lower device again.  After
    [prepareLower] has succeeded, [Active] can fail in four ways only.  It
    calls the driver's [Cleanup] for the new layer when the upper directory
    cannot be prepared and when the lower mount fails, but not when
    [MkdirAll] of the lower directory fails (nor when the transaction
    commit fails): on that path the device [prepareLower] attached stays
    attached. *)
Theorem Active_driver_cleanup
        (d : Overlay.deps) (o : Overlay.snapshotter) (key parent : string)
        (opts : list Overlay.Opt) (base : Overlay.Info) (s : Overlay.Snapshot)
        (parentDir : string) (lowerMount : list Mount.Mount) :
  Overlay.begin_tx d true = None ->
  GoPath.nonempty parent = true ->
  Overlay.apply_opts (opts ++ [Overlay.WithLabels (<["rwlayer" := "true"]> ∅)])
    Overlay.zeroInfo = inr base ->
  Overlay.prepare_lower d Overlay.KindActive key parent true base
  = inr (s, parentDir, lowerMount) ->
  let out := Overlay.Active d o key parent opts in
  (forall err, fst out = Err err ->
     (exists e, err = ErrWrap "failed to prepare upper dir" e)
     \/ (exists e, err = ErrWrap "failed to prepare lower dir" e)
     \/ (exists e, err = ErrWrap "failed to mount lower dir" e)
     \/ (exists e, err = ErrWrap "failed to commit layer" e))
  /\ (forall e, fst out = Err (ErrWrap "failed to prepare upper dir" e) ->
                Tx.driver_cleanups (snd out) = [Overlay.ID s])
  /\ (forall e, fst out = Err (ErrWrap "failed to mount lower dir" e) ->
                Tx.driver_cleanups (snd out) = [Overlay.ID s])
  /\ (forall e, fst out = Err (ErrWrap "failed to prepare lower dir" e) ->
                Tx.driver_cleanups (snd out) = [])
  /\ (forall e, fst out = Err (ErrWrap "failed to commit layer" e) ->
                Tx.driver_cleanups (snd out) = []).
Proof.
  intros Hb Hparent Ho Hp. cbv zeta.
  unfold Overlay.Active, Overlay.Active_body, Overlay.prepareUpperDir_body.
  unfold_calls. cbn [fst snd]. rewrite Hb. cbn [fst snd].
  rewrite Hparent. cbn [negb fst snd]. rewrite Ho. cbn [fst snd].
  rewrite Hp. cbn [fst snd].
  destruct (Overlay.mkdir_all d (Overlay.upperPath o (Some base) (Overlay.ID s) key));
    cbn [fst snd]; [cl_leaf|].
  destruct (Overlay.mkdir_all d
              (GoPath.Join [Overlay.upperPath o (Some base) (Overlay.ID s) key; "fs"]));
    cbn [fst snd]; [cl_leaf|].
  destruct (Overlay.mkdir_all d
              (GoPath.Join [Overlay.upperPath o (Some base) (Overlay.ID s) key; "work"]));
    cbn [fst snd]; [cl_leaf|].
  destruct (Overlay.getActiveQuota d base) as [[aq aerr]|gerr|gmsg]; cbn [fst snd];
    [|cl_leaf|cl_leaf].
  match goal with
  | |- context [Overlay.quotaDriver o && ?c] =>
      destruct (Overlay.quotaDriver o && c)
  end; cbn [fst snd];
    (destruct (Overlay.mkdir_all d (Overlay.lowerPath o (Some base) (Overlay.ID s) key));
     cbn [fst snd]; [cl_leaf|];
     destruct (Overlay.mount_all d lowerMount _); cbn [fst snd]; [cl_leaf|];
     destruct (Overlay.commit_tx d); cbn [fst snd]; cl_leaf).
Qed.

Lemma ended_snoc_rollback (tr : list Overlay.call) :
  Tx.ended (tr ++ [Overlay.CRollback]) = true.
Proof. unfold Tx.ended. rewrite existsb_app. cbn. apply orb_true_r. Qed.

(** X16.  The transaction of [Prepare].  Once the transaction is open,
    [Prepare] ends it exactly when the options apply and [prepareLower]
    succeeds.  A failing option returns the option's error, and a failing
    [prepareLower] the error wrapped in [failed to prepare], both without a
    rollback (where [Active] rolls back on a failing [prepareLower]).  Past
    that point every error return ends with a rollback and a successful
    return with the commit. *)
Theorem Prepare_transaction
        (d : Overlay.deps) (o : Overlay.snapshotter) (key parent : string)
        (opts : list Overlay.Opt) :
  Overlay.begin_tx d true = None ->
  let out := Overlay.Prepare d o key parent opts in
  (Tx.ended (snd out) = true <->
   exists base r,
     Overlay.apply_opts opts Overlay.zeroInfo = inr base
     /\ Overlay.prepare_lower d Overlay.KindActive key parent false base = inr r)
  /\ (forall err, Overlay.apply_opts opts Overlay.zeroInfo = inl err ->
                  out = (Err err, [Overlay.CBegin true]))
  /\ (forall base err,
        Overlay.apply_opts opts Overlay.zeroInfo = inr base ->
        Overlay.prepare_lower d Overlay.KindActive key parent false base = inl err ->
        out = (Err (ErrWrap "failed to prepare" err),
               [Overlay.CBegin true;
                Overlay.CPrepareLower Overlay.KindActive key parent false]))
  /\ (forall err, fst out = Err err -> Tx.ended (snd out) = true ->
                  last (snd out) = Some Overlay.CRollback)
  /\ (forall ms, fst out = Ok ms -> last (snd out) = Some Overlay.CCommitTx).
Proof.
  intros Hb. cbv zeta.
  unfold Overlay.Prepare, Overlay.Prepare_body. unfold_calls.
  cbn [fst snd]. rewrite Hb. cbn [fst snd].
  destruct (Overlay.apply_opts opts Overlay.zeroInfo) as [oerr|base]; cbn [fst snd].
  { split; [split; [discriminate|intros [b [r [H _]]]; discriminate H]|].
    split; [intros err [= <-]; reflexivity|].
    split; [intros b err H; discriminate H|].
    split; [intros err _ H; discriminate H|intros ms H; discriminate H]. }
  destruct (Overlay.prepare_lower d Overlay.KindActive key parent false base)
    as [perr|[[s parentDir] mounts]] eqn:Hpl; cbn [fst snd].
  { split; [split; [discriminate
                   |intros [b [r [H1 H2]]]; inversion H1; subst;
                    rewrite Hpl in H2; discriminate H2]|].
    split; [intros err H; discriminate H|].
    split; [intros b err [= <-] H2; rewrite Hpl in H2; inversion H2; reflexivity|].
    split; [intros err _ H; discriminate H|intros ms H; discriminate H]. }
  assert (Hyes : exists b r,
             @inr error _ base = inr b
             /\ Overlay.prepare_lower d Overlay.KindActive key parent false b = inr r)
    by (now exists base, (s, parentDir, mounts)).
  destruct (Overlay.pre_process d _ parentDir parent (Overlay.labels_of base))
    as [skip [pperr|]]; cbn [fst snd Defer.run_deferred fold_left app].
  { split; [split; [intros _; exact Hyes|reflexivity]|].
    split; [intros err H; discriminate H|].
    split; [intros b err Hb' H; inversion Hb'; subst; rewrite Hpl in H; discriminate H|].
    split; [reflexivity|intros ms H; discriminate H]. }
  destruct skip; cbn [fst snd].
  - destruct (Overlay.Commit d o _ key _) as [[cerr|] tr];
      cbn [fst snd Defer.run_deferred fold_left].
    + split; [split; [intros _; exact Hyes|intros _; apply ended_snoc_rollback]|].
      split; [intros err H; discriminate H|].
      split; [intros b err Hb' H; inversion Hb'; subst; rewrite Hpl in H; discriminate H|].
      split; [intros; apply last_snoc|intros ms H; discriminate H].
    + split; [split; [intros _; exact Hyes|intros _; apply ended_snoc_rollback]|].
      split; [intros err H; discriminate H|].
      split; [intros b err Hb' H; inversion Hb'; subst; rewrite Hpl in H; discriminate H|].
      split; [intros; apply last_snoc|intros ms H; discriminate H].
  - destruct (Overlay.commit_tx d); cbn [fst snd Defer.run_deferred fold_left app].
    + split; [split; [intros _; exact Hyes|reflexivity]|].
      split; [intros err H; discriminate H|].
      split; [intros b err Hb' H; inversion Hb'; subst; rewrite Hpl in H; discriminate H|].
      split; [reflexivity|intros ms H; discriminate H].
    + split; [split; [intros _; exact Hyes|reflexivity]|].
      split; [intros err H; discriminate H|].
      split; [intros b err Hb' H; inversion Hb'; subst; rewrite Hpl in H; discriminate H|].
      split; [intros err H; discriminate H|reflexivity].
Qed.

(** X17.  The transaction of [Commit].  Once the transaction is open,
    [Commit] leaves it open in one case only: when the driver's commit
    fails, the error is returned wrapped in [failed to commit active mount]
    with neither rollback nor commit (the deferred rollback tests a variable
    the driver's error is not assigned to).  The store's [CommitActive] is
    called only after the driver's commit has succeeded; a rollback and a
    transaction commit never both happen; a rollback is the last call and
    comes with an error. *)
Theorem Commit_transaction
        (d : Overlay.deps) (o : Overlay.snapshotter) (name key : string) :
  Overlay.begin_tx d true = None ->
  let out := Overlay.Commit d o name key [] in
  (Tx.ended (snd out) = false <->
   exists id info u usage err,
     Overlay.get_info d key = inr (id, info, u)
     /\ Overlay.disk_usage d (Overlay.fsPath o (Some info) id key) = inr usage
     /\ Overlay.driver_commit d (Overlay.fsPath o (Some info) id key) = Some err
     /\ fst out = Some (ErrWrap "failed to commit active mount" err))
  /\ (In (Overlay.CCommitActive key name) (snd out) ->
      exists id info u,
        Overlay.get_info d key = inr (id, info, u)
        /\ Overlay.driver_commit d (Overlay.fsPath o (Some info) id key) = None)
  /\ (In Overlay.CRollback (snd out) -> In Overlay.CCommitTx (snd out) -> False)
  /\ (fst out = None -> last (snd out) = Some Overlay.CCommitTx)
  /\ (In Overlay.CRollback (snd out) ->
      fst out <> None /\ last (snd out) = Some Overlay.CRollback).
Proof.
  intros Hb. cbv zeta. unfold Overlay.Commit. rewrite Hb.
  destruct (Overlay.get_info d key) as [gerr|[[id info] u]] eqn:Hg.
  { cbn [fst snd app Tx.ended Tx.closes existsb orb In last].
    split; [split; [discriminate|intros [? [? [? [? [? [H _]]]]]]; discriminate H]|].
    split; [intuition discriminate|].
    split; [intuition discriminate|].
    split; [discriminate|]. intros _. split; [discriminate|reflexivity]. }
  destruct (Overlay.disk_usage d (Overlay.fsPath o (Some info) id key))
    as [uerr|usage] eqn:Hu.
  { cbn [fst snd app Tx.ended Tx.closes existsb orb In last].
    split; [split; [discriminate
                   |intros [? [? [? [? [? [H1 [H2 _]]]]]]]; inversion H1; subst;
                    rewrite Hu in H2; discriminate H2]|].
    split; [intuition discriminate|].
    split; [intuition discriminate|].
    split; [discriminate|]. intros _. split; [discriminate|reflexivity]. }
  destruct (Overlay.driver_commit d (Overlay.fsPath o (Some info) id key))
    as [derr|] eqn:Hd.
  { cbn [fst snd app Tx.ended Tx.closes existsb orb In last].
    split; [split; [intros _; now exists id, info, u, usage, derr|reflexivity]|].
    split; [intuition discriminate|].
    split; [intuition discriminate|].
    split; [discriminate|]. intuition discriminate. }
  destruct (Overlay.commit_active d key name) as [aerr|].
  { cbn [fst snd app Tx.ended Tx.closes existsb orb In last].
    split; [split; [discriminate
                   |intros [? [? [? [? [? [H1 [_ [H3 _]]]]]]]]; inversion H1; subst;
                    rewrite Hd in H3; discriminate H3]|].
    split; [intros _; now exists id, info, u|].
    split; [intuition discriminate|].
    split; [discriminate|]. intros _. split; [discriminate|reflexivity]. }
  cbn [fst snd app Tx.ended Tx.closes existsb orb In last].
  split; [split; [discriminate
                 |intros [? [? [? [? [? [H1 [_ [H3 _]]]]]]]]; inversion H1; subst;
                  rewrite Hd in H3; discriminate H3]|].
  split; [intros _; now exists id, info, u|].
  split; [intuition discriminate|].
  split; [reflexivity|]. intuition discriminate.
Qed.

Lemma last_snoc_rollback (tr : list Overlay.call) :
  last (tr ++ [Overlay.CRollback]) = Some Overlay.CRollback.
Proof. apply last_snoc. Qed.

Lemma getCleanupDirectories_shape (d : Overlay.deps) (o : Overlay.snapshotter)
      (tr : list Overlay.call) (ds : list (Defer.cleanup (St := list Overlay.call))) :
  exists r extra,
    Overlay.getCleanupDirectories_body d o (tr, ds) = (r, (tr ++ extra, ds))
    /\ Forall (fun c => match c with
                        | Overlay.CIDMap | Overlay.COpen _
                        | Overlay.CReaddirnames _ => True
                        | _ => False
                        end) extra.
Proof.
  unfold Overlay.getCleanupDirectories_body. unfold_calls. cbn [fst snd].
  destruct (Overlay.id_map d) as [e|ids]; cbn [fst snd];
    [eexists _, [_]; split; [reflexivity|now repeat constructor]|].
  destruct (Overlay.open_dir d (GoPath.Join [Overlay.root o; "snapshots"]));
    cbn [fst snd];
    [eexists _, [_; _]; rewrite <- !app_assoc; split;
     [reflexivity|now repeat constructor]|].
  destruct (Overlay.open_dir d (GoPath.Join [Overlay.defaultUpperDir o; "snapshots"]));
    cbn [fst snd];
    [eexists _, [_; _; _]; rewrite <- !app_assoc; split;
     [reflexivity|now repeat constructor]|].
  destruct (Overlay.readdirnames d (GoPath.Join [Overlay.defaultUpperDir o; "snapshots"]));
    cbn [fst snd];
    [eexists _, [_; _; _; _]; rewrite <- !app_assoc; split;
     [reflexivity|now repeat constructor]|].
  destruct (Overlay.readdirnames d (GoPath.Join [Overlay.root o; "snapshots"]));
    cbn [fst snd];
    eexists _, [_; _; _; _; _]; rewrite <- !app_assoc; (split;
     [reflexivity|now repeat constructor]).
Qed.

Ltac rm_atom :=
  first
    [ discriminate
    | apply last_snoc
    | reflexivity
    | match goal with
      | H : In _ _ |- _ =>
          exfalso; cbn [app In] in H; intuition discriminate
      end ].

Ltac rm_fail :=
  cbn [fst snd Defer.run_deferred fold_left];
  split; [intros err _; rm_atom|split; [intros Hin|intros Hok; discriminate Hok]].

(* A leaf past the driver's clean-up: an error or a panic. *)
Ltac rm_late :=
  cbn [fst snd Defer.run_deferred fold_left];
  split;
  [ intros err Herr; first [discriminate Herr | apply last_snoc]
  | split; [intros _; assumption | intros Hok; discriminate Hok] ].

(* The leaf of a successful run. *)
Ltac rm_done :=
  cbn [fst snd Defer.run_deferred fold_left];
  split;
  [ intros err Herr; discriminate Herr
  | split;
    [ intros _; assumption
    | intros _; right;
      match goal with
      | |- context [(?tr ++ [Overlay.CCommitTx]) ++ map Overlay.CRemoveAll ?rs] =>
          exists tr, rs; split; [now rewrite <- app_assoc|];
          split; [rewrite ?in_app_iff; cbn [In]; tauto|reflexivity]
      end ] ].

(* From the state after the driver's clean-up to the end of [Remove]. *)
Ltac rm_tail d o key id info :=
  destruct (Overlay.getActiveQuota d info) as [[aq aerr]|gerr|gmsg];
    cbn [fst snd]; [|rm_late|rm_late];
  match goal with
  | |- context [Overlay.quotaDriver o && ?c] =>
      destruct (Overlay.quotaDriver o && c)
  end; cbn [fst snd];
    [destruct (Overlay.quota_remove d (Overlay.upperPath o (Some info) id key));
     cbn [fst snd]; [rm_late|]|];
  (destruct (Overlay.getActivePath info key) as [perr|home]; cbn [fst snd];
     [|match goal with
       | |- context [Overlay.removeActivePath d info key ?t] =>
           destruct (Overlay.removeActivePath d info key t) as [[rerr|] tr1]
       end; cbn [fst snd]; [rm_late|]];
   (destruct (Overlay.storage_remove d key) eqn:Hsr; cbn [fst snd]; [rm_late|];
    destruct (Overlay.asyncRemove o); cbn [fst snd];
      [destruct (Overlay.commit_tx d) eqn:Hct; cbn [fst snd];
       [rm_late|rm_done]
      |match goal with
       | |- context [Overlay.getCleanupDirectories_body d o (?t, ?ds)] =>
           let r := fresh "r" in
           let Hgc := fresh "Hgc" in
           destruct (getCleanupDirectories_shape d o t ds) as [r [extra [Hgc _]]];
           rewrite Hgc;
           destruct r as [removals|cerr|cmsg]
       end;
       cbn [fst snd]; [|rm_late|rm_late];
       destruct (Overlay.commit_tx d) eqn:Hct; cbn [fst snd];
       [rm_late|rm_done]])).

(** X18.  The order of [Remove].  Once the transaction is open, every
    error return of [Remove] ends with the rollback.  The store's row is
    removed only after the driver's [Cleanup] of the layer has succeeded
    (and, when the lower directory exists, after it has been unmounted).
    A successful [Remove] is either the rollback for a key the store does
    not know, or ends with the transaction commit followed by nothing but
    the removal of the directories found for clean-up. *)
Theorem Remove_transaction
        (d : Overlay.deps) (o : Overlay.snapshotter) (key : string) :
  Overlay.begin_tx d true = None ->
  let out := Overlay.Remove d o key in
  (forall err, fst out = Err err -> last (snd out) = Some Overlay.CRollback)
  /\ (In (Overlay.CStorageRemove key) (snd out) ->
      exists id info u,
        Overlay.get_info d key = inr (id, info, u)
        /\ Overlay.driver_cleanup d id = None
        /\ (Overlay.stat d (Overlay.lowerPath o (Some info) id key) = true ->
            Overlay.unmount d (Overlay.lowerPath o (Some info) id key) = None))
  /\ (fst out = Ok tt ->
      snd out = [Overlay.CBegin true; Overlay.CGetInfo key; Overlay.CRollback]
      \/ exists pre removals,
          snd out = pre ++ Overlay.CCommitTx :: map Overlay.CRemoveAll removals
          /\ In (Overlay.CStorageRemove key) pre
          /\ Overlay.commit_tx d = None).
Proof.
  intros Hb. cbv zeta. unfold Overlay.Remove. rewrite Hb.
  destruct (Overlay.get_info d key) as [gerr|[[id info] u]] eqn:Hg.
  { destruct (Contains (Error gerr) "snapshot does not exist").
    - cbn [fst snd In]. split; [discriminate|].
      split; [intuition discriminate|]. intros _. now left.
    - unfold Overlay.Remove_body. unfold_calls. cbn [fst snd]. rewrite Hb, Hg.
      cbn [fst snd Defer.run_deferred fold_left app In last].
      split; [reflexivity|]. split; [intuition discriminate|discriminate]. }
  unfold Overlay.Remove_body. unfold_calls. cbn [fst snd]. rewrite Hb, Hg.
  cbn [fst snd].
  assert (Hunmount :
            forall P : Prop,
              (Overlay.stat d (Overlay.lowerPath o (Some info) id key) = true ->
               Overlay.unmount d (Overlay.lowerPath o (Some info) id key) = None) ->
              Overlay.driver_cleanup d id = None ->
              (exists id0 info0 u0,
                  @inr error _ (id, info, u) = inr (id0, info0, u0)
                  /\ Overlay.driver_cleanup d id0 = None
                  /\ (Overlay.stat d (Overlay.lowerPath o (Some info0) id0 key) = true ->
                      Overlay.unmount d (Overlay.lowerPath o (Some info0) id0 key) = None))).
  { intros _ H1 H2. now exists id, info, u. }
  destruct (Overlay.stat d (Overlay.lowerPath o (Some info) id key)) eqn:Hst;
    cbn [fst snd].
  - destruct (Overlay.unmount d (Overlay.lowerPath o (Some info) id key)) eqn:Hum;
      cbn [fst snd]; [rm_fail; rm_atom|].
    destruct (Overlay.driver_cleanup d id) eqn:Hdc; cbn [fst snd];
      [rm_fail; rm_atom|].
    specialize (Hunmount True (fun _ => eq_refl) eq_refl).
    rm_tail d o key id info.
  - destruct (Overlay.driver_cleanup d id) eqn:Hdc; cbn [fst snd];
      [rm_fail; rm_atom|].
    specialize (Hunmount True ltac:(discriminate) eq_refl).
    rm_tail d o key id info.
Qed.

Lemma Active_transaction_witness :
  last (snd (Overlay.Active TxFixtures.deps_plain OverlayFixtures.sn "run" "base" []))
  = Some Overlay.CCommitTx
  /\ Tx.ended (snd (Overlay.Active TxFixtures.deps_plain OverlayFixtures.sn
                      "run" "" [])) = false.
Proof.
  destruct (Active_transaction TxFixtures.deps_plain OverlayFixtures.sn "run" "base" []
              eq_refl) as [_ [Hok _]].
  destruct (Active_transaction TxFixtures.deps_plain OverlayFixtures.sn "run" "" []
              eq_refl) as [Hiff _].
  split.
  - assert (Hrun : is_ok (fst (Overlay.Active TxFixtures.deps_plain OverlayFixtures.sn
                                 "run" "base" [])) = true)
      by (vm_compute; reflexivity).
    destruct (fst (Overlay.Active TxFixtures.deps_plain OverlayFixtures.sn
                     "run" "base" [])) as [ms| |] eqn:Hfst; try discriminate Hrun.
    exact (proj1 (Hok ms eq_refl)).
  - destruct (Tx.ended (snd (Overlay.Active TxFixtures.deps_plain OverlayFixtures.sn
                               "run" "" []))); [|reflexivity].
    destruct (proj1 Hiff eq_refl) as [Hne _]. discriminate Hne.
Defined.

Lemma Active_driver_cleanup_witness :
  let d := TxFixtures.with_mount_all TxFixtures.deps_plain
             (fun _ _ => Some (ErrSys "EBUSY")) in
  Tx.driver_cleanups (snd (Overlay.Active d OverlayFixtures.sn "run" "base" []))
  = ["3"].
Proof.
  cbv zeta.
  eapply (proj1 (proj2 (proj2
            (Active_driver_cleanup
               (TxFixtures.with_mount_all TxFixtures.deps_plain
                  (fun _ _ => Some (ErrSys "EBUSY")))
               OverlayFixtures.sn "run" "base" [] _
               {| Overlay.ID := "3"; Overlay.SKind := Overlay.KindActive;
                  Overlay.ParentIDs := ["2"; "1"] |}
               "/r/snapshots/2" OverlayFixtures.lower_mount
               eq_refl eq_refl eq_refl eq_refl)))).
  vm_compute. reflexivity.
Defined.

Lemma Prepare_transaction_witness :
  let d := TxFixtures.with_prepare_lower TxFixtures.deps_plain
             (fun _ _ _ _ _ => inl (ErrSys "ENOSPC")) in
  Overlay.Prepare d OverlayFixtures.sn "extract" "base" []
  = (Err (ErrWrap "failed to prepare" (ErrSys "ENOSPC")),
     [Overlay.CBegin true;
      Overlay.CPrepareLower Overlay.KindActive "extract" "base" false]).
Proof.
  cbv zeta.
  exact (proj1 (proj2 (proj2
           (Prepare_transaction
              (TxFixtures.with_prepare_lower TxFixtures.deps_plain
                 (fun _ _ _ _ _ => inl (ErrSys "ENOSPC")))
              OverlayFixtures.sn "extract" "base" [] eq_refl)))
           Overlay.zeroInfo (ErrSys "ENOSPC") eq_refl eq_refl).
Defined.

Lemma Commit_transaction_witness :
  let d := TxFixtures.with_driver_commit TxFixtures.deps_plain
             (fun _ => Some (ErrSys "EIO")) in
  Tx.ended (snd (Overlay.Commit d OverlayFixtures.sn "img" "extract" [])) = false.
Proof.
  cbv zeta.
  apply (proj1 (Commit_transaction
                  (TxFixtures.with_driver_commit TxFixtures.deps_plain
                     (fun _ => Some (ErrSys "EIO")))
                  OverlayFixtures.sn "img" "extract" eq_refl)).
  exists "3", (OverlayFixtures.stored None), {| Overlay.USize := 0; Overlay.Inodes := 0 |},
    {| Overlay.USize := 4096; Overlay.Inodes := 1 |}, (ErrSys "EIO").
  repeat split; vm_compute; reflexivity.
Defined.

Lemma Remove_transaction_witness :
  let d := TxFixtures.with_driver_cleanup TxFixtures.deps_plain
             (fun _ => Some (ErrSys "EBUSY")) in
  is_err (fst (Overlay.Remove d OverlayFixtures.sn "run")) = true
  /\ last (snd (Overlay.Remove d OverlayFixtures.sn "run")) = Some Overlay.CRollback.
Proof.
  cbv zeta. split; [vm_compute; reflexivity|].
  destruct (Remove_transaction
              (TxFixtures.with_driver_cleanup TxFixtures.deps_plain
                 (fun _ => Some (ErrSys "EBUSY")))
              OverlayFixtures.sn "run" eq_refl) as [Herr _].
  assert (Hrun : is_err (fst (Overlay.Remove
                                (TxFixtures.with_driver_cleanup TxFixtures.deps_plain
                                   (fun _ => Some (ErrSys "EBUSY")))
                                OverlayFixtures.sn "run")) = true)
    by (vm_compute; reflexivity).
  destruct (fst (Overlay.Remove
                   (TxFixtures.with_driver_cleanup TxFixtures.deps_plain
                      (fun _ => Some (ErrSys "EBUSY")))
                   OverlayFixtures.sn "run")) as [|err|] eqn:Hfst;
    try discriminate Hrun.
  exact (Herr err eq_refl).
Defined.

(** X19.  [Cleanup] removes nothing unless the scan succeeded, and only
    outside the transaction.  Once its transaction is open, [Cleanup]
    always rolls it back, and every directory removal comes after that
    rollback; before it there is nothing but the read of the id map and
    the opening and listing of the two directories.  When the scan fails
    [Cleanup] returns the error and calls [RemoveAll] on nothing. *)
Theorem Cleanup_removals_follow_rollback
        (d : Overlay.deps) (o : Overlay.snapshotter) :
  Overlay.begin_tx d true = None ->
  let out := Overlay.Cleanup d o in
  (exists scan removals,
      snd out = Overlay.CBegin true :: scan ++ Overlay.CRollback
                  :: map Overlay.CRemoveAll removals
      /\ Forall (fun c => match c with
                          | Overlay.CIDMap | Overlay.COpen _
                          | Overlay.CReaddirnames _ => True
                          | _ => False
                          end) scan
      /\ (fst out <> None -> removals = []))
  /\ (fst out <> None -> Overlay.removed (snd out) = []
                         /\ last (snd out) = Some Overlay.CRollback).
Proof.
  intros Hb. cbv zeta. unfold Overlay.Cleanup, Overlay.cleanupDirectories.
  rewrite Hb. unfold Defer.run.
  destruct (getCleanupDirectories_shape d o [Overlay.CBegin true] [])
    as [r [scan [Hgc Hscan]]].
  rewrite Hgc.
  assert (Hnone : Overlay.removed (([Overlay.CBegin true] ++ scan) ++ [Overlay.CRollback])
                  = []).
  { unfold Overlay.removed. rewrite !flat_map_app. cbn [flat_map app].
    rewrite app_nil_r. clear Hgc.
    induction Hscan as [|c scan Hc _ IH]; [reflexivity|].
    destruct c; cbn [flat_map app] in *; try contradiction; exact IH. }
  destruct r as [removals|err|msg]; cbn [fst snd Defer.run_deferred fold_left].
  - rewrite fold_RemoveAll. split.
    + exists scan, removals. split; [now rewrite <- app_assoc|].
      split; [exact Hscan|]. intros H. congruence.
    + intros H. congruence.
  - split.
    + exists scan, []. cbn [map]. split; [now rewrite <- app_assoc|].
      split; [exact Hscan|]. reflexivity.
    + intros _. split; [exact Hnone|apply last_snoc].
  - split.
    + exists scan, []. cbn [map]. split; [now rewrite <- app_assoc|].
      split; [exact Hscan|]. reflexivity.
    + intros H. congruence.
Qed.

Lemma Cleanup_removals_follow_rollback_witness :
  let d := TxFixtures.with_id_map TxFixtures.deps_plain (inl (ErrSys "EIO")) in
  fst (Overlay.Cleanup d OverlayFixtures.sn) = Some (ErrSys "EIO")
  /\ Overlay.removed (snd (Overlay.Cleanup d OverlayFixtures.sn)) = []
  /\ last (snd (Overlay.Cleanup d OverlayFixtures.sn)) = Some Overlay.CRollback.
Proof.
  cbv zeta. split; [vm_compute; reflexivity|].
  apply (proj2 (Cleanup_removals_follow_rollback
                  (TxFixtures.with_id_map TxFixtures.deps_plain (inl (ErrSys "EIO")))
                  OverlayFixtures.sn eq_refl)).
  vm_compute. discriminate.
Defined.

Section LowerFacts.

Import Overlay.





End LowerFacts.







(** * Further properties of the descriptors *)

Section PullFacts.

Import Config.

Variable w : world.
Variable labels : gmap string string.
Variable ref host locator : string.
Hypothesis Href : labels !! labelImageRef = Some ref.
Hypothesis Hparse : parse_ref w ref = Some (host, locator).
Hypothesis Hwrite : forall p, atomic_write w p = None.

Lemma blob_url_built :
  constructImageBlobURL w ref = inr (Pull.blob_url host locator).
Proof. unfold constructImageBlobURL. now rewrite Hparse. Qed.

Lemma blob_url_nonempty : GoPath.nonempty (Pull.blob_url host locator) = true.
Proof. reflexivity. Qed.

(** One more plain layer on a parent whose descriptor is readable. *)
Lemma plain_on_parent (d : disk) (parent parentDir : string) (p : Config)
      (l : Pull.layer) :
  GoPath.nonempty parent = true ->
  d !! GoPath.Join [parentDir; configFile] = Some p ->
  ConstructOverlayBDSpec w d parent labels (Pull.l_dir l) parentDir
    (Pull.l_digest l) (Pull.l_size l)
  = (None,
     <[GoPath.Join [Pull.l_dir l; configFile] :=
         with_lowers (with_ref (with_repo (newConfig (Pull.l_dir l))
                                  (Pull.blob_url host locator)) ref)
           (Lowers p ++ [Pull.lower_of l])]> d).
Proof.
  intros Hp Hd. unfold ConstructOverlayBDSpec, plainSpec.
  rewrite Href, blob_url_built, Hp. cbn [negb].
  unfold ReadConfig. rewrite Hd. rewrite blob_url_nonempty. cbn [negb].
  rewrite WriteConfig_result, Hwrite. reflexivity.
Qed.

(** The first layer, without parent. *)
Lemma plain_root (d : disk) (parentDir : string) (l : Pull.layer) :
  ConstructOverlayBDSpec w d "" labels (Pull.l_dir l) parentDir
    (Pull.l_digest l) (Pull.l_size l)
  = (None,
     <[GoPath.Join [Pull.l_dir l; configFile] :=
         with_lowers (with_ref (with_repo (newConfig (Pull.l_dir l))
                                  (Pull.blob_url host locator)) ref)
           ([Pull.base_lower] ++ [Pull.lower_of l])]> d).
Proof.
  unfold ConstructOverlayBDSpec, plainSpec.
  rewrite Href, blob_url_built. cbn [negb GoPath.nonempty].
  rewrite WriteConfig_result, Hwrite. reflexivity.
Qed.

Lemma pull_on_parent (layers : list Pull.layer) :
  forall (d : disk) (parent parentDir : string) (p : Config) (top : Pull.layer),
    GoPath.nonempty parent = true ->
    d !! GoPath.Join [parentDir; configFile] = Some p ->
    Forall (fun l => GoPath.nonempty (Pull.l_dir l) = true) layers ->
    last layers = Some top ->
    exists d' c,
      Pull.pull w labels parent parentDir layers d = (None, d')
      /\ d' !! GoPath.Join [Pull.l_dir top; configFile] = Some c
      /\ Lowers c = Lowers p ++ map Pull.lower_of layers
      /\ RepoBlobURL c = Pull.blob_url host locator
      /\ ImageRef c = ref
      /\ Upper c = emptyUpper.
Proof.
  induction layers as [|l rest IH]; intros d parent parentDir p top Hp Hd Hall Hlast;
    [discriminate|].
  cbn [Pull.pull]. rewrite (plain_on_parent d parent parentDir p l Hp Hd).
  inversion Hall as [|? ? Hl Hrest]; subst.
  destruct rest as [|l2 rest].
  - cbn in Hlast. inversion Hlast; subst. cbn [Pull.pull].
    eexists _, _. split; [reflexivity|]. split; [apply lookup_insert_eq|].
    now repeat split.
  - match goal with
    | |- context [Pull.pull w labels _ _ _ (<[?k := ?c1]> d)] =>
        destruct (IH (<[k := c1]> d) (Pull.l_dir l) (Pull.l_dir l) c1 top Hl
                    (lookup_insert_eq d k c1) Hrest Hlast)
          as [d' [c [Hrun [Hc [Hlow [Hr [Hi Hu]]]]]]]
    end.
    exists d', c. split; [exact Hrun|]. split; [exact Hc|].
    split; [|now repeat split].
    rewrite Hlow. cbn [Lowers with_lowers map]. now rewrite <- app_assoc.
Qed.

End PullFacts.

(** X21.  The descriptors of an image pulled bottom up.  When the layers
    of a remote block image are prepared in order, each on the one before
    it, with an image reference that parses and writes that go through, the
    descriptor of the top layer lists the base layer and then one lower per
    layer, oldest first, each with its directory, digest and size; its blob
    URL prefix is built from the layer's own image reference.  The
    writable descriptor [ConstructOverlayBDWritableSpec] then puts on top
    has the same lowers and URL prefix, the upper index and data files of
    its directory, and no image reference. *)
Theorem plain_chain_lowers
        (w : Config.world) (labels : gmap string string)
        (ref host locator : string) (layers : list Pull.layer)
        (top : Pull.layer) (d : Config.disk) :
  labels !! Config.labelImageRef = Some ref ->
  Config.parse_ref w ref = Some (host, locator) ->
  (forall p, Config.atomic_write w p = None) ->
  Forall (fun l => Pull.l_dir l <> "") layers ->
  last layers = Some top ->
  exists d' c,
    Pull.pull w labels "" "" layers d = (None, d')
    /\ Config.ReadConfig d' (GoPath.Join [Pull.l_dir top; Config.configFile]) = inr c
    /\ Config.Lowers c = Pull.base_lower :: map Pull.lower_of layers
    /\ Config.RepoBlobURL c = Pull.blob_url host locator
    /\ Config.ImageRef c = ref
    /\ forall dir,
        exists d'' cw,
          Config.ConstructOverlayBDWritableSpec w d' dir (Pull.l_dir top) = (None, d'')
          /\ Config.ReadConfig d'' (GoPath.Join [dir; Config.configFile]) = inr cw
          /\ Config.Lowers cw = Pull.base_lower :: map Pull.lower_of layers
          /\ Config.RepoBlobURL cw = Pull.blob_url host locator
          /\ Config.ImageRef cw = ""
          /\ Config.Upper cw
             = {| Config.Index := GoPath.PJoin [dir; Config.idxFile];
                  Config.Data := GoPath.PJoin [dir; Config.dataFile] |}.
Proof.
  intros Href Hparse Hwrite Hall Hlast.
  assert (Hall' : Forall (fun l => GoPath.nonempty (Pull.l_dir l) = true) layers).
  { eapply Forall_impl; [exact Hall|]. intros l Hl. cbn in *.
    destruct (Pull.l_dir l); [congruence|reflexivity]. }
  assert (Hmain : exists d' c,
             Pull.pull w labels "" "" layers d = (None, d')
             /\ d' !! GoPath.Join [Pull.l_dir top; Config.configFile] = Some c
             /\ Config.Lowers c = Pull.base_lower :: map Pull.lower_of layers
             /\ Config.RepoBlobURL c = Pull.blob_url host locator
             /\ Config.ImageRef c = ref).
  { destruct layers as [|l rest]; [discriminate|].
    cbn [Pull.pull].
    rewrite (plain_root w labels ref host locator Href Hparse Hwrite d "" l).
    inversion Hall' as [|? ? Hl Hrest]; subst.
    destruct rest as [|l2 rest].
    - cbn in Hlast. inversion Hlast; subst. cbn [Pull.pull].
      eexists _, _. split; [reflexivity|]. split; [apply lookup_insert_eq|].
      now repeat split.
    - match goal with
      | |- context [Pull.pull w labels _ _ _ (<[?k := ?c1]> d)] =>
          destruct (pull_on_parent w labels ref host locator Href Hparse Hwrite
                      (l2 :: rest) (<[k := c1]> d) (Pull.l_dir l) (Pull.l_dir l)
                      c1 top Hl (lookup_insert_eq d k c1) Hrest Hlast)
            as [d' [c [Hrun [Hc [Hlow [Hr [Hi Hu]]]]]]]
      end.
      exists d', c. split; [exact Hrun|]. split; [exact Hc|].
      split; [|now split]. rewrite Hlow. reflexivity. }
  destruct Hmain as [d' [c [Hrun [Hc [Hlow [Hr Hi]]]]]].
  exists d', c. split; [exact Hrun|].
  split; [unfold Config.ReadConfig; now rewrite Hc|].
  split; [exact Hlow|]. split; [exact Hr|]. split; [exact Hi|].
  intros dir. unfold Config.ConstructOverlayBDWritableSpec, Config.ReadConfig.
  rewrite Hc, WriteConfig_result, Hwrite.
  eexists _, _. split; [reflexivity|].
  rewrite lookup_insert_eq. split; [reflexivity|].
  cbn [Config.Lowers Config.with_upper Config.with_lowers Config.RepoBlobURL
         Config.with_repo Config.ImageRef Config.newConfig Config.Upper].
  now repeat split.
Qed.

Lemma plain_chain_lowers_witness :
  exists d' c,
    Pull.pull Fixtures.world_ok Fixtures.labels_block "" "" Pull.three ∅ = (None, d')
    /\ Config.ReadConfig d' "/r/snapshots/3/config.v1.json" = inr c
    /\ map Config.Dir (Config.Lowers c)
       = ["/opt/overlaybd/baselayers"; "/r/snapshots/1"; "/r/snapshots/2";
          "/r/snapshots/3"]
    /\ map Config.Size (Config.Lowers c) = [0; 1048576; 2097152; 512]%Z.
Proof.
  destruct (plain_chain_lowers Fixtures.world_ok Fixtures.labels_block
              "registry.example/team/app:v1" "registry.example"
              "registry.example/team/app" Pull.three
              {| Pull.l_dir := "/r/snapshots/3"; Pull.l_digest := "sha256:0c";
                 Pull.l_size := "512" |} ∅)
    as [d' [c [Hrun [Hread [Hlow _]]]]].
  - vm_compute. reflexivity.
  - reflexivity.
  - intros p. reflexivity.
  - repeat constructor; discriminate.
  - reflexivity.
  - exists d', c. split; [exact Hrun|]. split; [exact Hread|].
    rewrite Hlow. split; vm_compute; reflexivity.
Defined.

(** X22.  Where a descriptor's blob URL comes from.  A plain descriptor
    always carries the URL prefix built from the layer's own image
    reference, and that reference: the branch that would take the parent's
    prefix tests for an empty prefix, which [constructImageBlobURL] never
    returns.  A turbo descriptor of a layer with a parent takes prefix and
    lowers from the parent's descriptor, reads no image reference and
    records none. *)
Theorem descriptor_blob_url
        (w : Config.world) (d : Config.disk) (parent : string)
        (labels : gmap string string)
        (snDir parentDir blobDigest blobSize : string) (c : Config.Config) :
  (Config.plainSpec w d parent labels snDir parentDir blobDigest blobSize = inr c ->
   exists ref host locator,
     labels !! Config.labelImageRef = Some ref
     /\ Config.parse_ref w ref = Some (host, locator)
     /\ Config.RepoBlobURL c = Pull.blob_url host locator
     /\ Config.RepoBlobURL c <> ""
     /\ Config.ImageRef c = ref)
  /\ (parent <> "" ->
      Config.turboSpec w d parent labels snDir parentDir = inr c ->
      exists p,
        Config.ReadConfig d (GoPath.Join [parentDir; Config.configFile]) = inr p
        /\ Config.RepoBlobURL c = Config.RepoBlobURL p
        /\ Config.ImageRef c = ""
        /\ exists lower, Config.Lowers c = (Config.Lowers p ++ [lower])%list
                         /\ Config.Dir lower = snDir).
Proof.
  split.
  - unfold Config.plainSpec.
    destruct (labels !! Config.labelImageRef) as [ref|]; [|discriminate].
    unfold Config.constructImageBlobURL.
    destruct (Config.parse_ref w ref) as [[host locator]|] eqn:Hp; [|discriminate].
    fold (Pull.blob_url host locator).
    cbv zeta. rewrite (blob_url_nonempty host locator). cbn [negb].
    destruct (negb (GoPath.nonempty parent)); cbv beta iota zeta.
    + intros Hc; inversion Hc; subst c; clear Hc. exists ref, host, locator.
      split; [reflexivity|]. split; [exact Hp|]. split; [reflexivity|].
      split; [|reflexivity].
      intros Hx. change (Pull.blob_url host locator = "") in Hx.
      pose proof (blob_url_nonempty host locator) as Hn.
      rewrite Hx in Hn. discriminate Hn.
    + destruct (Config.ReadConfig d _) as [e|pc]; [discriminate|].
      cbv beta iota zeta. intros Hc; inversion Hc; subst c; clear Hc. exists ref, host, locator.
      split; [reflexivity|]. split; [exact Hp|]. split; [reflexivity|].
      split; [|reflexivity].
      intros Hx. change (Pull.blob_url host locator = "") in Hx.
      pose proof (blob_url_nonempty host locator) as Hn.
      rewrite Hx in Hn. discriminate Hn.
  - intros Hne. unfold Config.turboSpec.
    cbv zeta. rewrite (nonempty_true parent Hne).
    destruct (Config.ReadConfig d _) as [e|pc]; [discriminate|].
    cbv beta iota zeta. intros Hc; inversion Hc; subst c; clear Hc. exists pc. repeat split.
    eexists. split; reflexivity.
Qed.

Lemma descriptor_blob_url_witness :
  (exists c,
     Config.plainSpec Fixtures.world_ok ∅ "" Fixtures.labels_block
       "/r/snapshots/1" "" "sha256:0a" "1048576" = inr c
     /\ Config.RepoBlobURL c = "https://registry.example/v2/team/app/blobs"
     /\ Config.ImageRef c = "registry.example/team/app:v1")
  /\ (exists c,
        Config.turboSpec Fixtures.world_ok
          (<["/r/snapshots/1/config.v1.json" :=
               Config.with_repo (Config.newConfig "/r/snapshots/1") "https://mirror/blobs"]> ∅)
          "1" ∅ "/r/snapshots/2" "/r/snapshots/1" = inr c
        /\ Config.RepoBlobURL c = "https://mirror/blobs"
        /\ Config.ImageRef c = "").
Proof.
  split.
  - destruct (Config.plainSpec Fixtures.world_ok ∅ "" Fixtures.labels_block
                "/r/snapshots/1" "" "sha256:0a" "1048576") as [e|c] eqn:Hc;
      [vm_compute in Hc; discriminate Hc|].
    destruct (proj1 (descriptor_blob_url Fixtures.world_ok ∅ ""
                       Fixtures.labels_block "/r/snapshots/1" ""
                       "sha256:0a" "1048576" c) Hc)
      as [ref [host [locator [Hl [Hp [Hu [_ Hr]]]]]]].
    exists c. split; [reflexivity|].
    vm_compute in Hl. injection Hl as <-.
    vm_compute in Hp. injection Hp as <- <-.
    split; [rewrite Hu; vm_compute; reflexivity | exact Hr].
  - destruct (Config.turboSpec Fixtures.world_ok
                (<["/r/snapshots/1/config.v1.json" :=
                     Config.with_repo (Config.newConfig "/r/snapshots/1")
                       "https://mirror/blobs"]> ∅)
                "1" ∅ "/r/snapshots/2" "/r/snapshots/1") as [e|c] eqn:Hc;
      [vm_compute in Hc; discriminate Hc|].
    destruct (proj2 (descriptor_blob_url Fixtures.world_ok _ "1" ∅
                       "/r/snapshots/2" "/r/snapshots/1" "" "" c)
                ltac:(discriminate) Hc)
      as [p [Hread [Hu [Hr _]]]].
    exists c. split; [reflexivity|].
    vm_compute in Hread. injection Hread as <-.
    split; [rewrite Hu; reflexivity | exact Hr].
Defined.

(** * Taking the loop mount down *)

Section UmountFacts.

Variable e : Umount.env.
Variables target loop : string.

Lemma poll_only_polls (n : nat) :
  forall i, Forall Umount.is_poll (Umount.poll e target loop i n).
Proof.
  induction n as [|n IH]; intros i; cbn [Umount.poll]; [constructor|].
  constructor; [exact I|].
  destruct (Umount.read_file e i _) as [content|]; [|constructor].
  destruct (negb _); constructor; [exact I|apply IH].
Qed.

Lemma poll_bounds (n : nat) :
  forall i,
    Umount.opens (Umount.poll e target loop i n) <= n
    /\ Umount.slept (Umount.poll e target loop i n) <= 100 * n.
Proof.
  induction n as [|n IH]; intros i; cbn [Umount.poll Umount.opens Umount.slept];
    [lia|].
  destruct (Umount.read_file e i _) as [content|];
    [|cbn [Umount.opens Umount.slept]; lia].
  destruct (negb _); cbn [Umount.opens Umount.slept]; [lia|].
  destruct (IH (S i)). lia.
Qed.

(** The loop sleeps once for every look at which the device still holds
    the image, up to the first look at which it does not. *)
Lemma poll_counts (n : nat) :
  forall i k,
    k <= n ->
    (forall j, j < k -> Umount.holds e target loop (i + j) = true) ->
    (k < n -> Umount.holds e target loop (i + k) = false) ->
    Umount.slept (Umount.poll e target loop i n) = 100 * k
    /\ Umount.opens (Umount.poll e target loop i n) = Nat.min (S k) n.
Proof.
  induction n as [|n IH]; intros i k Hk Hbusy Hfree;
    cbn [Umount.poll Umount.opens Umount.slept].
  - assert (k = 0) by lia. subst k. split; reflexivity.
  - destruct k as [|k].
    + specialize (Hfree ltac:(lia)). rewrite Nat.add_0_r in Hfree.
      unfold Umount.holds in Hfree.
      destruct (Umount.read_file e i _) as [content|];
        [rewrite Hfree|]; cbn [negb Umount.opens Umount.slept]; split; lia.
    + pose proof (Hbusy 0 ltac:(lia)) as H0. rewrite Nat.add_0_r in H0.
      unfold Umount.holds in H0.
      destruct (Umount.read_file e i _) as [content|]; [|discriminate].
      rewrite H0. cbn [negb Umount.opens Umount.slept].
      destruct (IH (S i) k ltac:(lia)) as [Hs Ho].
      * intros j Hj. replace (S i + j) with (i + S j) by lia.
        apply Hbusy. lia.
      * intros Hlt. replace (S i + k) with (i + S k) by lia.
        apply Hfree. lia.
      * rewrite Hs, Ho. split; lia.
Qed.

End UmountFacts.

(** X23.  [Remove] of the sparse-file quota.  It runs [findmnt] and then
    unmounts the target exactly once, whatever [findmnt] gave, and its
    result is the result of that unmount: nothing else can make it fail.
    What follows is at most 30 looks at the loop device's backing file and
    at most 3 seconds of sleep, and nothing at all when the unmount failed
    or the [findmnt] output has no second field.  The loop sleeps 100 ms for
    each look at which the device still reports a file directly in the
    target, and stops at the first look at which it does not; when the
    device never lets go, [Remove] still returns no error after the 30th
    sleep. *)
Theorem Remove_waits_for_loop (e : Umount.env) (target : string) :
  let out := Umount.Remove e target in
  fst out = Umount.unmount e target
  /\ exists rest,
      snd out = Umount.EvFindmnt ["-T"; target; "-P"; "-o"; "SOURCE"]
                  :: Umount.EvUnmount target :: rest
      /\ Forall Umount.is_poll rest
      /\ Umount.opens rest <= 30
      /\ Umount.slept rest <= 3000
      /\ (Umount.unmount e target <> None -> rest = [])
      /\ (length (Umount.Split (fst (Umount.findmnt e (Umount.findmnt_args target)))
                    Umount.quote) < 2 -> rest = [])
      /\ forall loop k,
          Umount.unmount e target = None ->
          nth_error (Umount.Split (fst (Umount.findmnt e (Umount.findmnt_args target)))
                       Umount.quote) 1 = Some loop ->
          k <= 30 ->
          (forall j, j < k -> Umount.holds e target loop j = true) ->
          (k < 30 -> Umount.holds e target loop k = false) ->
          Umount.slept rest = 100 * k
          /\ Umount.opens rest = Nat.min (S k) 30.
Proof.
  cbv zeta. unfold Umount.Remove, Umount.umount.
  destruct (Umount.unmount e target) as [err|] eqn:Hu.
  - split; [reflexivity|]. exists []. cbn [fst snd Umount.opens Umount.slept].
    repeat split; try constructor; try lia; try discriminate.
  - destruct (Umount.Split _ Umount.quote) as [|first [|loop more]] eqn:Hs.
    + split; [reflexivity|]. exists []. cbn [fst snd Umount.opens Umount.slept].
      repeat split; try constructor; try lia; try discriminate.
    + split; [reflexivity|]. exists []. cbn [fst snd Umount.opens Umount.slept].
      repeat split; try constructor; try lia; try discriminate.
    + split; [reflexivity|]. exists (Umount.poll e target loop 0 30).
      cbn [fst snd app nth_error length].
      split; [reflexivity|]. split; [apply poll_only_polls|].
      destruct (poll_bounds e target loop 30 0) as [Ho Hsl].
      split; [exact Ho|]. split; [exact Hsl|].
      split; [congruence|]. split; [lia|].
      intros loop' k _ Hl Hk Hbusy Hfree. injection Hl as <-.
      apply (poll_counts e target loop 30 0 k Hk); [exact Hbusy|exact Hfree].
Qed.

Lemma Remove_waits_for_loop_witness :
  Umount.Remove (Umount.env_busy "/r/upper/7") "/r/upper/7"
  = (None,
     [Umount.EvFindmnt ["-T"; "/r/upper/7"; "-P"; "-o"; "SOURCE"];
      Umount.EvUnmount "/r/upper/7";
      Umount.EvOpen "/sys/block/loop3/loop/backing_file"; Umount.EvSleep 100;
      Umount.EvOpen "/sys/block/loop3/loop/backing_file"; Umount.EvSleep 100;
      Umount.EvOpen "/sys/block/loop3/loop/backing_file"])
  /\ Umount.slept (snd (Umount.Remove (Umount.env_busy "/r/upper/7") "/r/upper/7"))
     = 200.
Proof.
  split; [vm_compute; reflexivity|].
  destruct (Remove_waits_for_loop (Umount.env_busy "/r/upper/7") "/r/upper/7")
    as [_ [rest [Htr [_ [_ [_ [_ [_ Hcount]]]]]]]].
  rewrite Htr. cbn [Umount.slept].
  destruct (Hcount "/dev/loop3" 2) as [Hs _].
  - reflexivity.
  - vm_compute. reflexivity.
  - lia.
  - intros j Hj. destruct j as [|[|j]]; [vm_compute; reflexivity ..|lia].
  - intros _. vm_compute. reflexivity.
  - exact Hs.
Defined.

(** * The size label *)

Section ByteCount.

Lemma wrap_int64_small (z : Z) :
  (- 2 ^ 63 <= z < 2 ^ 63)%Z -> Bytes.wrap_int64 z = z.
Proof.
  intros Hz. unfold Bytes.wrap_int64.
  rewrite Z.mod_small; lia.
Qed.

Lemma quot_unit (n : Z) :
  (0 <= n)%Z ->
  (0 <= n ÷ 1000 /\ 1000 * (n ÷ 1000) <= n < 1000 * (n ÷ 1000) + 1000)%Z.
Proof.
  intros Hn. rewrite Z.quot_div_nonneg by lia.
  pose proof (Z.div_mod n 1000 ltac:(lia)) as Hd.
  pose proof (Z.mod_pos_bound n 1000 ltac:(lia)) as Hm.
  pose proof (Z.div_pos n 1000 Hn ltac:(lia)).
  lia.
Qed.

(** One round of the loop: the product cannot wrap. *)
Lemma scale_round (fuel : nat) (n div : Z) (exp : nat) :
  (1000 <= n)%Z -> (0 <= div <= 10 ^ 15)%Z ->
  Bytes.scale (S fuel) n div exp
  = Bytes.scale fuel (n ÷ 1000)%Z (div * 1000)%Z (S exp).
Proof.
  intros Hn Hd. cbn [Bytes.scale]. unfold Bytes.unit.
  destruct (Z.geb_spec n 1000) as [_|Hlt]; [|lia].
  rewrite wrap_int64_small; [reflexivity|]. lia.
Qed.

Lemma scale_stop (fuel : nat) (n div : Z) (exp : nat) :
  (n < 1000)%Z ->
  Bytes.scale (S fuel) n div exp = Some (div, exp).
Proof.
  intros Hn. cbn [Bytes.scale]. unfold Bytes.unit.
  destruct (Z.geb_spec n 1000) as [Hge|_]; [lia|reflexivity].
Qed.

End ByteCount.

Ltac scale_done :=
  match goal with
  | |- exists exp, _ /\ Some (_, ?k) = _ /\ _ =>
      exists k;
      let v1 := eval vm_compute in (1000 ^ Z.of_nat (S k))%Z in
      let v2 := eval vm_compute in (1000 ^ Z.of_nat (S (S k)))%Z in
      change (1000 ^ Z.of_nat (S k))%Z with v1;
      change (1000 ^ Z.of_nat (S (S k)))%Z with v2;
      split; [lia|]; split; [f_equal; f_equal; lia|lia]
  end.

Ltac scale_step :=
  match goal with
  | |- context [Bytes.scale (S _) ?n _ _] =>
      let Hq := fresh "Hq" in
      let Hlt := fresh "Hlt" in
      let Hge := fresh "Hge" in
      destruct (Z_lt_le_dec n 1000) as [Hlt|Hge];
      [ rewrite (scale_stop _ n) by exact Hlt; scale_done
      | first
          [ exfalso; lia
          | pose proof (quot_unit n ltac:(lia)) as Hq;
            rewrite (scale_round _ n) by lia ] ]
  end.

Lemma scale_result (b : Z) :
  (1000 <= b < 2 ^ 63)%Z ->
  exists exp,
    exp <= 5
    /\ Bytes.scale 64 (b ÷ 1000)%Z 1000 0 = Some ((1000 ^ Z.of_nat (S exp))%Z, exp)
    /\ (1000 ^ Z.of_nat (S exp) <= b < 1000 ^ Z.of_nat (S (S exp)))%Z.
Proof.
  intros Hb. pose proof (quot_unit b ltac:(lia)) as Hq0.
  change (2 ^ 63)%Z with 9223372036854775808%Z in Hb.
  change (10 ^ 15)%Z with 1000000000000000%Z in *.
  do 7 (try scale_step).
Qed.

(** X24.  The unit of the size label of [Stat].  For every [int64],
    [ByteCountDecimal] returns: below 1000 it formats the plain count, and
    from 1000 on it formats the quotient of the count by
    [div = 1000 ^ (exp + 1)] with the letter at index [exp] of [kMGTPE],
    where [div <= b < 1000 * div], so the exact quotient is at least 1 and
    less than 1000.  [exp] is at most 5, so the index is never out of
    range, the loop ends within six rounds, and the [int64] product
    [div * unit] never wraps.  How [%.1f] rounds the quotient is outside
    this statement: the text it prints is not bounded here. *)
Theorem ByteCountDecimal_scaled (b : Z) :
  (- 2 ^ 63 <= b < 2 ^ 63)%Z ->
  ((b < 1000)%Z -> Bytes.ByteCountDecimal b = Some (Ok (Bytes.Plain b)))
  /\ ((1000 <= b)%Z ->
      exists exp c,
        exp <= 5
        /\ String.get exp "kMGTPE" = Some c
        /\ Bytes.ByteCountDecimal b
           = Some (Ok (Bytes.Scaled b (1000 ^ Z.of_nat (S exp)) c))
        /\ (1000 ^ Z.of_nat (S exp) <= b < 1000 ^ Z.of_nat (S (S exp)))%Z).
Proof.
  intros Hb. unfold Bytes.ByteCountDecimal, Bytes.unit. split.
  - intros Hlt. rewrite (proj2 (Z.ltb_lt b 1000) Hlt). reflexivity.
  - intros Hge. rewrite (proj2 (Z.ltb_ge b 1000) Hge).
    destruct (scale_result b ltac:(lia)) as [exp [Hexp [Hs Hr]]].
    rewrite Hs.
    assert (Hc : exists c, String.get exp "kMGTPE" = Some c).
    { do 6 (destruct exp as [|exp]; [eexists; reflexivity|]). lia. }
    destruct Hc as [c Hc]. exists exp, c. rewrite Hc.
    split; [exact Hexp|]. split; [reflexivity|]. split; [reflexivity|exact Hr].
Qed.

Lemma ByteCountDecimal_scaled_witness :
  Bytes.ByteCountDecimal 999 = Some (Ok (Bytes.Plain 999))
  /\ exists exp c,
      exp <= 5
      /\ String.get exp "kMGTPE" = Some c
      /\ Bytes.ByteCountDecimal 9223372036854775807
         = Some (Ok (Bytes.Scaled 9223372036854775807 (1000 ^ Z.of_nat (S exp)) c))
      /\ (1000 ^ Z.of_nat (S exp) <= 9223372036854775807
          < 1000 ^ Z.of_nat (S (S exp)))%Z.
Proof.
  split.
  - apply (proj1 (ByteCountDecimal_scaled 999 ltac:(lia))). lia.
  - apply (proj2 (ByteCountDecimal_scaled 9223372036854775807 ltac:(lia))). lia.
Defined.
